(** * cards.py: drawing cards, evaluating and ranking poker hands

    A shallow embedding of [src/cards.py] and the properties of its hand
    evaluator ([HandOfCards.analyse_poker_hand]), its ranker ([order_hands]),
    its deck ([Deck.pick_card], [Deck.get_list_of_poker_hands]) and its
    formatter ([str_hand_comparison]).

    Python objects are modelled by their values: the program never compares
    cards or hands by identity, only through [number], [suit], [points] and
    the printed form [str(card)].  Exceptions are modelled by the [result]
    type. *)

From Stdlib Require Import String Ascii DecimalString.
From Stdlib Require Import ZArith List Bool Lia Permutation Sorted.
Import ListNotations.

#[local] Open Scope string_scope.
#[local] Open Scope list_scope.
#[local] Open Scope Z_scope.

(** Concatenation of strings, for the f-strings of the source. *)
#[local] Infix "+++" := String.append (right associativity, at level 60).

(** ** Exceptions *)

Inductive error : Type :=
| IndexError
| ValueError
| TypeError.

Inductive result (A : Type) : Type :=
| OK (a : A)
| Err (e : error).

Arguments OK {A} a.
Arguments Err {A} e.

Definition bind {A B : Type} (r : result A) (f : A -> result B) : result B :=
  match r with
  | OK a => f a
  | Err e => Err e
  end.

Notation "x <- r ;; k" := (bind r (fun x => k))
  (at level 61, r at next level, right associativity).
Notation "' p <- r ;; k" := (bind r (fun p => k))
  (at level 61, p pattern, r at next level, right associativity).

Fixpoint mapM {A B : Type} (f : A -> result B) (l : list A) : result (list B) :=
  match l with
  | [] => OK []
  | x :: l' => y <- f x ;; ys <- mapM f l' ;; OK (y :: ys)
  end.

(** ** Python's stable descending sort

    [sorted(l, key=key, reverse=True)] and [l.sort(key=key, reverse=True)]:
    the result is ordered by decreasing key and elements with equal keys keep
    their original relative order.  A stable sort is determined by these two
    facts, so insertion from the right models it: the element inserted is
    placed in front of the first element whose key is not greater. *)

Section Sorting.
Context {A K : Type} (key : A -> K) (leb : K -> K -> bool).

Fixpoint insert_desc (x : A) (l : list A) : list A :=
  match l with
  | [] => [x]
  | y :: l' => if leb (key y) (key x) then x :: l else y :: insert_desc x l'
  end.

Fixpoint sorted_desc (l : list A) : list A :=
  match l with
  | [] => []
  | x :: l' => insert_desc x (sorted_desc l')
  end.

(** [x] may stand in front of [y] in a list sorted this way. *)
Definition desc (x y : A) : Prop := leb (key y) (key x) = true.
End Sorting.

(** Comparison of Python tuples: the first difference decides, a proper
    prefix is smaller. *)
Fixpoint tuple_leb (a b : list Z) : bool :=
  match a, b with
  | [], _ => true
  | _ :: _, [] => false
  | x :: a', y :: b' =>
      if x <? y then true else if y <? x then false else tuple_leb a' b'
  end.

Definition pair_leb (a b : Z * Z) : bool :=
  (fst a <? fst b) || ((fst a =? fst b) && (snd a <=? snd b)).

(** ** Cards *)

Record Card : Type := mkCard { number : Z; suit : string }.

(** [Card.__init__]: the ace counts 14. *)
Definition points (c : Card) : Z :=
  if negb (number c =? 1) then number c else 14.

(** [str(number)] for an integer. *)
Definition str_int (n : Z) : string := NilZero.string_of_int (Z.to_int n).

Definition num_conv (n : Z) (plural : bool) : string :=
  let plural_s := if plural then "s" else "" in
  if (n =? 1) || (n =? 14) then "Ace" +++ plural_s
  else if n =? 11 then "Jack" +++ plural_s
  else if n =? 12 then "Queen" +++ plural_s
  else if n =? 13 then "King" +++ plural_s
  else str_int n +++ plural_s.

(** [Card.__str__] *)
Definition Card_str (c : Card) : string :=
  num_conv (number c) false +++ " of " +++ suit c +++ "s".

(** ** Deck *)

Definition suits : list string := ["spade"; "heart"; "diamond"; "club"].

(** The cards of [Deck.__init__] before [random.shuffle]. *)
Definition new_deck_cards : list Card :=
  flat_map (fun n => map (fun s => mkCard n s) suits)
           (map Z.of_nat (seq 1 13)).

(** [list.pop(-1)] *)
Definition pop_last {A : Type} (l : list A) : option (A * list A) :=
  match rev l with
  | [] => None
  | x :: r => Some (x, rev r)
  end.

(** [Deck.pick_card]: the deck is its list of cards; the result is the card
    and the deck afterwards. *)
Definition pick_card (cards : list Card) : result (Card * list Card) :=
  if (length cards =? 0)%nat then Err IndexError
  else match pop_last cards with
       | Some r => OK r
       | None => Err IndexError
       end.

(** ** Poker hands *)

(** The second component of [score]: an int or a tuple of two ints. *)
Inductive secondary : Type :=
| SInt (n : Z)
| STuple (a b : Z).

#[local] Unset Elimination Schemes.
Inductive PokerHand : Type :=
  mkPokerHand {
      description : string;
      score : Z * secondary;
      hand_cards : list Card;
      kickers : option (list Card);
      sub_hands : option (list PokerHand)
    }.
#[local] Set Elimination Schemes.

Definition primary (h : PokerHand) : Z := fst (score h).

(** [x.score[1]] used as an int *)
Definition score1_int (h : PokerHand) : result Z :=
  match snd (score h) with
  | SInt n => OK n
  | STuple _ _ => Err TypeError
  end.

(** [(x.score[1][0], x.score[1][1])]: an int is not subscriptable. *)
Definition score1_pair (h : PokerHand) : result (Z * Z) :=
  match snd (score h) with
  | STuple a b => OK (a, b)
  | SInt _ => Err TypeError
  end.

(** [x.score[1] == n] for an int [n]: a tuple is not equal to an int. *)
Definition score1_is (h : PokerHand) (n : Z) : bool :=
  match snd (score h) with
  | SInt m => m =? n
  | STuple _ _ => false
  end.

(** ** order_hands *)

(** [sort_term] of [sort_by_high_cards]: iterating [None] raises. *)
Definition sort_term (hand : PokerHand) : result (list Z) :=
  match kickers hand with
  | Some ks => OK (map points ks)
  | None => Err TypeError
  end.

(** [sorted(hands, key=f, reverse=True)] for a key [f] that can raise: the
    keys are all computed before any comparison. *)
Definition sorted_by {K : Type} (f : PokerHand -> result K)
    (leb : K -> K -> bool) (hands : list PokerHand) : result (list PokerHand) :=
  keyed <- mapM (fun h => k <- f h ;; OK (k, h)) hands ;;
  OK (map snd (sorted_desc fst leb keyed)).

(** The loop over [enumerate(kickers_sorted[0].kickers)]: [second] is
    [kickers_sorted[1]], looked up only inside the body. *)
Fixpoint kicker_scan (top_kickers : list Card) (second : option PokerHand)
    (card_index : nat) : result Z :=
  match top_kickers with
  | [] => OK (-1)
  | kicker :: rest =>
      match second with
      | None => Err IndexError
      | Some h1 =>
          match kickers h1 with
          | None => Err TypeError
          | Some k1 =>
              match nth_error k1 card_index with
              | None => Err IndexError
              | Some c =>
                  if negb (points c =? points kicker)
                  then OK (Z.of_nat card_index + 1)
                  else kicker_scan rest second (S card_index)
              end
          end
      end
  end.

Definition sort_by_high_cards (hands_to_sort : list PokerHand)
  : result (list PokerHand * Z) :=
  kickers_sorted <- sorted_by sort_term tuple_leb hands_to_sort ;;
  match kickers_sorted with
  | [] => Err IndexError
  | h0 :: _ =>
      match kickers h0 with
      | None => Err TypeError
      | Some k0 =>
          determining_kicker_index <-
            kicker_scan k0 (nth_error kickers_sorted 1) 0 ;;
          OK (kickers_sorted, determining_kicker_index)
      end
  end.

(** Truth value of a tuple of two booleans: a tuple that is not empty is
    true, whatever it holds. *)
Definition truthy2 (t : bool * bool) : bool := true.

(** [sorted(hand_list, key=lambda x: x.score[0], reverse=True)] *)
Definition sorted_hands (hand_list : list PokerHand) : list PokerHand :=
  sorted_desc primary Z.leb hand_list.

Definition highest_hands (hand_list : list PokerHand) : list PokerHand :=
  match sorted_hands hand_list with
  | [] => []
  | top :: _ =>
      filter (fun x => primary x =? primary top) (sorted_hands hand_list)
  end.

(** The ordering by secondary score, before any kicker comparison.  In the
    tuple branch the key subscripts [x.score[1]], which raises on an int.  In
    the int branch the keys are compared as they are: the first hand has an
    int, so a tuple anywhere in the list has to be compared with an int,
    which raises as well. *)
Definition sorted_high_hands (hand_list : list PokerHand)
  : result (list PokerHand) :=
  match highest_hands hand_list with
  | [] => Err IndexError
  | hh0 :: _ =>
      match snd (score hh0) with
      | STuple _ _ => sorted_by score1_pair pair_leb (highest_hands hand_list)
      | SInt _ => sorted_by score1_int Z.leb (highest_hands hand_list)
      end
  end.

(** The hands handed to [sort_by_high_cards], when the two best hands have
    the same secondary score; [None] when kickers are not looked at. *)
Definition filtered_hands (shh : list PokerHand) : option (list PokerHand) :=
  match shh with
  | s0 :: s1 :: _ =>
      match snd (score s0), snd (score s1) with
      | STuple a0 b0, STuple a1 b1 =>
          if a0 =? a1 then
            if b0 =? b1 then
              Some (filter
                      (fun x => match snd (score x) with
                                | STuple a b => truthy2 (a =? a0, b =? b0)
                                | SInt _ => truthy2 (false, false)
                                end) shh)
            else None
          else None
      | SInt n0, SInt n1 =>
          if n0 =? n1 then
            Some (filter
                    (fun x => match snd (score x) with
                              | SInt n => n =? n0
                              | STuple _ _ => false
                              end) shh)
          else None
      | _, _ => None
      end
  | _ => None
  end.

Definition order_hands (hand_list : list PokerHand)
  : result (PokerHand * Z) :=
  shh <- sorted_high_hands hand_list ;;
  '(final, kicker_index) <-
    match filtered_hands shh with
    | Some fh => sort_by_high_cards fh
    | None => OK (shh, -2)
    end ;;
  match final with
  | [] => Err IndexError
  | winning_hand :: _ => OK (winning_hand, kicker_index)
  end.

(** ** HandOfCards *)

(** [l.pop(i)] for an index [i] that is not negative. *)
Definition pop {A : Type} (i : nat) (l : list A) : result (A * list A) :=
  match nth_error l i with
  | Some x => OK (x, firstn i l ++ skipn (S i) l)
  | None => Err IndexError
  end.

(** [hand_card_temp_indices]: the indices of the uncounted cards that have
    the number [n], from [iter_index] on. *)
Fixpoint temp_indices (n : Z) (uncounted : list Card) (iter_index : nat)
  : list nat :=
  match uncounted with
  | [] => []
  | iter_card :: rest =>
      if n =? number iter_card
      then iter_index :: temp_indices n rest (S iter_index)
      else temp_indices n rest (S iter_index)
  end.

(** [for temp_index in ...:
        hand_cards.append(uncounted_cards.pop(temp_index))] *)
Fixpoint pop_indices (indices : list nat) (hand_cards uncounted : list Card)
  : result (list Card * list Card) :=
  match indices with
  | [] => OK (hand_cards, uncounted)
  | temp_index :: rest =>
      '(c, uncounted') <- pop temp_index uncounted ;;
      pop_indices rest (hand_cards ++ [c]) uncounted'
  end.

(** The loop [for high_card_index, kicker in enumerate(temp_kickers)] pops
    from the list it iterates over.  The iterator keeps its position, so
    after a pop at the current position the card that moves into it is
    stepped over without being tested. *)
Fixpoint pop_printed (s : string) (temp_kickers : list Card) : list Card :=
  match temp_kickers with
  | [] => []
  | kicker :: rest =>
      if String.eqb s (Card_str kicker)
      then match rest with
           | [] => []
           | stepped_over :: rest' => stepped_over :: pop_printed s rest'
           end
      else kicker :: pop_printed s rest
  end.

Definition temp_kickers (cards hand_cards : list Card) : list Card :=
  fold_left (fun tk hand_card => pop_printed (Card_str hand_card) tk)
            hand_cards cards.

(** [str(card) in [str(x) for x in l]] *)
Definition printed_in (card : Card) (l : list Card) : bool :=
  existsb (String.eqb (Card_str card)) (map Card_str l).

(** The branches on [len(hand_cards)]: a candidate, nothing ([continue]) or
    the error for five of a kind. *)
Definition same_number_hand (card : Card) (hand_cards kickers : list Card)
  : result (option PokerHand) :=
  match length hand_cards with
  | 5%nat => Err ValueError
  | 4%nat =>
      OK (Some (mkPokerHand
                  ("Four of a kind, " +++ num_conv (number card) true)
                  (8, SInt (points card)) hand_cards (Some kickers) None))
  | 3%nat =>
      OK (Some (mkPokerHand
                  ("Three of a kind, " +++ num_conv (number card) true)
                  (4, SInt (points card)) hand_cards (Some kickers) None))
  | 2%nat =>
      OK (Some (mkPokerHand
                  ("Pair, " +++ num_conv (number card) true)
                  (2, SInt (points card)) hand_cards (Some kickers) None))
  | 1%nat =>
      OK (Some (mkPokerHand
                  (num_conv (number card) false +++ " high")
                  (1, SInt (points card)) hand_cards (Some kickers) None))
  | _ => OK None
  end.

(** The loop of [analyse_same_number_hands] over the cards [todo] still to
    visit; the result lists the candidates in the order they are appended. *)
Fixpoint same_number_loop (cards todo uncounted : list Card)
  : result (list PokerHand) :=
  match todo with
  | [] => OK []
  | card :: todo' =>
      if printed_in card uncounted then
        '(_, uncounted1) <- pop 0 uncounted ;;
        let indices := temp_indices (number card) uncounted1 0 in
        '(hand_cards, uncounted2) <-
          pop_indices (sorted_desc (fun i => i) Nat.leb indices)
                      [card] uncounted1 ;;
        let kickers :=
          sorted_desc number Z.leb (temp_kickers cards hand_cards) in
        cand <- same_number_hand card hand_cards kickers ;;
        more <- same_number_loop cards todo' uncounted2 ;;
        OK (match cand with
            | Some poker_hand => poker_hand :: more
            | None => more
            end)
      else same_number_loop cards todo' uncounted
  end.

Definition analyse_same_number_hands (cards : list Card)
  : result (list PokerHand) :=
  same_number_loop cards cards cards.

Definition analyse_flush (cards : list Card) : result (list PokerHand) :=
  match cards with
  | [] => Err IndexError
  | c0 :: _ =>
      let suit_comparison := suit c0 in
      let flush :=
        forallb (fun card => String.eqb (suit card) suit_comparison) cards in
      if flush
      then OK [mkPokerHand ("Flush, " +++ suit_comparison +++ "s")
                           (6, SInt (points c0)) cards (Some cards) None]
      else OK []
  end.

Fixpoint straight_loop (number_list : list Z) (straight_compare : Z)
    (is_straight : bool) : bool :=
  match number_list with
  | [] => is_straight
  | n :: rest =>
      if n =? straight_compare - 1
      then straight_loop rest n is_straight
      else straight_loop rest straight_compare false
  end.

Definition check_straight (number_list : list Z) : result bool :=
  match number_list with
  | [] => Err IndexError
  | first :: rest => OK (straight_loop rest first true)
  end.

Definition analyse_straight (cards : list Card) : result (list PokerHand) :=
  straight <- check_straight (map points cards) ;;
  match cards with
  | [] => Err IndexError
  | c0 :: _ =>
      '(straight, use_ace_as_1) <-
        (if negb straight && (points c0 =? 14)
         then
           let straight_to_check :=
             sorted_desc (fun n => n) Z.leb (map number cards) in
           straight' <- check_straight straight_to_check ;;
           OK (straight', straight')
         else OK (straight, false)) ;;
      if straight then
        if use_ace_as_1
        then OK [mkPokerHand "Straight, 1 to 5" (5, SInt 5) cards None None]
        else OK [mkPokerHand
                   ("Straight, " +++ num_conv (points (last cards c0)) false
                    +++ " to " +++ num_conv (points c0) false)
                   (5, SInt (points c0)) cards None None]
      else OK []
  end.

(** [s.split(sep)] for a separator of one character. *)
Fixpoint split_on (sep : ascii) (s : string) : list string :=
  match s with
  | EmptyString => [EmptyString]
  | String c s' =>
      if Ascii.eqb c sep then EmptyString :: split_on sep s'
      else match split_on sep s' with
           | [] => [String c EmptyString]
           | part :: parts => String c part :: parts
           end
  end.

Definition index {A : Type} (l : list A) (i : nat) : result A :=
  match nth_error l i with
  | Some x => OK x
  | None => Err IndexError
  end.

(** The three branches of [analyse_combination_hands]; each gives the
    candidate that is appended.  The hands they read have the int scores
    that the three passes before give. *)
Definition two_pairs_hand (cards : list Card) (pairs : list PokerHand)
  : result (list PokerHand) :=
  pairs <- sorted_by score1_int Z.leb pairs ;;
  pairs0 <- index pairs 0 ;;
  pairs1 <- index pairs 1 ;;
  high <- score1_int pairs0 ;;
  low <- score1_int pairs1 ;;
  let hand_desc :=
    "Two pairs, " +++ num_conv high true +++ " and " +++ num_conv low true in
  let hand_cards := hand_cards pairs0 ++ hand_cards pairs1 in
  let kickers :=
    fold_left (fun kickers card =>
                 if negb (printed_in card hand_cards) then [card]
                 else kickers) cards [] in
  OK [mkPokerHand hand_desc (3, STuple high low) hand_cards (Some kickers)
                  (Some pairs)].

Definition full_house_hand (threes_of_kind pairs : list PokerHand)
  : result (list PokerHand) :=
  three <- index threes_of_kind 0 ;;
  pair <- index pairs 0 ;;
  t <- score1_int three ;;
  p <- score1_int pair ;;
  let hand_desc :=
    "Full house, " +++ num_conv t true +++ " and " +++ num_conv p true in
  OK [mkPokerHand hand_desc (7, STuple t p)
                  (hand_cards three ++ hand_cards pair) None
                  (Some [three; pair])].

Definition straight_flush_hand (cards : list Card)
    (straights flushes : list PokerHand) : result (list PokerHand) :=
  straight <- index straights 0 ;;
  flush <- index flushes 0 ;;
  hand_desc <-
    (if score1_is straight 14 then OK "Royal Flush"
     else
       let straight_desc_parts := split_on "," (description straight) in
       part0 <- index straight_desc_parts 0 ;;
       part1 <- index straight_desc_parts 1 ;;
       OK (part0 +++ " Flush," +++ part1)) ;;
  OK [mkPokerHand hand_desc (9, snd (score straight)) cards None
                  (Some [flush; straight])].

(** [analyse_combination_hands]: the candidate it appends, if any. *)
Definition analyse_combination_hands (cards : list Card)
    (hand_candidates : list PokerHand) : result (list PokerHand) :=
  let pairs := filter (fun x => primary x =? 2) hand_candidates in
  let threes_of_kind := filter (fun x => primary x =? 4) hand_candidates in
  let straights := filter (fun x => primary x =? 5) hand_candidates in
  let flushes := filter (fun x => primary x =? 6) hand_candidates in
  if (length pairs =? 2)%nat then two_pairs_hand cards pairs
  else if (length threes_of_kind =? 1)%nat && (length pairs =? 1)%nat
       then full_house_hand threes_of_kind pairs
  else if (length straights =? 1)%nat && (length flushes =? 1)%nat
       then straight_flush_hand cards straights flushes
  else OK [].

(** The candidates in the order the four passes append them. *)
Definition hand_candidates (cards : list Card) : result (list PokerHand) :=
  same_number <- analyse_same_number_hands cards ;;
  flush <- analyse_flush cards ;;
  straight <- analyse_straight cards ;;
  let found := same_number ++ flush ++ straight in
  combination <- analyse_combination_hands cards found ;;
  OK (found ++ combination).

Definition analyse_poker_hand (cards : list Card) : result PokerHand :=
  candidates <- hand_candidates cards ;;
  '(highest_hand, _) <- order_hands candidates ;;
  OK highest_hand.

Record HandOfCards : Type :=
  mkHandOfCards { cards : list Card; poker_hand : PokerHand }.

(** [HandOfCards(test_cards=l)]: [self.cards] is the list [l] itself, sorted
    in place, so [cards] of the result is also what the caller's list holds
    afterwards. *)
Definition HandOfCards_test (test_cards : list Card) : result HandOfCards :=
  let cards := sorted_desc points Z.leb test_cards in
  poker_hand <- analyse_poker_hand cards ;;
  OK (mkHandOfCards cards poker_hand).

(** [card_amount] calls of [deck_to_use.pick_card()], appended in turn. *)
Fixpoint pick_cards (card_amount : nat) (deck : list Card)
  : result (list Card * list Card) :=
  match card_amount with
  | O => OK ([], deck)
  | S n =>
      '(card, deck') <- pick_card deck ;;
      '(picked, deck'') <- pick_cards n deck' ;;
      OK (card :: picked, deck'')
  end.

(** [HandOfCards(deck_to_use=deck, card_amount=n)]: the hand and the deck
    afterwards. *)
Definition HandOfCards_deck (deck : list Card) (card_amount : nat)
  : result (HandOfCards * list Card) :=
  '(picked, deck') <- pick_cards card_amount deck ;;
  let cards := sorted_desc points Z.leb picked in
  poker_hand <- analyse_poker_hand cards ;;
  OK (mkHandOfCards cards poker_hand, deck').

(** [Deck.get_list_of_poker_hands] *)
Fixpoint get_list_of_poker_hands (deck : list Card) (hand_amount : nat)
    (hand_size : nat) : result (list PokerHand * list Card) :=
  match hand_amount with
  | O => OK ([], deck)
  | S n =>
      '(hand, deck') <- HandOfCards_deck deck hand_size ;;
      '(hands, deck'') <- get_list_of_poker_hands deck' n hand_size ;;
      OK (poker_hand hand :: hands, deck'')
  end.

(** ** The hands of [simple_tests] *)

Definition royal_flush_cards : list Card :=
  [mkCard 1 "club"; mkCard 13 "club"; mkCard 12 "club"; mkCard 11 "club";
   mkCard 10 "club"].

(** Three hands of two pairs that one deck can deal together. *)
Definition tens_fives_king : list Card :=
  [mkCard 10 "spade"; mkCard 10 "heart"; mkCard 5 "spade"; mkCard 5 "heart";
   mkCard 13 "spade"].

Definition tens_fives_queen : list Card :=
  [mkCard 10 "diamond"; mkCard 10 "club"; mkCard 5 "diamond";
   mkCard 5 "club"; mkCard 12 "spade"].

Definition nines_fours_ace : list Card :=
  [mkCard 9 "spade"; mkCard 9 "heart"; mkCard 4 "spade"; mkCard 4 "heart";
   mkCard 1 "spade"].

Definition Card_eqb (c c' : Card) : bool :=
  (number c =? number c') && String.eqb (suit c) (suit c').

(** A shuffled deck that deals the three hands above, in this order: cards
    are picked from the end of the list. *)
Definition stacked_deck : list Card :=
  filter (fun c =>
            negb (existsb (Card_eqb c)
                    (tens_fives_king ++ tens_fives_queen ++ nines_fours_ace)))
         new_deck_cards
  ++ rev (tens_fives_king ++ tens_fives_queen ++ nines_fours_ace).

(** One card out of [l], if it is there. *)
Fixpoint take_out (c : Card) (l : list Card) : option (list Card) :=
  match l with
  | [] => None
  | x :: l' =>
      if Card_eqb c x then Some l'
      else match take_out c l' with
           | Some r => Some (x :: r)
           | None => None
           end
  end.

Fixpoint same_cards (l1 l2 : list Card) : bool :=
  match l1 with
  | [] => match l2 with [] => true | _ => false end
  | c :: l1' =>
      match take_out c l2 with
      | Some l2' => same_cards l1' l2'
      | None => false
      end
  end.

(** ** Notions used to state the properties of the ranker *)

(** Two secondary scores of the same Python type. *)
Definition same_kind (s s' : secondary) : Prop :=
  match s, s' with
  | SInt _, SInt _ => True
  | STuple _ _, STuple _ _ => True
  | _, _ => False
  end.

(** The two best hands by secondary score have the same secondary score. *)
Definition tie_on_score (shh : list PokerHand) : Prop :=
  exists s0 s1 rest,
    shh = s0 :: s1 :: rest /\ snd (score s0) = snd (score s1).

(** [i] is the first position, counted from 0, at which [p] and [q] differ. *)
Definition first_difference (p q : list Z) (i : nat) : Prop :=
  firstn i p = firstn i q /\
  exists x y, nth_error p i = Some x /\ nth_error q i = Some y /\ x <> y.

(** What [order_hands] needs in order not to raise: hands of one category
    carry the same type of secondary score, and the hands whose kickers are
    compared have kickers, as many each. *)
Definition comparable (hand_list : list PokerHand) : Prop :=
  (forall h h', In h hand_list -> In h' hand_list ->
                primary h = primary h' ->
                same_kind (snd (score h)) (snd (score h'))) /\
  (forall shh fh,
      sorted_high_hands hand_list = OK shh ->
      filtered_hands shh = Some fh ->
      exists n,
        Forall (fun h => exists ks, kickers h = Some ks /\ length ks = n) fh).

(** The poker hands of a list of test hands, as [simple_tests] builds them. *)
Definition poker_hands_of (test_hand_cards : list (list Card))
  : list PokerHand :=
  flat_map (fun x => match HandOfCards_test x with
                     | OK hand => [poker_hand hand]
                     | Err _ => []
                     end) test_hand_cards.

(** "Ace high, king kicker" and "Ace high, jack kicker" of [simple_tests]. *)
Definition ace_high_hands : list PokerHand :=
  poker_hands_of
    [[mkCard 1 "club"; mkCard 13 "heart"; mkCard 5 "diamond";
      mkCard 11 "spade"; mkCard 7 "heart"];
     [mkCard 1 "club"; mkCard 3 "heart"; mkCard 5 "diamond";
      mkCard 11 "spade"; mkCard 7 "heart"]].

(** ** Notions used to state the properties of the evaluator *)

(** A hand as the evaluator expects it: five different cards of the deck. *)
Definition valid_hand (cs : list Card) : Prop :=
  length cs = 5%nat /\ NoDup cs /\ Forall (fun c => In c new_deck_cards) cs.

(** A deck in use: what is left of a shuffle of the 52 cards after some
    cards were picked from its end. *)
Definition deck_in_use (deck : list Card) : Prop :=
  exists shuffled picked,
    Permutation shuffled new_deck_cards /\ shuffled = deck ++ picked.

Definition same_number (card c : Card) : bool := number card =? number c.

(** Some card of [pre] has the number of [c]. *)
Definition seen (pre : list Card) (c : Card) : bool :=
  existsb (same_number c) pre.

(** The rank-grouping pass as the specification describes it: the cards are
    grouped by number; each group stands for one candidate, named after the
    first card of the group in the hand. *)
Fixpoint first_of_rank (pre todo : list Card) : list Card :=
  match todo with
  | [] => []
  | c :: todo' =>
      if seen pre c then first_of_rank (pre ++ [c]) todo'
      else c :: first_of_rank (pre ++ [c]) todo'
  end.

(** The cards of the group of [card]: [card] first, the others after it in
    reverse order of the hand. *)
Definition group_cards (cards : list Card) (card : Card) : list Card :=
  match filter (same_number card) cards with
  | [] => []
  | first :: others => first :: rev others
  end.

(** The kickers of the group of [card]: the other cards, by decreasing
    number. *)
Definition group_kickers (cards : list Card) (card : Card) : list Card :=
  sorted_desc number Z.leb
    (filter (fun c => negb (same_number card c)) cards).

Definition group_hand (cards : list Card) (card : Card)
  : result (option PokerHand) :=
  same_number_hand card (group_cards cards card) (group_kickers cards card).

Definition rank_pass (cards : list Card) : result (list PokerHand) :=
  found <- mapM (group_hand cards) (first_of_rank [] cards) ;;
  OK (flat_map (fun cand => match cand with
                            | Some poker_hand => [poker_hand]
                            | None => []
                            end) found).

(** The kickers of a hand as a list, empty when there are none. *)
Definition kicker_list (h : PokerHand) : list Card :=
  match kickers h with
  | Some ks => ks
  | None => []
  end.

(** The invariant read as a partition: the hand cards and the kickers
    together list every card of the hand once. *)
Definition partition_invariant (cs : list Card) (h : PokerHand) : Prop :=
  Permutation (hand_cards h ++ kicker_list h) cs.

(** The invariant read on sets: the cards that are hand cards or kickers
    are the cards of the hand, and neither list repeats a card. *)
Definition union_invariant (cs : list Card) (h : PokerHand) : Prop :=
  NoDup (hand_cards h) /\ NoDup (kicker_list h) /\
  forall c, In c cs <-> In c (hand_cards h) \/ In c (kicker_list h).

(** "Flush, clubs" of [simple_tests]. *)
Definition flush_cards : list Card :=
  [mkCard 13 "club"; mkCard 12 "club"; mkCard 11 "club"; mkCard 7 "club";
   mkCard 4 "club"].

(** What the candidate of the group of [c] holds. *)
Definition rank_hand (cards : list Card) (c : Card) (ph : PokerHand) : Prop :=
  hand_cards ph = group_cards cards c /\
  kickers ph = Some (group_kickers cards c) /\
  sub_hands ph = None /\
  snd (score ph) = SInt (points c) /\
  In (primary ph, length (hand_cards ph))
     [(8, 4%nat); (4, 3%nat); (2, 2%nat); (1, 1%nat)].

(** The type of the secondary score goes with the category: a tuple for two
    pairs (3) and full house (7), an int for the others. *)
Definition kind_ok (h : PokerHand) : Prop :=
  match snd (score h) with
  | SInt _ => primary h <> 3 /\ primary h <> 7
  | STuple _ _ => primary h = 3 \/ primary h = 7
  end.

(** The invariant as the code keeps it: the hand cards and the kickers of
    a hand list every card once, except for a flush, whose kickers are its
    hand cards, all five. *)
Definition covers (cs : list Card) (h : PokerHand) : Prop :=
  partition_invariant cs h \/
  (primary h = 6 /\ kickers h = Some (hand_cards h) /\
   Permutation (hand_cards h) cs).

(** The categories of the hands of [l] are among [ps]. *)
Definition primaries_in (ps : list Z) (l : list PokerHand) : Prop :=
  forall h, In h l -> In (primary h) ps.

(** What the flush pass and the straight pass append: nothing or one hand
    of category [p] with an int for secondary score, made of all the
    cards. *)
Definition whole_hand_pass (cards : list Card) (p : Z)
    (l : list PokerHand) : Prop :=
  l = [] \/
  exists ph n,
    l = [ph] /\ score ph = (p, SInt n) /\ hand_cards ph = cards /\
    (kickers ph = None \/ (p = 6 /\ kickers ph = Some cards)).

(** What the combination pass appends: nothing or one hand of two pairs
    (3), full house (7) or straight flush (9). *)
Definition combination_pass (cards : list Card) (cb : list PokerHand)
  : Prop :=
  cb = [] \/
  exists ph,
    cb = [ph] /\ In (primary ph) [3; 7; 9] /\ kind_ok ph /\ covers cards ph.

(** No card twice in [l]. *)
Fixpoint distinct_cards (l : list Card) : bool :=
  match l with
  | [] => true
  | c :: l' => negb (existsb (Card_eqb c) l') && distinct_cards l'
  end.

(** Two straights from 4 to 8 that one deck can deal together. *)
Definition tied_straights : list PokerHand :=
  poker_hands_of
    [[mkCard 4 "club"; mkCard 5 "heart"; mkCard 6 "diamond";
      mkCard 7 "spade"; mkCard 8 "heart"];
     [mkCard 4 "diamond"; mkCard 5 "club"; mkCard 6 "spade";
      mkCard 7 "heart"; mkCard 8 "club"]].

(** Two hands with a pair of 10s and one with a pair of 9s and an ace. *)
Definition pairs_of_tens_and_nines : list PokerHand :=
  poker_hands_of
    [[mkCard 10 "spade"; mkCard 10 "heart"; mkCard 5 "spade";
      mkCard 4 "heart"; mkCard 13 "spade"];
     [mkCard 10 "diamond"; mkCard 10 "club"; mkCard 5 "diamond";
      mkCard 4 "club"; mkCard 12 "spade"];
     [mkCard 9 "spade"; mkCard 9 "heart"; mkCard 3 "spade";
      mkCard 2 "heart"; mkCard 1 "spade"]].

(** A pair of 3s with an ace, a 7 and a 5. *)
Definition pair_of_threes_cards : list Card :=
  [mkCard 3 "club"; mkCard 3 "heart"; mkCard 5 "diamond"; mkCard 1 "spade";
   mkCard 7 "heart"].


(** ** Notions used to state further properties *)

(** Each number of the list is one less than the one before it. *)
Fixpoint counts_down (l : list Z) : bool :=
  match l with
  | x :: (y :: _) as rest => (y =? x - 1) && counts_down rest
  | _ => true
  end.


(** ** The categories of poker, as a player reads them off the cards *)

(** How many cards of [cs] have the number of [c]. *)
Definition rank_count (cs : list Card) (c : Card) : nat :=
  length (filter (same_number c) cs).

(** How many cards of [cs] have a number that [n] cards of [cs] have. *)
Definition cards_of_a_kind (cs : list Card) (n : nat) : nat :=
  length (filter (fun c => Nat.eqb (rank_count cs c) n) cs).

(** Some number is held by [n] cards of [cs]. *)
Definition of_a_kind (cs : list Card) (n : nat) : bool :=
  Nat.ltb 0 (cards_of_a_kind cs n).

(** Four cards of [cs] have a partner: two pairs. *)
Definition is_two_pairs (cs : list Card) : bool :=
  Nat.eqb (cards_of_a_kind cs 2) 4.

(** Every card has the suit of the first one. *)
Definition is_flush (cs : list Card) : bool :=
  match cs with
  | [] => false
  | c0 :: _ => forallb (fun c => String.eqb (suit c) (suit c0)) cs
  end.

(** The cards count down one by one, the ace as 14 or as 1. *)
Definition is_straight (cs : list Card) : bool :=
  counts_down (sorted_desc (fun n => n) Z.leb (map points cs)) ||
  counts_down (sorted_desc (fun n => n) Z.leb (map number cs)).

(** The category of five cards by the rules of poker: 9 straight flush,
    8 four of a kind, 7 full house, 6 flush, 5 straight, 4 three of a
    kind, 3 two pairs, 2 pair, 1 high card. *)
Definition category (cs : list Card) : Z :=
  if is_flush cs && is_straight cs then 9
  else if of_a_kind cs 4 then 8
  else if of_a_kind cs 3 && of_a_kind cs 2 then 7
  else if is_flush cs then 6
  else if is_straight cs then 5
  else if of_a_kind cs 3 then 4
  else if is_two_pairs cs then 3
  else if of_a_kind cs 2 then 2
  else 1.


(** How many groups of [n] cards of one number the rank pass finds. *)
Definition groups_of_size (cs : list Card) (n : nat) : nat :=
  length (filter (fun c => Nat.eqb (rank_count cs c) n)
                 (first_of_rank [] cs)).


(** ** str_hand_comparison

    The formatter calls three methods of the engine of the [inflect]
    library, [p = inflect.engine()].  The library is not part of the
    program: the engine is a parameter of the model, and the properties hold
    for any engine whose methods return. *)
Record inflect_engine : Type := mkInflect {
  ordinal : Z -> string;
  number_to_words : string -> string;
  join : list string -> string
}.

(** The newline of the f-strings. *)
Definition nl : string := String "010"%char EmptyString.

Definition delimiter : string := nl +++ "-<>-<>-<>-<>-<>-<>-<>-<>-".

(** [PokerHand.__str__] *)
Definition PokerHand_str (h : PokerHand) : string := description h.

(** [kicker_points.pop(kicker_points.index(x))], run when [x] is in
    [kicker_points]: the first occurrence goes. *)
Fixpoint remove_first (x : Z) (kicker_points : list Z) : list Z :=
  match kicker_points with
  | [] => []
  | y :: rest => if y =? x then rest else y :: remove_first x rest
  end.

(** The kicker points of [poker_hand] that are left when the points of the
    kickers of [best_hand] have been taken out, one for one.  Iterating over
    kickers that are [None] raises. *)
Definition unmatched_kicker_points (poker_hand best_hand : PokerHand)
  : result (list Z) :=
  match kickers poker_hand with
  | None => Err TypeError
  | Some ks =>
      match kickers best_hand with
      | None => Err TypeError
      | Some best_kickers =>
          OK (fold_left
                (fun kicker_points best_kicker =>
                   remove_first (points best_kicker) kicker_points)
                best_kickers (map points ks))
      end
  end.

(** The loop that looks for the index of the one winner. *)
Fixpoint one_winner_loop (best_hand : PokerHand) (kicker_det : Z)
    (poker_hands : list PokerHand) (hand_index : nat)
    (best_index : option nat) : result (option nat) :=
  match poker_hands with
  | [] => OK best_index
  | poker_hand :: rest =>
      if String.eqb (description poker_hand) (description best_hand) then
        if -1 <? kicker_det then
          kicker_points <- unmatched_kicker_points poker_hand best_hand ;;
          one_winner_loop best_hand kicker_det rest (S hand_index)
            (if Nat.eqb (length kicker_points) 0 then Some hand_index
             else best_index)
        else
          one_winner_loop best_hand kicker_det rest (S hand_index)
                          (Some hand_index)
      else one_winner_loop best_hand kicker_det rest (S hand_index)
                           best_index
  end.

(** The loop that collects the indices of the hands of a draw. *)
Fixpoint draw_loop (best_hand : PokerHand) (poker_hands : list PokerHand)
    (hand_index : nat) (best_indices : list nat) : result (list nat) :=
  match poker_hands with
  | [] => OK best_indices
  | poker_hand :: rest =>
      if String.eqb (description poker_hand) (description best_hand) then
        kicker_points <- unmatched_kicker_points poker_hand best_hand ;;
        draw_loop best_hand rest (S hand_index)
          (if Nat.eqb (length kicker_points) 0
           then best_indices ++ [hand_index]
           else best_indices)
      else draw_loop best_hand rest (S hand_index) best_indices
  end.

(** The loop that collects the hands described as the winner is, when
    kickers decided. *)
Fixpoint same_description_loop (best_hand : PokerHand)
    (poker_hands : list PokerHand) (hand_index : nat)
    (best_indices : list nat) : list nat :=
  match poker_hands with
  | [] => best_indices
  | poker_hand :: rest =>
      if String.eqb (description poker_hand) (description best_hand)
      then same_description_loop best_hand rest (S hand_index)
                                 (best_indices ++ [hand_index])
      else same_description_loop best_hand rest (S hand_index) best_indices
  end.

(** The first part of [str_hand_comparison]: the index of the winner, the
    indices of the hands that are marked, and the statement of the win.
    With no index found, [best_index+1] raises. *)
Definition winning_hands (p : inflect_engine)
    (poker_hands : list PokerHand) (best_hand : PokerHand) (kicker_det : Z)
  : result (option nat * list nat * string) :=
  '(best_index, best_indices, win_statement) <-
    (if negb (kicker_det =? -1) then
       best_index <- one_winner_loop best_hand kicker_det poker_hands 0
                                     None ;;
       match best_index with
       | None => Err TypeError
       | Some i =>
           OK (Some i, [],
               "The " +++ number_to_words p (ordinal p (Z.of_nat i + 1))
               +++ " hand wins with " +++ PokerHand_str best_hand +++ ".")
       end
     else
       best_indices <- draw_loop best_hand poker_hands 0 [] ;;
       if Nat.ltb (length best_indices) 2 then Err ValueError
       else
         let readable_indices :=
           map (fun index => ordinal p (Z.of_nat index + 1)) best_indices in
         let draw_str := join p readable_indices in
         OK (None, best_indices,
             "Draw between the " +++ draw_str +++ " hand ("
             +++ PokerHand_str best_hand +++ ")")) ;;
  if -1 <? kicker_det then
    let best_indices :=
      same_description_loop best_hand poker_hands 0 best_indices in
    if Nat.ltb (length best_indices) 2 then Err ValueError
    else OK (best_index, best_indices, win_statement)
  else OK (best_index, best_indices, win_statement).

(** [s in str_printed_cards] *)
Definition printed (s : string) (str_printed_cards : list string) : bool :=
  existsb (String.eqb s) str_printed_cards.

(** The loop over the hand cards of one hand; [marked] is
    [hand_index in best_indices].  Slicing kickers that are [None]
    raises. *)
Fixpoint hand_cards_loop (marked : bool) (kicker_det : Z)
    (poker_hand : PokerHand) (cards_left : list Card)
    (poker_hand_str : string) (str_printed_cards : list string)
  : result (string * list string) :=
  match cards_left with
  | [] => OK (poker_hand_str, str_printed_cards)
  | hand_card :: rest =>
      kicker_str <-
        (if marked && (-1 <? kicker_det) then
           match kickers poker_hand with
           | None => Err TypeError
           | Some ks =>
               OK (if printed (Card_str hand_card)
                        (map Card_str (firstn (Z.to_nat kicker_det) ks))
                   then " (kicker)" else "")
           end
         else OK "") ;;
      hand_cards_loop marked kicker_det poker_hand rest
        (poker_hand_str +++ nl +++ " - " +++ Card_str hand_card
         +++ kicker_str)
        (str_printed_cards ++ [Card_str hand_card])
  end.

(** The loop over the kickers that count. *)
Fixpoint kickers_loop (kickers_left : list Card) (poker_hand_str : string)
    (str_printed_cards : list string) : string * list string :=
  match kickers_left with
  | [] => (poker_hand_str, str_printed_cards)
  | kicker :: rest =>
      if negb (printed (Card_str kicker) str_printed_cards)
      then kickers_loop rest
             (poker_hand_str +++ nl +++ " - " +++ Card_str kicker
              +++ " (kicker)")
             (str_printed_cards ++ [Card_str kicker])
      else kickers_loop rest poker_hand_str str_printed_cards
  end.

(** The loop over the cards that do not contribute. *)
Fixpoint other_cards_loop (kickers_left : list Card)
    (poker_hand_str : string) (str_printed_cards : list string) : string :=
  match kickers_left with
  | [] => poker_hand_str
  | kicker :: rest =>
      if negb (printed (Card_str kicker) str_printed_cards)
      then other_cards_loop rest
             (poker_hand_str +++ nl +++ "(- " +++ Card_str kicker +++ ")")
             str_printed_cards
      else other_cards_loop rest poker_hand_str str_printed_cards
  end.

(** The body of the loop that prints the hands.  It reads and writes
    [kicker_det]: in a draw the first marked hand replaces -1 by the number
    of its kickers plus one, for the hands after it as well.  The test
    [kicker_det is -1] holds exactly when the value is -1, CPython keeping
    one object for each small int. *)
Definition hand_block (p : inflect_engine) (best_index : option nat)
    (best_indices : list nat) (hand_index : nat) (poker_hand : PokerHand)
    (kicker_det : Z) (poker_hand_str : string) : result (Z * string) :=
  let marked := existsb (Nat.eqb hand_index) best_indices in
  let poker_hand_str := poker_hand_str +++ delimiter in
  let poker_hand_str :=
    poker_hand_str +++ nl +++ ordinal p (Z.of_nat hand_index + 1)
    +++ " hand: " +++ PokerHand_str poker_hand in
  let poker_hand_str :=
    if match best_index with
       | Some i => Nat.eqb hand_index i
       | None => false
       end
    then poker_hand_str +++ nl +++ "Winning hand"
    else if marked && (kicker_det =? -1)
         then poker_hand_str +++ nl +++ "Hand included in the winning draw"
         else poker_hand_str in
  let poker_hand_str :=
    poker_hand_str +++ nl +++ "The hand includes the following cards:" in
  '(poker_hand_str, str_printed_cards) <-
    hand_cards_loop marked kicker_det poker_hand (hand_cards poker_hand)
                    poker_hand_str [] ;;
  '(kicker_det, poker_hand_str, str_printed_cards) <-
    (if marked && (-2 <? kicker_det) then
       match kickers poker_hand with
       | None => Err TypeError
       | Some ks =>
           let kicker_det :=
             if kicker_det =? -1 then Z.of_nat (length ks) + 1
             else kicker_det in
           let '(poker_hand_str, str_printed_cards) :=
             kickers_loop (firstn (Z.to_nat kicker_det) ks) poker_hand_str
                          str_printed_cards in
           OK (kicker_det, poker_hand_str, str_printed_cards)
       end
     else OK (kicker_det, poker_hand_str, str_printed_cards)) ;;
  let poker_hand_str :=
    match kickers poker_hand with
    | Some ks => other_cards_loop ks poker_hand_str str_printed_cards
    | None => poker_hand_str
    end in
  OK (kicker_det, poker_hand_str).

Fixpoint hands_loop (p : inflect_engine) (best_index : option nat)
    (best_indices : list nat) (poker_hands : list PokerHand)
    (hand_index : nat) (kicker_det : Z) (poker_hand_str : string)
  : result (Z * string) :=
  match poker_hands with
  | [] => OK (kicker_det, poker_hand_str)
  | poker_hand :: rest =>
      '(kicker_det, poker_hand_str) <-
        hand_block p best_index best_indices hand_index poker_hand
                   kicker_det poker_hand_str ;;
      hands_loop p best_index best_indices rest (S hand_index) kicker_det
                 poker_hand_str
  end.

Definition str_hand_comparison (p : inflect_engine)
    (poker_hands : list PokerHand) : result string :=
  '(best_hand, kicker_det) <- order_hands poker_hands ;;
  '(best_index, best_indices, win_statement) <-
    winning_hands p poker_hands best_hand kicker_det ;;
  '(_, poker_hand_str) <-
    hands_loop p best_index best_indices poker_hands 0 kicker_det "" ;;
  let print_string :=
    delimiter +++ nl +++ win_statement +++ poker_hand_str +++ delimiter in
  OK print_string.

(** *** The report of a win that kickers did not decide *)

(** What is printed for one hand: its rank and name, the mark of the
    winner, its hand cards, and in brackets the kickers that are not hand
    cards. *)
Definition plain_block (p : inflect_engine) (best_index hand_index : nat)
    (h : PokerHand) : string :=
  delimiter +++ nl +++ ordinal p (Z.of_nat hand_index + 1) +++ " hand: "
  +++ description h
  +++ (if Nat.eqb hand_index best_index then nl +++ "Winning hand" else "")
  +++ nl +++ "The hand includes the following cards:"
  +++ fold_right String.append ""
        (map (fun c => nl +++ " - " +++ Card_str c) (hand_cards h))
  +++ fold_right String.append ""
        (map (fun k => nl +++ "(- " +++ Card_str k +++ ")")
             (filter (fun k => negb (printed_in k (hand_cards h)))
                     (kicker_list h))).

Fixpoint plain_blocks (p : inflect_engine) (best_index hand_index : nat)
    (hands : list PokerHand) : string :=
  match hands with
  | [] => ""
  | h :: rest =>
      plain_block p best_index hand_index h
      +++ plain_blocks p best_index (S hand_index) rest
  end.

(** Two flushes of clubs that one deck can deal, the higher one first. *)
Definition club_flushes : list PokerHand :=
  poker_hands_of
    [[mkCard 1 "club"; mkCard 9 "club"; mkCard 8 "club"; mkCard 6 "club";
      mkCard 5 "club"];
     [mkCard 13 "club"; mkCard 12 "club"; mkCard 11 "club";
      mkCard 7 "club"; mkCard 4 "club"]].

(** Two flushes with an ace that one deck can deal, of clubs and of hearts;
    the fifth card decides. *)
Definition ace_flushes : list PokerHand :=
  poker_hands_of
    [[mkCard 1 "club"; mkCard 13 "club"; mkCard 12 "club";
      mkCard 11 "club"; mkCard 9 "club"];
     [mkCard 1 "heart"; mkCard 13 "heart"; mkCard 12 "heart";
      mkCard 11 "heart"; mkCard 8 "heart"]].


(** An engine that prints the numbers as they are, to run the formatter
    with. *)
Definition plain_engine : inflect_engine :=
  mkInflect str_int (fun s => s) (String.concat ", ").


(** *** The report when kickers were compared *)

(** The hand is described as the best hand is: what marks a hand when
    kickers decided. *)
Definition described_as (best h : PokerHand) : bool :=
  String.eqb (description h) (description best).

(** The hand is described as the best hand is and each of its kickers has
    the points of a kicker of its own of the best hand: what marks a hand in
    a draw. *)
Definition tied_with (best h : PokerHand) : bool :=
  described_as best h &&
  match unmatched_kicker_points h best with
  | OK [] => true
  | _ => false
  end.

(** The positions, counted from [hand_index], of the marked hands. *)
Fixpoint indices_of (marked : PokerHand -> bool) (hands : list PokerHand)
    (hand_index : nat) : list nat :=
  match hands with
  | [] => []
  | h :: rest =>
      if marked h then hand_index :: indices_of marked rest (S hand_index)
      else indices_of marked rest (S hand_index)
  end.

(** A marked hand can be printed when it has kickers, no two of them
    printed alike. *)
Definition printable (marked : PokerHand -> bool) (hands : list PokerHand)
  : Prop :=
  Forall (fun h => marked h = true ->
                   exists ks, kickers h = Some ks /\
                              NoDup (map Card_str ks)) hands.

Definition winner_mark (best_index : option nat) (hand_index : nat)
  : bool :=
  match best_index with
  | Some i => Nat.eqb hand_index i
  | None => false
  end.

(** What is printed for a hand that is not marked: as when kickers were
    not compared. *)
Definition unmarked_block (p : inflect_engine) (best_index : option nat)
    (hand_index : nat) (h : PokerHand) : string :=
  delimiter +++ nl +++ ordinal p (Z.of_nat hand_index + 1) +++ " hand: "
  +++ description h
  +++ (if winner_mark best_index hand_index then nl +++ "Winning hand"
       else "")
  +++ nl +++ "The hand includes the following cards:"
  +++ fold_right String.append ""
        (map (fun c => nl +++ " - " +++ Card_str c) (hand_cards h))
  +++ fold_right String.append ""
        (map (fun k => nl +++ "(- " +++ Card_str k +++ ")")
             (filter (fun k => negb (printed_in k (hand_cards h)))
                     (kicker_list h))).

(** What is printed for a marked hand when the kicker index is [k] on
    entry, -1 for a draw not yet printed: the kickers that count are the
    first [k], all of them in the draw; hand cards among them are tagged,
    unless this is the first hand of a draw, which alone gets the line of
    the draw; the other kickers that count follow, tagged; the rest comes
    in brackets. *)
Definition marked_block (p : inflect_engine) (best_index : option nat)
    (hand_index : nat) (h : PokerHand) (k : Z) : string :=
  let ks := kicker_list h in
  let counted :=
    firstn (Z.to_nat (if k =? -1 then Z.of_nat (length ks) + 1 else k))
           ks in
  delimiter +++ nl +++ ordinal p (Z.of_nat hand_index + 1) +++ " hand: "
  +++ description h
  +++ (if winner_mark best_index hand_index then nl +++ "Winning hand"
       else if k =? -1 then nl +++ "Hand included in the winning draw"
            else "")
  +++ nl +++ "The hand includes the following cards:"
  +++ fold_right String.append ""
        (map (fun c =>
                nl +++ " - " +++ Card_str c
                +++ (if (-1 <? k) && printed_in c (firstn (Z.to_nat k) ks)
                     then " (kicker)" else ""))
             (hand_cards h))
  +++ fold_right String.append ""
        (map (fun c => nl +++ " - " +++ Card_str c +++ " (kicker)")
             (filter (fun c => negb (printed_in c (hand_cards h)))
                     counted))
  +++ fold_right String.append ""
        (map (fun c => nl +++ "(- " +++ Card_str c +++ ")")
             (filter (fun c => negb (printed_in c (hand_cards h))
                               && negb (printed_in c counted)) ks)).

(** The hands printed with a kicker index that is not -1. *)
Fixpoint kicker_blocks (p : inflect_engine) (marked : PokerHand -> bool)
    (best_index : option nat) (k : Z) (hand_index : nat)
    (hands : list PokerHand) : string :=
  match hands with
  | [] => ""
  | h :: rest =>
      (if marked h then marked_block p best_index hand_index h k
       else unmarked_block p best_index hand_index h)
      +++ kicker_blocks p marked best_index k (S hand_index) rest
  end.

(** The hands printed for a draw: the first marked hand is printed as a
    hand of the draw, the hands after it as if its last kicker had
    decided. *)
Fixpoint draw_blocks (p : inflect_engine) (marked : PokerHand -> bool)
    (hand_index : nat) (hands : list PokerHand) : string :=
  match hands with
  | [] => ""
  | h :: rest =>
      if marked h
      then marked_block p None hand_index h (-1)
           +++ kicker_blocks p marked None
                 (Z.of_nat (length (kicker_list h)) + 1) (S hand_index) rest
      else unmarked_block p None hand_index h
           +++ draw_blocks p marked (S hand_index) rest
  end.

(** "Ace high, jack kicker" twice, as in [simple_tests]. *)
Definition ace_high_twice : list PokerHand :=
  poker_hands_of
    [[mkCard 1 "club"; mkCard 3 "heart"; mkCard 5 "diamond";
      mkCard 11 "spade"; mkCard 7 "heart"];
     [mkCard 1 "club"; mkCard 3 "heart"; mkCard 5 "diamond";
      mkCard 11 "spade"; mkCard 7 "heart"]].


(** No string twice in [l]. *)
Fixpoint distinct_strings (l : list string) : bool :=
  match l with
  | [] => true
  | s :: rest => negb (printed s rest) && distinct_strings rest
  end.

(** [printable], as a test. *)
Definition printableb (marked : PokerHand -> bool)
    (hands : list PokerHand) : bool :=
  forallb (fun h =>
             negb (marked h) ||
             match kickers h with
             | Some ks => distinct_strings (map Card_str ks)
             | None => false
             end) hands.


(** The points of the highest card. *)
Definition top_points (cs : list Card) : Z :=
  hd 0 (sorted_desc (fun n => n) Z.leb (map points cs)).

(** The points that name a straight: those of its highest card, the 5 when
    the ace opens it. *)
Definition straight_points (cs : list Card) : Z :=
  if counts_down (sorted_desc (fun n => n) Z.leb (map points cs))
  then top_points cs else 5.

(** The secondary score that goes with the category [p] of the cards [cs]:
    the points of the highest card for a high card and a flush, those that
    name the straight for a straight and a straight flush, the points of
    the cards of the group for a pair, three and four of a kind, and a pair
    of points for a full house (the three first) and for two pairs (the
    higher pair first). *)
Definition score_of (cs : list Card) (p : Z) (s : secondary) : Prop :=
  ((p = 1 \/ p = 6) /\ s = SInt (top_points cs)) \/
  ((p = 5 \/ p = 9) /\ s = SInt (straight_points cs)) \/
  (exists c,
      In c cs /\ In (p, rank_count cs c) [(8, 4%nat); (4, 3%nat); (2, 2%nat)]
      /\ s = SInt (points c)) \/
  (p = 7 /\
   exists c c',
     In c cs /\ In c' cs /\ rank_count cs c = 3%nat /\
     rank_count cs c' = 2%nat /\ s = STuple (points c) (points c')) \/
  (p = 3 /\
   exists c c',
     In c cs /\ In c' cs /\ rank_count cs c = 2%nat /\
     rank_count cs c' = 2%nat /\ points c' < points c /\
     s = STuple (points c) (points c')).


(** The description that goes with a score; a flush is named after its suit
    [suit0], not after its cards. *)
Definition describe (suit0 : string) (sc : Z * secondary) : string :=
  match sc with
  | (p, SInt n) =>
      if p =? 1 then num_conv n false +++ " high"
      else if p =? 2 then "Pair, " +++ num_conv n true
      else if p =? 4 then "Three of a kind, " +++ num_conv n true
      else if p =? 8 then "Four of a kind, " +++ num_conv n true
      else if p =? 6 then "Flush, " +++ suit0 +++ "s"
      else if p =? 5 then
        if n =? 5 then "Straight, 1 to 5"
        else "Straight, " +++ num_conv (n - 4) false +++ " to "
             +++ num_conv n false
      else
        if n =? 14 then "Royal Flush"
        else if n =? 5 then "Straight Flush, 1 to 5"
        else "Straight Flush, " +++ num_conv (n - 4) false +++ " to "
             +++ num_conv n false
  | (p, STuple a b) =>
      if p =? 3
      then "Two pairs, " +++ num_conv a true +++ " and " +++ num_conv b true
      else "Full house, " +++ num_conv a true +++ " and "
           +++ num_conv b true
  end.

(** The suit of the first card. *)
Definition first_suit (cs : list Card) : string :=
  match cs with
  | c :: _ => suit c
  | [] => ""
  end.


(** The kickers that go with a category: four for a high card, three for a
    pair, one for two pairs, two for three of a kind, five for a flush, one
    for four of a kind; none, that is [None], for a straight, a full house
    and a straight flush. *)
Definition kickers_by_category (h : PokerHand) : Prop :=
  match kickers h with
  | Some ks =>
      In (primary h, length ks)
         [(1, 4%nat); (2, 3%nat); (3, 1%nat); (4, 2%nat); (6, 5%nat);
          (8, 1%nat)]
  | None => In (primary h) [5; 7; 9]
  end.

(** The hand is one that the evaluator finds for five different cards of
    the deck. *)
Definition evaluated (h : PokerHand) : Prop :=
  exists cs hand,
    valid_hand cs /\ HandOfCards_test cs = OK hand /\ poker_hand hand = h.


(** * Properties *)

(** ** The stable descending sort *)

Section SortingFacts.
Context {A K : Type} (key : A -> K) (leb : K -> K -> bool).

Lemma insert_desc_perm (x : A) (l : list A) :
  Permutation (insert_desc key leb x l) (x :: l).
Proof.
  induction l as [| y l IH]; simpl.
  - apply Permutation_refl.
  - destruct (leb (key y) (key x)).
    + apply Permutation_refl.
    + eapply perm_trans; [apply perm_skip, IH | apply perm_swap].
Qed.

Lemma sorted_desc_perm (l : list A) :
  Permutation (sorted_desc key leb l) l.
Proof.
  induction l as [| x l IH]; simpl.
  - apply perm_nil.
  - eapply perm_trans; [apply insert_desc_perm | now apply perm_skip].
Qed.

Lemma sorted_desc_in (l : list A) (x : A) :
  In x (sorted_desc key leb l) <-> In x l.
Proof.
  split; apply Permutation_in;
    [| apply Permutation_sym]; apply sorted_desc_perm.
Qed.

Lemma sorted_desc_length (l : list A) :
  length (sorted_desc key leb l) = length l.
Proof. apply Permutation_length, sorted_desc_perm. Qed.

Lemma sorted_desc_fixed (l : list A) :
  StronglySorted (desc key leb) l -> sorted_desc key leb l = l.
Proof.
  induction 1 as [| x l Hs IH Hall]; simpl.
  - reflexivity.
  - rewrite IH. destruct l as [| y l']; simpl.
    + reflexivity.
    + inversion Hall as [| ? ? Hy _]; subst.
      unfold desc in Hy. now rewrite Hy.
Qed.

Hypothesis leb_total : forall a b, leb a b = true \/ leb b a = true.
Hypothesis leb_trans :
  forall a b c, leb a b = true -> leb b c = true -> leb a c = true.

Lemma insert_desc_sorted (x : A) (l : list A) :
  StronglySorted (desc key leb) l ->
  StronglySorted (desc key leb) (insert_desc key leb x l).
Proof.
  induction 1 as [| y l Hs IH Hall]; simpl.
  - constructor; constructor.
  - destruct (leb (key y) (key x)) eqn:E.
    + constructor.
      * now constructor.
      * constructor; [exact E |].
        eapply Forall_impl; [| exact Hall].
        intros z Hz. unfold desc in *. eauto.
    + constructor; [exact IH |].
      apply Forall_forall. intros z Hz.
      apply (Permutation_in _ (insert_desc_perm x l)) in Hz.
      destruct Hz as [<- | Hz].
      * unfold desc. destruct (leb_total (key y) (key x)); congruence.
      * rewrite Forall_forall in Hall. now apply Hall.
Qed.

Lemma sorted_desc_sorted (l : list A) :
  StronglySorted (desc key leb) (sorted_desc key leb l).
Proof.
  induction l; simpl; [constructor | now apply insert_desc_sorted].
Qed.

(** Sorting is idempotent: a list that was sorted in place is left as it
    is by a second sort. *)
Lemma sorted_desc_idem (l : list A) :
  sorted_desc key leb (sorted_desc key leb l) = sorted_desc key leb l.
Proof. apply sorted_desc_fixed, sorted_desc_sorted. Qed.

Hypothesis leb_antisym :
  forall a b, leb a b = true -> leb b a = true -> a = b.

(** With keys that are all different the sorted list depends on the
    elements only, not on their order. *)
Lemma sorted_unique (l1 : list A) :
  forall l2,
    StronglySorted (desc key leb) l1 -> StronglySorted (desc key leb) l2 ->
    Permutation l1 l2 -> NoDup (map key l1) -> l1 = l2.
Proof.
  induction l1 as [| h1 t1 IH]; intros l2 S1 S2 P N.
  - apply Permutation_nil in P. now subst.
  - destruct l2 as [| h2 t2].
    + apply Permutation_sym, Permutation_nil in P. discriminate.
    + inversion S1 as [| ? ? S1' A1]; inversion S2 as [| ? ? S2' A2]; subst.
      inversion N as [| ? ? Nh Nt]; subst.
      assert (I1 : In h1 (h2 :: t2))
        by (eapply Permutation_in; [exact P | now left]).
      assert (I2 : In h2 (h1 :: t1))
        by (eapply Permutation_in;
            [apply Permutation_sym; exact P | now left]).
      assert (E : h1 = h2).
      { destruct I1 as [-> | I1]; [reflexivity |].
        destruct I2 as [-> | I2]; [reflexivity |].
        exfalso. apply Nh.
        rewrite Forall_forall in A1, A2.
        specialize (A1 _ I2). specialize (A2 _ I1). unfold desc in *.
        rewrite (leb_antisym _ _ A2 A1).
        now apply in_map. }
      subst h2. f_equal.
      apply IH; auto. eapply Permutation_cons_inv; exact P.
Qed.

Lemma sorted_desc_perm_eq (l1 l2 : list A) :
  Permutation l1 l2 -> NoDup (map key l1) ->
  sorted_desc key leb l1 = sorted_desc key leb l2.
Proof.
  intros P N. apply sorted_unique; try apply sorted_desc_sorted.
  - eapply perm_trans; [apply sorted_desc_perm |].
    eapply perm_trans; [exact P |].
    apply Permutation_sym, sorted_desc_perm.
  - eapply Permutation_NoDup; [| exact N].
    apply Permutation_map, Permutation_sym, sorted_desc_perm.
Qed.
End SortingFacts.

Lemma Zleb_total (a b : Z) : (a <=? b) = true \/ (b <=? a) = true.
Proof. rewrite !Z.leb_le. lia. Qed.

Lemma Zleb_trans (a b c : Z) :
  (a <=? b) = true -> (b <=? c) = true -> (a <=? c) = true.
Proof. rewrite !Z.leb_le. lia. Qed.

Lemma Zleb_antisym (a b : Z) :
  (a <=? b) = true -> (b <=? a) = true -> a = b.
Proof. rewrite !Z.leb_le. lia. Qed.

(** ** The deck *)

Lemma pop_last_snoc {A : Type} (l : list A) (x : A) :
  pop_last (l ++ [x]) = Some (x, l).
Proof.
  unfold pop_last. rewrite rev_app_distr. simpl. now rewrite rev_involutive.
Qed.

Lemma pick_card_snoc (rest : list Card) (card : Card) :
  pick_card (rest ++ [card]) = OK (card, rest).
Proof.
  unfold pick_card. rewrite pop_last_snoc.
  destruct rest; reflexivity.
Qed.

Lemma pick_card_ok_iff (deck rest : list Card) (card : Card) :
  pick_card deck = OK (card, rest) <-> deck = rest ++ [card].
Proof.
  split.
  - induction deck as [| c d _] using rev_ind.
    + discriminate.
    + rewrite pick_card_snoc. congruence.
  - intros ->. apply pick_card_snoc.
Qed.

(** C8. [Deck.pick_card] raises [IndexError] exactly when the deck is empty;
    otherwise it returns the last card of the list, the top of the deck, and
    leaves the cards before it: one card fewer, the others unchanged. *)
Theorem pick_card_spec (deck : list Card) :
  ((exists e, pick_card deck = Err e) <-> deck = []) /\
  (pick_card deck = Err IndexError <-> deck = []) /\
  (forall card rest,
      pick_card deck = OK (card, rest) <-> deck = rest ++ [card]) /\
  (deck <> [] ->
   exists card rest,
     pick_card deck = OK (card, rest) /\ deck = rest ++ [card] /\
     S (length rest) = length deck).
Proof.
  assert (Hcase : deck = [] \/ exists rest card, deck = rest ++ [card]).
  { induction deck as [| card rest _] using rev_ind; eauto. }
  split; [| split; [| split]].
  - destruct Hcase as [-> | (rest & card & ->)].
    + split; [reflexivity | intros _; now exists IndexError].
    + rewrite pick_card_snoc. split; [intros [e H]; discriminate |].
      intros H. now destruct rest.
  - destruct Hcase as [-> | (rest & card & ->)].
    + split; reflexivity.
    + rewrite pick_card_snoc. split; [discriminate |].
      intros H. now destruct rest.
  - intros card rest. apply pick_card_ok_iff.
  - intros Hne. destruct Hcase as [-> | (rest & card & ->)]; [congruence |].
    exists card, rest. rewrite pick_card_snoc, length_app. simpl.
    repeat split. lia.
Qed.

Lemma pick_card_spec_witness :
  exists card rest,
    pick_card [mkCard 2 "heart"; mkCard 1 "spade"] = OK (card, rest) /\
    [mkCard 2 "heart"; mkCard 1 "spade"] = rest ++ [card] /\
    S (length rest) = length [mkCard 2 "heart"; mkCard 1 "spade"].
Proof.
  apply (pick_card_spec [mkCard 2 "heart"; mkCard 1 "spade"]).
  discriminate.
Defined.

(** ** The ranker *)

(** C10. A list of one hand is ranked without looking at kickers: the hand
    is returned with kicker index -2, whatever its [kickers] field holds,
    [None] included. *)
Theorem order_hands_single (h : PokerHand) :
  order_hands [h] = OK (h, -2).
Proof.
  unfold order_hands, sorted_high_hands, highest_hands, sorted_hands.
  simpl. rewrite Z.eqb_refl. simpl.
  unfold sorted_by, score1_pair, score1_int.
  destruct (snd (score h)) eqn:E; simpl; rewrite E; reflexivity.
Qed.

(** ** Concrete hands *)

Lemma royal_flush_points_nodup : NoDup (map points royal_flush_cards).
Proof.
  repeat constructor; simpl; intuition discriminate.
Qed.

(** C6. Ace, king, queen, jack and 10 of clubs, in whatever order they are
    given, evaluate to "Royal Flush" with score (9, 14), all five cards as
    hand cards (ace first) and no kickers. *)
Theorem royal_flush_clubs (test_cards : list Card) :
  Permutation test_cards royal_flush_cards ->
  exists hand,
    HandOfCards_test test_cards = OK hand /\
    cards hand = royal_flush_cards /\
    description (poker_hand hand) = "Royal Flush" /\
    score (poker_hand hand) = (9, SInt 14) /\
    hand_cards (poker_hand hand) = royal_flush_cards /\
    kickers (poker_hand hand) = None.
Proof.
  intros P. unfold HandOfCards_test.
  rewrite (sorted_desc_perm_eq points Z.leb Zleb_total Zleb_trans Zleb_antisym
             test_cards royal_flush_cards P).
  - vm_compute. eexists. repeat split.
  - eapply Permutation_NoDup; [| exact royal_flush_points_nodup].
    apply Permutation_map, Permutation_sym, P.
Qed.

Lemma royal_flush_clubs_witness :
  exists hand,
    HandOfCards_test royal_flush_cards = OK hand /\
    cards hand = royal_flush_cards /\
    description (poker_hand hand) = "Royal Flush" /\
    score (poker_hand hand) = (9, SInt 14) /\
    hand_cards (poker_hand hand) = royal_flush_cards /\
    kickers (poker_hand hand) = None.
Proof.
  apply (royal_flush_clubs royal_flush_cards). apply Permutation_refl.
Defined.

(** ** The ranker: the filter of the tied hands *)

Lemma filter_all {A : Type} (f : A -> bool) (l : list A) :
  (forall x, In x l -> f x = true) -> filter f l = l.
Proof.
  induction l as [| x l IH]; simpl; intros H; [reflexivity |].
  rewrite (H x) by now left. f_equal. apply IH. intros y Hy. apply H. now right.
Qed.

Lemma filter_none {A : Type} (f : A -> bool) (l : list A) :
  (forall x, In x l -> f x = false) -> filter f l = [].
Proof.
  induction l as [| x l IH]; simpl; intros H; [reflexivity |].
  rewrite (H x) by now left. apply IH. intros y Hy. apply H. now right.
Qed.

Lemma filter_twice {A : Type} (f g : A -> bool) (l : list A) :
  filter f (filter g l) = filter (fun x => g x && f x) l.
Proof.
  induction l as [| x l IH]; simpl; [reflexivity |].
  destruct (g x); simpl; [destruct (f x) |]; now rewrite IH.
Qed.

Lemma Card_eqb_eq (c c' : Card) : Card_eqb c c' = true <-> c = c'.
Proof.
  unfold Card_eqb. rewrite andb_true_iff, Z.eqb_eq, String.eqb_eq.
  destruct c, c'; simpl. split.
  - intros [-> ->]. reflexivity.
  - intros H. injection H. auto.
Qed.

Lemma take_out_perm (c : Card) (l r : list Card) :
  take_out c l = Some r -> Permutation l (c :: r).
Proof.
  revert r. induction l as [| x l IH]; simpl; intros r H.
  - discriminate.
  - destruct (Card_eqb c x) eqn:E.
    + apply Card_eqb_eq in E. injection H as <-. subst. apply Permutation_refl.
    + destruct (take_out c l) as [r' |]; [| discriminate].
      injection H as <-.
      eapply perm_trans; [apply perm_skip, IH; reflexivity | apply perm_swap].
Qed.

Lemma same_cards_perm (l1 l2 : list Card) :
  same_cards l1 l2 = true -> Permutation l1 l2.
Proof.
  revert l2. induction l1 as [| c l1 IH]; simpl; intros l2 H.
  - destruct l2; [apply perm_nil | discriminate].
  - destruct (take_out c l2) as [l2' |] eqn:E; [| discriminate].
    apply take_out_perm in E. apply IH in H.
    eapply perm_trans; [apply perm_skip, H | apply Permutation_sym, E].
Qed.

(** The filter of the tuple branch keeps every hand: whatever the two
    comparisons give, the tuple that holds them is true. *)
Lemma filtered_hands_tuple_keeps_all (s0 s1 : PokerHand)
    (rest : list PokerHand) (a b : Z) :
  snd (score s0) = STuple a b -> snd (score s1) = STuple a b ->
  filtered_hands (s0 :: s1 :: rest) = Some (s0 :: s1 :: rest).
Proof.
  intros E0 E1. unfold filtered_hands. rewrite E0, E1, !Z.eqb_refl.
  f_equal. apply filter_all. intros x _.
  destruct (snd (score x)); reflexivity.
Qed.

(** The filter of the int branch keeps the hands with the secondary score
    of the best hand, and only them. *)
Lemma filtered_hands_int_keeps_equal (s0 s1 : PokerHand)
    (rest fh : list PokerHand) (n : Z) :
  snd (score s0) = SInt n ->
  filtered_hands (s0 :: s1 :: rest) = Some fh ->
  forall x, In x fh <-> In x (s0 :: s1 :: rest) /\ snd (score x) = SInt n.
Proof.
  intros E0 H x. unfold filtered_hands in H. rewrite E0 in H.
  destruct (snd (score s1)) as [n1 |]; [| discriminate].
  destruct (n =? n1); [| discriminate].
  assert (Hfh : fh = filter (fun y => match snd (score y) with
                                      | SInt m => m =? n
                                      | STuple _ _ => false
                                      end) (s0 :: s1 :: rest))
    by congruence.
  clear H. subst fh. rewrite filter_In.
  split; intros [Hin Hx]; (split; [exact Hin |]).
  - destruct (snd (score x)); [| discriminate].
    apply Z.eqb_eq in Hx. now subst.
  - rewrite Hx. apply Z.eqb_refl.
Qed.

(** In the int branch a hand with a lower pair stays out of the kicker
    comparison, ace or not: the better of the two pairs of 10s wins. *)
Example order_hands_pairs_excludes_lower :
  exists h1 h2 h3,
    pairs_of_tens_and_nines = [h1; h2; h3] /\
    score h1 = (2, SInt 10) /\ score h2 = (2, SInt 10) /\
    score h3 = (2, SInt 9) /\
    filtered_hands [h1; h2; h3] = Some [h1; h2] /\
    order_hands [h1; h2; h3] = OK (h1, 1).
Proof. vm_compute. do 3 eexists. repeat split. Qed.

(** C3 (what the code does). The deck [stacked_deck] is a shuffle of the 52
    cards and deals two hands of two pairs, 10s and 5s, and one of two
    pairs, 9s and 4s.  The two best hands tie on the secondary score, and
    the filter in the tuple branch of [order_hands] keeps the third hand,
    whose secondary score is lower: its condition is a tuple, which is
    always true.  The third hand has the highest kicker, an ace, and is
    returned as the winner. *)
Theorem order_hands_tuple_filter_keeps_all :
  Permutation stacked_deck new_deck_cards /\
  exists h1 h2 h3 deck',
    get_list_of_poker_hands stacked_deck 3 5 = OK ([h1; h2; h3], deck') /\
    score h1 = (3, STuple 10 5) /\
    score h2 = (3, STuple 10 5) /\
    score h3 = (3, STuple 9 4) /\
    sorted_high_hands [h1; h2; h3] = OK [h1; h2; h3] /\
    filtered_hands [h1; h2; h3] = Some [h1; h2; h3] /\
    order_hands [h1; h2; h3] = OK (h3, 1).
Proof.
  split.
  - apply same_cards_perm. vm_compute. reflexivity.
  - vm_compute. do 4 eexists. repeat split.
Qed.

(** ** The ranker: sorting with keys that can raise *)

Section SortedBy.
Context {K : Type} (f : PokerHand -> result K) (leb : K -> K -> bool).

Let keyed_by (h : PokerHand) : result (K * PokerHand) :=
  k <- f h ;; OK (k, h).

Lemma mapM_keyed_inv (l : list PokerHand) (keyed : list (K * PokerHand)) :
  mapM keyed_by l = OK keyed ->
  map snd keyed = l /\ Forall (fun kh => f (snd kh) = OK (fst kh)) keyed.
Proof.
  revert keyed. induction l as [| h l IH]; simpl; intros keyed H.
  - injection H as <-. split; constructor.
  - unfold keyed_by at 1 in H. destruct (f h) as [k |] eqn:E; [| discriminate].
    simpl in H. destruct (mapM keyed_by l) as [ks |]; [| discriminate].
    simpl in H. injection H as <-.
    destruct (IH ks eq_refl) as [Hm Hf]. split.
    + simpl. now rewrite Hm.
    + constructor; [exact E | exact Hf].
Qed.

Lemma mapM_keyed_total (l : list PokerHand) :
  Forall (fun h => exists k, f h = OK k) l ->
  exists keyed, mapM keyed_by l = OK keyed.
Proof.
  induction 1 as [| h l [k Hk] _ [keyed IH]]; simpl.
  - now eexists.
  - unfold keyed_by at 1. rewrite Hk. simpl. rewrite IH. simpl. now eexists.
Qed.

Lemma sorted_by_total (l : list PokerHand) :
  Forall (fun h => exists k, f h = OK k) l ->
  exists l', sorted_by f leb l = OK l'.
Proof.
  intros H. destruct (mapM_keyed_total l H) as [keyed E].
  unfold sorted_by. fold keyed_by. rewrite E. simpl. now eexists.
Qed.

Lemma sorted_by_keys_ok (l l' : list PokerHand) :
  sorted_by f leb l = OK l' -> Forall (fun h => exists k, f h = OK k) l.
Proof.
  unfold sorted_by. fold keyed_by.
  destruct (mapM keyed_by l) as [keyed |] eqn:E; [| discriminate].
  intros _. apply mapM_keyed_inv in E. destruct E as [<- Hf].
  induction Hf as [| kh ks Hk _ IH]; simpl; constructor; eauto.
Qed.

Lemma sorted_by_perm (l l' : list PokerHand) :
  sorted_by f leb l = OK l' -> Permutation l' l.
Proof.
  unfold sorted_by. fold keyed_by.
  destruct (mapM keyed_by l) as [keyed |] eqn:E; [| discriminate].
  simpl. intros H. injection H as <-.
  apply mapM_keyed_inv in E. destruct E as [<- _].
  apply Permutation_map, sorted_desc_perm.
Qed.

Hypothesis leb_total : forall a b, leb a b = true \/ leb b a = true.
Hypothesis leb_trans :
  forall a b c, leb a b = true -> leb b c = true -> leb a c = true.

(** The two hands in front of the sorted list are in decreasing order of
    their keys. *)
Lemma sorted_by_top_two (l rest : list PokerHand) (h0 h1 : PokerHand) :
  sorted_by f leb l = OK (h0 :: h1 :: rest) ->
  exists k0 k1, f h0 = OK k0 /\ f h1 = OK k1 /\ leb k1 k0 = true.
Proof.
  unfold sorted_by. fold keyed_by.
  destruct (mapM keyed_by l) as [keyed |] eqn:E; [| discriminate].
  simpl. intros H. injection H as H.
  apply mapM_keyed_inv in E. destruct E as [_ Hf].
  assert (Hs := sorted_desc_sorted fst leb leb_total leb_trans keyed).
  assert (Hf' : Forall (fun kh => f (snd kh) = OK (fst kh))
                       (sorted_desc fst leb keyed)).
  { apply Forall_forall. intros kh Hin.
    apply (proj1 (Forall_forall _ _) Hf).
    apply (sorted_desc_in fst leb keyed kh). exact Hin. }
  destruct (sorted_desc fst leb keyed) as [| [k0 x0] [| [k1 x1] t]];
    try discriminate.
  simpl in H. injection H as -> -> _.
  inversion Hf' as [| ? ? F0 Hf'']; subst.
  inversion Hf'' as [| ? ? F1 _]; subst.
  inversion Hs as [| ? ? _ Hall]; subst.
  inversion Hall as [| ? ? D _]; subst.
  exists k0, k1. auto.
Qed.
End SortedBy.

(** ** The ranker: comparison of kicker tuples *)

Lemma tuple_leb_total (a b : list Z) :
  tuple_leb a b = true \/ tuple_leb b a = true.
Proof.
  revert b. induction a as [| x a IH]; intros [| y b]; simpl; auto.
  destruct (Z.ltb_spec x y), (Z.ltb_spec y x); auto; lia.
Qed.

Lemma tuple_leb_trans (a b c : list Z) :
  tuple_leb a b = true -> tuple_leb b c = true -> tuple_leb a c = true.
Proof.
  revert b c. induction a as [| x a IH]; intros [| y b] [| z c]; simpl;
    auto; try discriminate.
  destruct (Z.ltb_spec x y), (Z.ltb_spec y x), (Z.ltb_spec y z),
    (Z.ltb_spec z y), (Z.ltb_spec x z), (Z.ltb_spec z x);
    auto; try discriminate; try lia.
  apply IH.
Qed.

(** A tuple is not below one of its proper prefixes. *)
Lemma tuple_leb_prefix (p e : list Z) :
  tuple_leb (p ++ e) p = true -> e = [].
Proof.
  induction p as [| x p IH]; simpl.
  - destruct e; [reflexivity | discriminate].
  - rewrite Z.ltb_irrefl. exact IH.
Qed.

Lemma firstn_snoc_nth {A : Type} (l : list A) (i : nat) (x : A) :
  nth_error l i = Some x -> firstn (S i) l = firstn i l ++ [x].
Proof.
  revert i. induction l as [| y l IH]; intros [| i]; simpl; try discriminate.
  - intros H. injection H as ->. reflexivity.
  - intros H. f_equal. now apply IH.
Qed.

Lemma nth_error_app_here {A : Type} (l r : list A) (x : A) :
  nth_error (l ++ x :: r) (length l) = Some x.
Proof. induction l; simpl; auto. Qed.

Lemma firstn_app_here {A : Type} (l r : list A) :
  firstn (length l) (l ++ r) = l.
Proof. induction l; simpl; [now destruct r | now f_equal]. Qed.

Section KickerScan.
Variables (h1 : PokerHand) (k1 : list Card).
Hypothesis Hk1 : kickers h1 = Some k1.

(** The loop of [sort_by_high_cards], after the kickers [done] of the best
    hand were found equal in points to those of the second. *)
Lemma kicker_scan_result (rest : list Card) :
  forall (done : list Card) (k : Z),
    map points done = firstn (length done) (map points k1) ->
    kicker_scan rest (Some h1) (length done) = OK k ->
    (k = -1 /\
     map points (done ++ rest)
     = firstn (length (done ++ rest)) (map points k1)) \/
    (exists i, k = Z.of_nat i + 1 /\
               first_difference (map points (done ++ rest))
                                (map points k1) i).
Proof.
  induction rest as [| kicker rest IH]; intros done k Hd H; simpl in H.
  - injection H as <-. left. split; [reflexivity |].
    now rewrite app_nil_r.
  - rewrite Hk1 in H.
    destruct (nth_error k1 (length done)) as [c |] eqn:En; [| discriminate].
    destruct (points c =? points kicker) eqn:Ep; simpl in H.
    + apply Z.eqb_eq in Ep.
      specialize (IH (done ++ [kicker]) k).
      rewrite <- app_assoc in IH. simpl in IH. apply IH.
      * rewrite length_app, map_app. simpl. rewrite Nat.add_1_r.
        rewrite (firstn_snoc_nth _ _ (points c)).
        -- rewrite <- Hd, Ep. reflexivity.
        -- rewrite nth_error_map, En. reflexivity.
      * rewrite length_app. simpl. rewrite Nat.add_1_r. exact H.
    + apply Z.eqb_neq in Ep. injection H as <-. right.
      exists (length done). split; [reflexivity |]. split.
      * rewrite map_app, <- Hd.
        rewrite <- (length_map points done) at 1.
        apply firstn_app_here.
      * exists (points kicker), (points c). repeat split.
        -- rewrite map_app. simpl.
           rewrite <- (length_map points done). apply nth_error_app_here.
        -- rewrite nth_error_map, En. reflexivity.
        -- congruence.
Qed.

Lemma kicker_scan_total (rest : list Card) :
  forall i, (i + length rest <= length k1)%nat ->
            exists k, kicker_scan rest (Some h1) i = OK k.
Proof.
  induction rest as [| kicker rest IH]; intros i Hi; simpl.
  - now eexists.
  - rewrite Hk1. simpl in Hi.
    destruct (nth_error k1 i) as [c |] eqn:En.
    + destruct (negb (points c =? points kicker)); [now eexists |].
      apply IH. lia.
    + apply nth_error_None in En. lia.
Qed.
End KickerScan.

Lemma first_difference_irrefl (p : list Z) (i : nat) :
  ~ first_difference p p i.
Proof.
  intros (_ & x & y & Hx & Hy & Hne). congruence.
Qed.

Lemma first_difference_unique (p q : list Z) (i j : nat) :
  first_difference p q i -> first_difference p q j -> i = j.
Proof.
  intros (Hi & x & y & Hx & Hy & Hxy) (Hj & x' & y' & Hx' & Hy' & Hxy').
  destruct (Nat.lt_trichotomy i j) as [L | [E | L]]; [| exact E |]; exfalso.
  - apply Hxy.
    assert (nth_error (firstn j p) i = nth_error (firstn j q) i)
      by now rewrite Hj.
    rewrite !nth_error_firstn in H.
    destruct (Nat.ltb_spec i j); [congruence | lia].
  - apply Hxy'.
    assert (nth_error (firstn i p) j = nth_error (firstn i q) j)
      by now rewrite Hi.
    rewrite !nth_error_firstn in H.
    destruct (Nat.ltb_spec j i); [congruence | lia].
Qed.

(** ** The ranker: [order_hands] *)

Lemma filtered_hands_some (shh fh : list PokerHand) :
  filtered_hands shh = Some fh ->
  exists s0 s1 rest rest',
    shh = s0 :: s1 :: rest /\ snd (score s0) = snd (score s1) /\
    fh = s0 :: s1 :: rest'.
Proof.
  destruct shh as [| s0 [| s1 rest]]; try discriminate.
  unfold filtered_hands.
  destruct (snd (score s0)) as [n0 | a0 b0] eqn:E0,
           (snd (score s1)) as [n1 | a1 b1] eqn:E1; try discriminate.
  - destruct (n0 =? n1) eqn:En; [| discriminate].
    apply Z.eqb_eq in En. subst n1. intros H. injection H as <-.
    simpl. rewrite E0, E1, Z.eqb_refl.
    exists s0, s1, rest. eexists. repeat split. congruence.
  - destruct (a0 =? a1) eqn:Ea; [| discriminate].
    destruct (b0 =? b1) eqn:Eb; [| discriminate].
    apply Z.eqb_eq in Ea, Eb. subst. intros H. injection H as <-.
    simpl. rewrite E0, E1.
    exists s0, s1, rest. eexists. repeat split. congruence.
Qed.

Lemma filtered_hands_none (shh : list PokerHand) :
  filtered_hands shh = None -> ~ tie_on_score shh.
Proof.
  intros H (s0 & s1 & rest & -> & E). unfold filtered_hands in H.
  rewrite <- E in H. destruct (snd (score s0)).
  - now rewrite Z.eqb_refl in H.
  - now rewrite !Z.eqb_refl in H.
Qed.

Lemma highest_hands_spec (hand_list : list PokerHand) :
  hand_list <> [] ->
  exists top rest,
    highest_hands hand_list = top :: rest /\
    incl (highest_hands hand_list) hand_list /\
    Forall (fun h => primary h = primary top) (highest_hands hand_list).
Proof.
  intros Hne. unfold highest_hands, sorted_hands.
  assert (P := sorted_desc_perm primary Z.leb hand_list).
  destruct (sorted_desc primary Z.leb hand_list) as [| top l] eqn:E.
  - apply Permutation_nil in P. contradiction.
  - simpl. rewrite Z.eqb_refl. do 2 eexists. split; [reflexivity |]. split.
    + intros h [<- | Hin].
      * eapply Permutation_in; [exact P | now left].
      * apply filter_In in Hin.
        eapply Permutation_in; [exact P | now right].
    + constructor; [reflexivity |].
      apply Forall_forall. intros h Hin. apply filter_In in Hin.
      now apply Z.eqb_eq.
Qed.

Lemma sorted_high_hands_total (hand_list : list PokerHand) :
  hand_list <> [] ->
  (forall h h', In h hand_list -> In h' hand_list ->
                primary h = primary h' ->
                same_kind (snd (score h)) (snd (score h'))) ->
  exists s0 rest, sorted_high_hands hand_list = OK (s0 :: rest).
Proof.
  intros Hne Hkind.
  destruct (highest_hands_spec hand_list Hne) as (top & rest & E & Hin & Hp).
  unfold sorted_high_hands. rewrite E.
  assert (Htop : In top hand_list) by (apply Hin; rewrite E; now left).
  assert (Hk : forall h, In h (top :: rest) ->
                         same_kind (snd (score top)) (snd (score h))).
  { intros h Hh. rewrite <- E in Hh. apply Hkind; auto.
    rewrite Forall_forall in Hp. symmetry. now apply Hp. }
  assert (Hlen : forall l', Permutation l' (top :: rest) ->
                            exists s0 r, l' = s0 :: r).
  { intros [| s0 r] P; [| eauto].
    apply Permutation_nil in P. discriminate. }
  destruct (snd (score top)) as [n | a b] eqn:Et.
  - destruct (sorted_by_total score1_int Z.leb (top :: rest)) as [l' El'].
    + apply Forall_forall. intros h Hh. specialize (Hk h Hh).
      unfold score1_int. destruct (snd (score h)); [eauto | contradiction].
    + rewrite El'. apply sorted_by_perm in El'.
      destruct (Hlen _ El') as (s0 & r & ->). eauto.
  - destruct (sorted_by_total score1_pair pair_leb (top :: rest)) as [l' El'].
    + apply Forall_forall. intros h Hh. specialize (Hk h Hh).
      unfold score1_pair. destruct (snd (score h)); [contradiction | eauto].
    + rewrite El'. apply sorted_by_perm in El'.
      destruct (Hlen _ El') as (s0 & r & ->). eauto.
Qed.

(** C2. [order_hands] returns whenever the hands are comparable.  When it
    returns, the kicker index is -2 if the two best hands by secondary score
    do not tie (or there is only one), and no kickers are looked at.  If
    they tie, the tied hands are ordered by their kickers and the index
    describes the two best of them: it is -1 exactly when their kicker
    points agree at every position, and otherwise it is [i + 1] for the
    first position [i], counted from 0, at which they differ. *)
Theorem order_hands_kicker_index (hand_list : list PokerHand) :
  (hand_list <> [] -> comparable hand_list ->
   exists w k, order_hands hand_list = OK (w, k)) /\
  (forall w k,
      order_hands hand_list = OK (w, k) ->
      exists shh,
        sorted_high_hands hand_list = OK shh /\
        ((~ tie_on_score shh /\ k = -2 /\ hd_error shh = Some w) \/
         (tie_on_score shh /\
          exists fh h1 rest ks0 ks1,
            filtered_hands shh = Some fh /\
            sorted_by sort_term tuple_leb fh = OK (w :: h1 :: rest) /\
            kickers w = Some ks0 /\ kickers h1 = Some ks1 /\
            (k = -1 <-> map points ks0 = map points ks1) /\
            (k <> -1 ->
             exists i, k = Z.of_nat i + 1 /\
                       first_difference (map points ks0)
                                        (map points ks1) i)))).
Proof.
  split.
  - intros Hne [Hkind Hkick].
    destruct (sorted_high_hands_total hand_list Hne Hkind) as (s0 & r & Es).
    unfold order_hands. rewrite Es. cbn [bind].
    destruct (filtered_hands (s0 :: r)) as [fh |] eqn:Ef; [| cbn; eauto].
    destruct (Hkick _ _ Es Ef) as [n Hn].
    destruct (filtered_hands_some _ _ Ef) as (x0 & x1 & t & t' & _ & _ & ->).
    destruct (sorted_by_total sort_term tuple_leb (x0 :: x1 :: t'))
      as [ks Eks].
    { eapply Forall_impl; [| exact Hn].
      intros h (c & Hc & _). unfold sort_term. rewrite Hc. eauto. }
    unfold sort_by_high_cards. rewrite Eks. cbn [bind].
    assert (P := sorted_by_perm _ _ _ _ Eks).
    assert (Hn' : Forall (fun h => exists c, kickers h = Some c /\
                                             length c = n) ks).
    { apply Forall_forall. intros h Hh.
      apply (proj1 (Forall_forall _ _) Hn).
      eapply Permutation_in; [exact P | exact Hh]. }
    assert (Hl := Permutation_length P). simpl in Hl.
    destruct ks as [| h0 [| h1 ks]]; try discriminate.
    inversion Hn' as [| ? ? (c0 & Hc0 & L0) Hn'']; subst.
    inversion Hn'' as [| ? ? (c1 & Hc1 & L1) _]; subst.
    rewrite Hc0.
    destruct (kicker_scan_total h1 c1 Hc1 c0 0) as [k Hscan]; [lia |].
    cbn [nth_error]. rewrite Hscan. cbn. eauto.
  - intros w k H. unfold order_hands in H.
    destruct (sorted_high_hands hand_list) as [shh |] eqn:Es;
      [| discriminate].
    exists shh. split; [reflexivity |]. cbn [bind] in H.
    destruct (filtered_hands shh) as [fh |] eqn:Ef.
    + right.
      destruct (filtered_hands_some _ _ Ef)
        as (x0 & x1 & t & t' & -> & Etie & ->).
      split; [now exists x0, x1, t |].
      unfold sort_by_high_cards in H.
      destruct (sorted_by sort_term tuple_leb (x0 :: x1 :: t'))
        as [ks |] eqn:Eks; [| discriminate].
      cbn [bind] in H.
      assert (Hl := Permutation_length (sorted_by_perm _ _ _ _ Eks)).
      simpl in Hl.
      destruct ks as [| h0 [| h1 ks]]; try discriminate.
      destruct (sorted_by_top_two sort_term tuple_leb tuple_leb_total
                  tuple_leb_trans _ _ _ _ Eks)
        as (p0 & p1 & E0 & E1 & Hle).
      unfold sort_term in E0, E1.
      destruct (kickers h0) as [c0 |] eqn:Hc0; [| discriminate].
      destruct (kickers h1) as [c1 |] eqn:Hc1; [| discriminate].
      injection E0 as <-. injection E1 as <-.
      cbn [nth_error] in H.
      destruct (kicker_scan c0 (Some h1) 0) as [k' |] eqn:Hscan;
        [| discriminate].
      cbn in H. injection H as <- <-.
      exists (x0 :: x1 :: t'), h1, ks, c0, c1.
      repeat (split; [assumption || reflexivity |]).
      destruct (kicker_scan_result h1 c1 Hc1 c0 [] k' eq_refl Hscan)
        as [[-> Hpre] | (i & -> & Hdiff)]; simpl in *.
      * assert (Heq : map points c0 = map points c1).
        { rewrite <- (firstn_skipn (length c0) (map points c1)) in Hle.
          rewrite <- Hpre in Hle. apply tuple_leb_prefix in Hle.
          rewrite <- (firstn_skipn (length c0) (map points c1)).
          now rewrite <- Hpre, Hle, app_nil_r. }
        split; [tauto | congruence].
      * split.
        -- split; [lia |].
           intros Heq. rewrite Heq in Hdiff.
           now apply first_difference_irrefl in Hdiff.
        -- intros _. now exists i.
    + left. apply filtered_hands_none in Ef. cbn in H.
      destruct shh as [| s0 r]; [discriminate |]. injection H as <- <-.
      auto.
Qed.

Lemma ace_high_hands_comparable : comparable ace_high_hands.
Proof.
  split.
  - intros h h' [<- | [<- | []]] [<- | [<- | []]] _; exact I.
  - intros shh fh Hs Hf. vm_compute in Hs. injection Hs as <-.
    vm_compute in Hf. injection Hf as <-.
    exists 4%nat. repeat constructor; eexists; split; reflexivity.
Defined.

Lemma order_hands_kicker_index_witness :
  exists w k, order_hands ace_high_hands = OK (w, k).
Proof.
  apply (proj1 (order_hands_kicker_index ace_high_hands)).
  - discriminate.
  - exact ace_high_hands_comparable.
Defined.

(** The king kicker against the jack kicker: the first kickers differ, the
    index is 1. *)
Example order_hands_ace_high_king_kicker :
  exists w, order_hands ace_high_hands = OK (w, 1) /\
            hd_error ace_high_hands = Some w.
Proof. vm_compute. eexists. split; reflexivity. Qed.

(** The same hand twice is a draw. *)
Example order_hands_draw :
  forall h, hd_error ace_high_hands = Some h ->
            order_hands [h; h] = OK (h, -1).
Proof. intros h H. vm_compute in H. injection H as <-. reflexivity. Qed.

(** ** The straight pass *)

Lemma insert_desc_map {A K : Type} (key : A -> K) (leb : K -> K -> bool)
    (x : A) (l : list A) :
  map key (insert_desc key leb x l)
  = insert_desc (fun k => k) leb (key x) (map key l).
Proof.
  induction l as [| y l IH]; simpl; [reflexivity |].
  destruct (leb (key y) (key x)); simpl; [reflexivity | now rewrite IH].
Qed.

(** The keys of a sorted list are the sorted keys. *)
Lemma sorted_desc_map {A K : Type} (key : A -> K) (leb : K -> K -> bool)
    (l : list A) :
  map key (sorted_desc key leb l) = sorted_desc (fun k => k) leb (map key l).
Proof.
  induction l as [| x l IH]; simpl; [reflexivity |].
  now rewrite insert_desc_map, IH.
Qed.

Lemma sorted_numbers_eq (l1 l2 : list Z) :
  Permutation l1 l2 -> NoDup l2 ->
  sorted_desc (fun n => n) Z.leb l1 = sorted_desc (fun n => n) Z.leb l2.
Proof.
  intros P N.
  apply (sorted_desc_perm_eq (fun n => n) Z.leb Zleb_total Zleb_trans
           Zleb_antisym _ _ P).
  rewrite map_id.
  eapply Permutation_NoDup; [apply Permutation_sym, P | exact N].
Qed.

Lemma straight_loop_false (l : list Z) (c : Z) :
  straight_loop l c false = false.
Proof.
  revert c. induction l as [| n l IH]; intros c; simpl; [reflexivity |].
  destruct (n =? c - 1); apply IH.
Qed.

(** A list of five numbers that passes [check_straight] counts down by one. *)
Lemma check_straight_five (l : list Z) :
  length l = 5%nat -> check_straight l = OK true ->
  exists n, l = [n; n - 1; n - 2; n - 3; n - 4].
Proof.
  destruct l as [| a [| b [| c [| d [| e [| ? ?]]]]]]; try discriminate.
  intros _. simpl.
  destruct (Z.eqb_spec b (a - 1));
    [| rewrite ?straight_loop_false; simpl;
       repeat match goal with |- context [if ?b then _ else _] =>
                destruct b end; discriminate].
  destruct (Z.eqb_spec c (b - 1));
    [| repeat match goal with |- context [if ?b then _ else _] =>
                destruct b end; discriminate].
  destruct (Z.eqb_spec d (c - 1));
    [| repeat match goal with |- context [if ?b then _ else _] =>
                destruct b end; discriminate].
  destruct (Z.eqb_spec e (d - 1)); [| discriminate].
  intros _. exists a. subst.
  replace (a - 1 - 1) with (a - 2) by lia.
  replace (a - 2 - 1) with (a - 3) by lia.
  replace (a - 3 - 1) with (a - 4) by lia.
  reflexivity.
Qed.

Lemma points_valid (c : Card) :
  1 <= number c <= 13 ->
  (number c = 1 /\ points c = 14) \/ (2 <= number c /\ points c = number c).
Proof.
  intros H. unfold points. destruct (Z.eqb_spec (number c) 1); simpl; lia.
Qed.

Lemma sorted_cards_head_max (cs : list Card) (c0 : Card) :
  hd_error (sorted_desc points Z.leb cs) = Some c0 ->
  Forall (fun c => points c <= points c0) cs.
Proof.
  intros H.
  assert (S := sorted_desc_sorted points Z.leb Zleb_total Zleb_trans cs).
  assert (P := sorted_desc_perm points Z.leb cs).
  destruct (sorted_desc points Z.leb cs) as [| x l]; [discriminate |].
  injection H as ->. inversion S as [| ? ? _ Hall]; subst.
  apply Forall_forall. intros c Hc.
  apply (Permutation_in _ (Permutation_sym P)) in Hc.
  destruct Hc as [<- | Hc]; [lia |].
  rewrite Forall_forall in Hall. specialize (Hall _ Hc).
  unfold desc in Hall. now apply Z.leb_le.
Qed.

(** C5. For five cards with numbers 1 to 13: when they are an ace, a 2, a 3,
    a 4 and a 5, of any suits and in any order, the straight pass gives the
    candidate "Straight, 1 to 5" with secondary score 5; for any other
    hand, a straight candidate has the points of the first card of the
    sorted hand as its secondary score, and no card has more points. *)
Theorem analyse_straight_scores (cs : list Card) :
  length cs = 5%nat ->
  Forall (fun c => 1 <= number c <= 13) cs ->
  (Permutation (map number cs) [1; 2; 3; 4; 5] ->
   analyse_straight (sorted_desc points Z.leb cs)
   = OK [mkPokerHand "Straight, 1 to 5" (5, SInt 5)
                     (sorted_desc points Z.leb cs) None None]) /\
  (~ Permutation (map number cs) [1; 2; 3; 4; 5] ->
   (exists found, analyse_straight (sorted_desc points Z.leb cs) = OK found) /\
   forall ph,
     In ph (match analyse_straight (sorted_desc points Z.leb cs) with
            | OK found => found
            | Err _ => []
            end) ->
     exists c0,
       hd_error (sorted_desc points Z.leb cs) = Some c0 /\
       score ph = (5, SInt (points c0)) /\
       Forall (fun c => points c <= points c0) cs).
Proof.
  intros Hlen Hvalid.
  remember (sorted_desc points Z.leb cs) as cards eqn:Ecards.
  assert (Pc : Permutation cards cs)
    by (subst cards; apply sorted_desc_perm).
  assert (Hpts : map points cards
                 = sorted_desc (fun n => n) Z.leb (map points cs))
    by (subst cards; apply sorted_desc_map).
  assert (Lc : length cards = 5%nat)
    by (rewrite (Permutation_length Pc); exact Hlen).
  split.
  - intros P.
    assert (Ppts : Permutation (map points cs) [14; 2; 3; 4; 5]).
    { change [14; 2; 3; 4; 5]
        with (map (fun n => if negb (n =? 1) then n else 14) [1; 2; 3; 4; 5]).
      rewrite <- (map_map number (fun n => if negb (n =? 1) then n else 14)).
      now apply Permutation_map. }
    rewrite (sorted_numbers_eq _ _ Ppts) in Hpts
      by (repeat constructor; simpl; intuition discriminate).
    assert (Hnum : sorted_desc (fun n => n) Z.leb (map number cards)
                   = [5; 4; 3; 2; 1]).
    { rewrite (sorted_numbers_eq _ [1; 2; 3; 4; 5]).
      - reflexivity.
      - eapply perm_trans; [apply Permutation_map, Pc | exact P].
      - repeat constructor; simpl; intuition discriminate. }
    unfold analyse_straight. rewrite Hpts, Hnum.
    destruct cards as [| c0 rest]; [discriminate |].
    injection Hpts as H0 _. rewrite H0. reflexivity.
  - intros NP.
    destruct cards as [| c0 rest]; [discriminate |].
    assert (Hmax : Forall (fun c => points c <= points c0) cs).
    { apply sorted_cards_head_max. now rewrite <- Ecards. }
    assert (Hwheel :
             (points c0 =? 14) = true ->
             check_straight
               (sorted_desc (fun n => n) Z.leb (map number (c0 :: rest)))
             = OK true -> False).
    { intros H14 Hst. apply Z.eqb_eq in H14.
      apply check_straight_five in Hst;
        [| now rewrite sorted_desc_length, length_map].
      destruct Hst as [n Hn].
      assert (Pn : Permutation (map number cs) [n; n - 1; n - 2; n - 3; n - 4]).
      { rewrite <- Hn.
        eapply perm_trans;
          [apply Permutation_map, Permutation_sym, Pc
          | apply Permutation_sym, sorted_desc_perm]. }
      assert (Hall : forall m, In m [n; n - 1; n - 2; n - 3; n - 4] ->
                               1 <= m <= 13).
      { intros m Hm. apply (Permutation_in _ (Permutation_sym Pn)) in Hm.
        apply in_map_iff in Hm. destruct Hm as (c & <- & Hc).
        rewrite Forall_forall in Hvalid. now apply Hvalid. }
      assert (H1 : In 1 [n; n - 1; n - 2; n - 3; n - 4]).
      { apply (Permutation_in _ Pn). apply in_map_iff. exists c0. split.
        - assert (Hc0 : In c0 cs)
            by (apply (Permutation_in _ Pc); now left).
          rewrite Forall_forall in Hvalid.
          assert (Hb := Hvalid _ Hc0).
          destruct (points_valid c0 Hb); lia.
        - apply (Permutation_in _ Pc). now left. }
      assert (Hlow := Hall (n - 4)). simpl in Hlow, H1.
      assert (n = 5) by (destruct H1 as [? | [? | [? | [? | [? | []]]]]]; lia).
      subst n. apply NP.
      eapply perm_trans; [exact Pn |].
      apply (Permutation_rev [1; 2; 3; 4; 5]) || apply Permutation_sym,
        (Permutation_rev [1; 2; 3; 4; 5]). }
    unfold analyse_straight.
    change (map points (c0 :: rest)) with (points c0 :: map points rest).
    cbn [check_straight bind].
    destruct (straight_loop (map points rest) (points c0) true) eqn:Es;
      cbn [negb andb].
    + cbv [bind]. split; [now eexists |].
      intros ph [<- | []]. exists c0. repeat split. exact Hmax.
    + destruct (points c0 =? 14) eqn:E14.
      * destruct (check_straight
                    (sorted_desc (fun n => n) Z.leb
                       (map number (c0 :: rest)))) as [[|] |] eqn:Ec.
        -- exfalso. now apply Hwheel.
        -- cbv [bind]. split; [now eexists | intros ph []].
        -- exfalso. clear Hwheel. cbn [map sorted_desc] in Ec.
           destruct (insert_desc (fun n => n) Z.leb (number c0)
                       (sorted_desc (fun n => n) Z.leb (map number rest)))
             eqn:Ei; [| discriminate].
           assert (Pi := insert_desc_perm (fun n => n) Z.leb (number c0)
                           (sorted_desc (fun n => n) Z.leb
                              (map number rest))).
           rewrite Ei in Pi. apply Permutation_nil in Pi. discriminate.
      * cbv [bind]. split; [now eexists | intros ph []].
Qed.

Lemma analyse_straight_scores_witness :
  analyse_straight
    (sorted_desc points Z.leb
       [mkCard 3 "club"; mkCard 1 "heart"; mkCard 2 "diamond";
        mkCard 5 "spade"; mkCard 4 "heart"])
  = OK [mkPokerHand "Straight, 1 to 5" (5, SInt 5)
          (sorted_desc points Z.leb
             [mkCard 3 "club"; mkCard 1 "heart"; mkCard 2 "diamond";
              mkCard 5 "spade"; mkCard 4 "heart"]) None None].
Proof.
  apply (analyse_straight_scores
           [mkCard 3 "club"; mkCard 1 "heart"; mkCard 2 "diamond";
            mkCard 5 "spade"; mkCard 4 "heart"]).
  - reflexivity.
  - repeat constructor; simpl; lia.
  - simpl. apply NoDup_Permutation.
    + repeat constructor; simpl; intuition discriminate.
    + repeat constructor; simpl; intuition discriminate.
    + intros x. simpl. intuition auto.
Defined.

(** ** Five of a kind *)

Lemma sorted_same_points (cs : list Card) (p : Z) :
  Forall (fun c => points c = p) cs -> sorted_desc points Z.leb cs = cs.
Proof.
  intros H. apply sorted_desc_fixed.
  induction H as [| c cs Hc Hcs IH]; constructor; auto.
  eapply Forall_impl; [| exact Hcs].
  intros x Hx. unfold desc. apply Z.leb_le. simpl in Hx. lia.
Qed.

Lemma five_of_a_kind_raises (c1 c2 c3 c4 c5 : Card) :
  number c2 = number c1 -> number c3 = number c1 ->
  number c4 = number c1 -> number c5 = number c1 ->
  analyse_same_number_hands [c1; c2; c3; c4; c5] = Err ValueError.
Proof.
  intros H2 H3 H4 H5.
  unfold analyse_same_number_hands. cbn [same_number_loop].
  unfold printed_in at 1. cbn [map existsb].
  rewrite String.eqb_refl. cbn [orb pop nth_error firstn skipn app bind].
  cbn [temp_indices]. rewrite H2, H3, H4, H5, !Z.eqb_refl.
  reflexivity.
Qed.

(** ** The printed form identifies the cards of the deck *)

Lemma Card_str_inj_deck_check :
  forallb (fun c =>
             forallb (fun c' =>
                        implb (String.eqb (Card_str c) (Card_str c'))
                              (Card_eqb c c'))
                     new_deck_cards)
          new_deck_cards = true.
Proof. vm_compute. reflexivity. Qed.

Lemma Card_str_inj_deck (c c' : Card) :
  In c new_deck_cards -> In c' new_deck_cards ->
  Card_str c = Card_str c' -> c = c'.
Proof.
  intros Hc Hc' E.
  assert (H := Card_str_inj_deck_check).
  rewrite forallb_forall in H. specialize (H c Hc).
  rewrite forallb_forall in H. specialize (H c' Hc').
  rewrite E, String.eqb_refl in H. simpl in H. now apply Card_eqb_eq.
Qed.

Lemma in_new_deck_cards (c : Card) :
  In c new_deck_cards <-> 1 <= number c <= 13 /\ In (suit c) suits.
Proof.
  split.
  - intros H.
    assert (Hall : forallb (fun c => (1 <=? number c) && (number c <=? 13)
                                     && existsb (String.eqb (suit c)) suits)
                           new_deck_cards = true)
      by (vm_compute; reflexivity).
    rewrite forallb_forall in Hall. specialize (Hall c H).
    rewrite !andb_true_iff, !Z.leb_le, existsb_exists in Hall.
    destruct Hall as [[? ?] (s & Hs & Es)]. apply String.eqb_eq in Es.
    subst. auto.
  - intros [Hn Hs]. unfold new_deck_cards. apply in_flat_map.
    exists (number c). split.
    + apply in_map_iff. exists (Z.to_nat (number c)). split; [lia |].
      apply in_seq. lia.
    + apply in_map_iff. exists (suit c). split; [now destruct c | exact Hs].
Qed.

Lemma valid_hand_str_nodup (cs : list Card) :
  NoDup cs -> Forall (fun c => In c new_deck_cards) cs ->
  NoDup (map Card_str cs).
Proof.
  intros N F. apply Finite.Injective_map_NoDup_in; [| exact N].
  rewrite Forall_forall in F. intros x y Hx Hy.
  apply Card_str_inj_deck; auto.
Qed.

(** ** Lists *)

Lemma Permutation_filter {A : Type} (f : A -> bool) (l l' : list A) :
  Permutation l l' -> Permutation (filter f l) (filter f l').
Proof.
  induction 1 as [| x l l' _ IH | x y l | l l' l'' _ IH1 _ IH2]; simpl.
  - apply perm_nil.
  - destruct (f x); [now apply perm_skip | exact IH].
  - destruct (f x), (f y); try apply Permutation_refl. apply perm_swap.
  - eapply perm_trans; eauto.
Qed.

Lemma pop_middle {A : Type} (u extra : list A) (c : A) :
  pop (length u) (u ++ c :: extra) = OK (c, u ++ extra).
Proof.
  unfold pop. rewrite nth_error_app_here.
  rewrite firstn_app_here.
  replace (skipn (S (length u)) (u ++ c :: extra)) with extra; [reflexivity |].
  induction u; simpl; auto.
Qed.

Lemma sorted_desc_snoc_max (l : list nat) (x : nat) :
  Forall (fun y => (y < x)%nat) l ->
  sorted_desc (fun i => i) Nat.leb (l ++ [x])
  = x :: sorted_desc (fun i => i) Nat.leb l.
Proof.
  induction 1 as [| y l Hy _ IH]; simpl; [reflexivity |].
  rewrite IH. simpl.
  destruct (Nat.leb_spec x y); [lia | reflexivity].
Qed.

Lemma temp_indices_app (n : Z) (u v : list Card) (i : nat) :
  temp_indices n (u ++ v) i
  = temp_indices n u i ++ temp_indices n v (i + length u).
Proof.
  revert i. induction u as [| c u IH]; intros i; simpl.
  - now rewrite Nat.add_0_r.
  - rewrite IH, Nat.add_succ_r.
    destruct (n =? number c); reflexivity.
Qed.

Lemma temp_indices_bound (n : Z) (u : list Card) (i : nat) :
  Forall (fun j => (j < i + length u)%nat) (temp_indices n u i).
Proof.
  revert i. induction u as [| c u IH]; intros i; simpl; [constructor |].
  specialize (IH (S i)).
  assert (IH' : Forall (fun j => (j < i + S (length u))%nat)
                       (temp_indices n u (S i))).
  { eapply Forall_impl; [| exact IH]. simpl. intros; lia. }
  destruct (n =? number c); [constructor; [lia | exact IH'] | exact IH'].
Qed.

(** Popping the cards with the number [n] from the highest index down moves
    them to the hand cards in reverse order and leaves the others. *)
Lemma pop_indices_same_number (n : Z) (u : list Card) :
  forall hand extra,
    pop_indices (sorted_desc (fun i => i) Nat.leb (temp_indices n u 0))
                hand (u ++ extra)
    = OK (hand ++ rev (filter (fun c => n =? number c) u),
          filter (fun c => negb (n =? number c)) u ++ extra).
Proof.
  induction u as [| c u IH] using rev_ind; intros hand extra.
  - simpl. now rewrite app_nil_r.
  - rewrite temp_indices_app, !filter_app. simpl.
    destruct (n =? number c) eqn:E; simpl.
    + rewrite sorted_desc_snoc_max by apply (temp_indices_bound n u 0).
      cbn [pop_indices]. rewrite <- app_assoc. simpl.
      rewrite pop_middle. cbn [bind].
      rewrite IH, rev_app_distr, app_nil_r, <- app_assoc. reflexivity.
    + rewrite !app_nil_r, <- !app_assoc. simpl. apply IH.
Qed.

Lemma NoDup_map_filter {A B : Type} (f : A -> B) (p : A -> bool)
    (l : list A) :
  NoDup (map f l) -> NoDup (map f (filter p l)).
Proof.
  induction l as [| x l IH]; simpl; intros N; [constructor |].
  inversion N as [| ? ? Hx Hl]; subst.
  destruct (p x); simpl; [constructor |]; auto.
  intros Hin. apply Hx. apply in_map_iff in Hin.
  destruct Hin as (y & <- & Hy). apply filter_In in Hy.
  apply in_map. tauto.
Qed.

(** ** The kickers of a rank group *)

Lemma pop_printed_none (s : string) (l : list Card) :
  (forall k, In k l -> Card_str k <> s) -> pop_printed s l = l.
Proof.
  induction l as [| k l IH]; simpl; intros H; [reflexivity |].
  destruct (String.eqb_spec s (Card_str k)) as [E | _].
  - exfalso. apply (H k); auto.
  - f_equal. apply IH. intros x Hx. apply H. now right.
Qed.

(** On cards that print differently the loop removes the card asked for:
    no second card matches, so the card stepped over is never one that
    should have gone. *)
Lemma pop_printed_filter (s : string) (l : list Card) :
  NoDup (map Card_str l) ->
  pop_printed s l = filter (fun k => negb (String.eqb s (Card_str k))) l.
Proof.
  induction l as [| k l IH]; simpl; intros N; [reflexivity |].
  inversion N as [| ? ? Hk Hl]; subst.
  destruct (String.eqb_spec s (Card_str k)) as [E | _]; simpl.
  - assert (Hno : forall x, In x l -> Card_str x <> s).
    { intros x Hx Ex. apply Hk. rewrite <- E, <- Ex. now apply in_map. }
    rewrite filter_all.
    + destruct l as [| x l']; [reflexivity |]. f_equal.
      apply pop_printed_none. intros y Hy. apply Hno. now right.
    + intros x Hx. apply negb_true_iff, String.eqb_neq.
      intros Ex. now apply (Hno x Hx).
  - f_equal. now apply IH.
Qed.

Lemma temp_kickers_filter (hand : list Card) :
  forall tk,
    NoDup (map Card_str tk) ->
    temp_kickers tk hand = filter (fun k => negb (printed_in k hand)) tk.
Proof.
  unfold temp_kickers.
  induction hand as [| h hand IH]; intros tk N; simpl.
  - symmetry. apply filter_all. reflexivity.
  - rewrite pop_printed_filter by exact N.
    rewrite IH by now apply NoDup_map_filter.
    rewrite filter_twice. apply filter_ext. intros k.
    unfold printed_in. simpl. rewrite negb_orb.
    now rewrite (String.eqb_sym (Card_str h)).
Qed.

Lemma NoDup_map_inj {A B : Type} (f : A -> B) (l : list A) (x y : A) :
  NoDup (map f l) -> In x l -> In y l -> f x = f y -> x = y.
Proof.
  induction l as [| a l IH]; simpl; intros N Hx Hy E; [contradiction |].
  inversion N as [| ? ? Ha Hl]; subst.
  destruct Hx as [-> | Hx], Hy as [-> | Hy]; auto.
  - exfalso. apply Ha. rewrite E. now apply in_map.
  - exfalso. apply Ha. rewrite <- E. now apply in_map.
Qed.

(** Among cards that print differently, a card is printed in a part of
    them exactly when it is in it. *)
Lemma printed_in_iff (cards part : list Card) (c : Card) :
  NoDup (map Card_str cards) -> incl part cards -> In c cards ->
  printed_in c part = true <-> In c part.
Proof.
  intros N Hp Hc. unfold printed_in. rewrite existsb_exists. split.
  - intros (s & Hs & E). apply String.eqb_eq in E.
    apply in_map_iff in Hs. destruct Hs as (x & <- & Hx).
    assert (c = x); [| now subst].
    apply (NoDup_map_inj Card_str cards); auto.
  - intros H. exists (Card_str c). split; [now apply in_map |].
    apply String.eqb_refl.
Qed.

(** ** The rank-grouping pass *)

Lemma same_number_sym (c x : Card) : same_number c x = same_number x c.
Proof. apply Z.eqb_sym. Qed.

Lemma seen_snoc (pre : list Card) (c x : Card) :
  seen (pre ++ [c]) x = seen pre x || same_number x c.
Proof. unfold seen. rewrite existsb_app. simpl. now rewrite orb_false_r. Qed.

Lemma seen_same_number (pre : list Card) (c x : Card) :
  same_number c x = true -> seen pre x = seen pre c.
Proof.
  unfold seen, same_number. intros E. apply Z.eqb_eq in E.
  induction pre as [| p pre IH]; simpl; [reflexivity |].
  now rewrite IH, E.
Qed.

Lemma not_seen_filter (pre : list Card) (c : Card) :
  seen pre c = false -> filter (same_number c) pre = [].
Proof.
  unfold seen. intros H. apply filter_none. intros x Hx.
  destruct (same_number c x) eqn:E; [| reflexivity].
  rewrite <- H. symmetry. apply existsb_exists. eauto.
Qed.

Lemma bool_eq_iff (a b : bool) : (a = true <-> b = true) -> a = b.
Proof. destruct a, b; intuition congruence. Qed.

Section RankPass.
Variable cards : list Card.
Hypothesis cards_print : NoDup (map Card_str cards).

Let flatten (found : list (option PokerHand)) : list PokerHand :=
  flat_map (fun cand => match cand with
                        | Some poker_hand => [poker_hand]
                        | None => []
                        end) found.

(** The loop of the source, with its list of uncounted cards, visits the
    groups of the specification: after the cards [pre] the uncounted
    cards are the cards to come whose number was not seen. *)
Lemma same_number_loop_groups (todo : list Card) :
  forall pre,
    cards = pre ++ todo ->
    same_number_loop cards todo (filter (fun c => negb (seen pre c)) todo)
    = found <- mapM (group_hand cards) (first_of_rank pre todo) ;;
      OK (flatten found).
Proof.
  induction todo as [| c t IH]; intros pre E; [reflexivity |].
  assert (E' : cards = (pre ++ [c]) ++ t)
    by (rewrite <- app_assoc; exact E).
  assert (Nc : NoDup cards) by (eapply NoDup_map_inv; exact cards_print).
  assert (Hct : ~ In c t).
  { rewrite E in Nc. apply NoDup_remove_2 in Nc.
    intros H. apply Nc. apply in_or_app. now right. }
  cbn [same_number_loop first_of_rank filter].
  destruct (seen pre c) eqn:S; cbn [negb].
  - replace (printed_in c (filter (fun c0 => negb (seen pre c0)) t))
      with false.
    + rewrite <- (IH _ E'). f_equal. apply filter_ext_in. intros x Hx.
      rewrite seen_snoc. destruct (same_number x c) eqn:Ex.
      * now rewrite <- (seen_same_number pre x c Ex), S.
      * now rewrite orb_false_r.
    + symmetry. apply not_true_is_false. intros H.
      apply (printed_in_iff cards) in H; auto.
      * apply filter_In in H. tauto.
      * intros x Hx. apply filter_In in Hx. rewrite E.
        apply in_or_app. right. now right.
      * rewrite E. apply in_or_app. right. now left.
  - unfold printed_in at 1. cbn [map existsb].
    rewrite String.eqb_refl.
    cbn [orb pop nth_error firstn skipn app bind].
    set (u := filter (fun c0 => negb (seen pre c0)) t).
    rewrite <- (app_nil_r u) at 2.
    rewrite (pop_indices_same_number (number c) u [c] []).
    cbn [bind]. rewrite app_nil_r.
    change (fun c0 : Card => number c =? number c0) with (same_number c).
    change (fun c0 : Card => negb (number c =? number c0))
      with (fun x : Card => negb (same_number c x)).
    assert (Hsame : filter (same_number c) u = filter (same_number c) t).
    { unfold u. rewrite filter_twice. apply filter_ext. intros x.
      destruct (same_number c x) eqn:Ex; [| apply andb_false_r].
      now rewrite (seen_same_number pre c x Ex), S. }
    assert (Hu2 : filter (fun x => negb (same_number c x)) u
                  = filter (fun x => negb (seen (pre ++ [c]) x)) t).
    { unfold u. rewrite filter_twice. apply filter_ext. intros x.
      rewrite seen_snoc, negb_orb, (same_number_sym x c). reflexivity. }
    assert (Hgroup : [c] ++ rev (filter (same_number c) u)
                     = group_cards cards c).
    { unfold group_cards. rewrite E, filter_app. simpl.
      replace (same_number c c) with true
        by (symmetry; apply Z.eqb_refl).
      rewrite (not_seen_filter pre c S), Hsame. reflexivity. }
    assert (Hin : incl (group_cards cards c) cards).
    { rewrite <- Hgroup, Hsame. intros x [<- | Hx].
      - rewrite E. apply in_or_app. right. now left.
      - apply in_rev, filter_In in Hx. rewrite E.
        apply in_or_app. right. now right. }
    assert (Hkick : sorted_desc number Z.leb
                      (temp_kickers cards (group_cards cards c))
                    = group_kickers cards c).
    { unfold group_kickers. f_equal.
      rewrite (temp_kickers_filter _ _ cards_print).
      apply filter_ext_in. intros x Hx. f_equal.
      apply bool_eq_iff.
      rewrite (printed_in_iff cards _ x cards_print Hin Hx).
      rewrite <- Hgroup, Hsame. simpl. rewrite <- in_rev, filter_In.
      split.
      - intros [<- | [_ H]]; [apply Z.eqb_refl | exact H].
      - intros H. rewrite E in Hx.
        apply in_app_or in Hx. destruct Hx as [Hx | [Hx | Hx]]; auto.
        exfalso. assert (Hf := not_seen_filter pre c S).
        assert (Hi : In x (filter (same_number c) pre))
          by (apply filter_In; auto).
        rewrite Hf in Hi. exact Hi. }
    rewrite Hgroup, Hkick, Hu2. rewrite (IH _ E').
    fold (group_hand cards c). cbn [mapM].
    destruct (group_hand cards c) as [[ph |] | e]; cbn [bind];
      destruct (mapM (group_hand cards) (first_of_rank (pre ++ [c]) t));
      reflexivity.
Qed.

(** The rank-grouping pass of the source is the one of the
    specification. *)
Lemma analyse_same_number_hands_rank_pass :
  analyse_same_number_hands cards = rank_pass cards.
Proof.
  unfold analyse_same_number_hands.
  replace (same_number_loop cards cards cards)
    with (same_number_loop cards cards
            (filter (fun c => negb (seen [] c)) cards))
    by (f_equal; apply filter_all; reflexivity).
  exact (same_number_loop_groups cards [] eq_refl).
Qed.
End RankPass.

(** ** The groups of a hand of deck cards *)

Lemma first_of_rank_in (todo : list Card) :
  forall pre c,
    In c (first_of_rank pre todo) -> In c todo /\ seen pre c = false.
Proof.
  induction todo as [| x t IH]; intros pre c H; simpl in H; [contradiction |].
  destruct (seen pre x) eqn:S.
  - apply IH in H. destruct H as [Hin Hs]. split; [now right |].
    rewrite seen_snoc in Hs. now apply orb_false_elim in Hs.
  - destruct H as [<- | H]; [split; [now left | exact S] |].
    apply IH in H. destruct H as [Hin Hs]. split; [now right |].
    rewrite seen_snoc in Hs. now apply orb_false_elim in Hs.
Qed.

Lemma first_of_rank_numbers (todo : list Card) :
  forall pre, NoDup (map number (first_of_rank pre todo)).
Proof.
  induction todo as [| x t IH]; intros pre; simpl; [constructor |].
  destruct (seen pre x); [apply IH |].
  simpl. constructor; [| apply IH].
  intros H. apply in_map_iff in H. destruct H as (c & E & Hc).
  apply first_of_rank_in in Hc. destruct Hc as [_ Hs].
  rewrite seen_snoc in Hs. apply orb_false_elim in Hs.
  destruct Hs as [_ Hs]. unfold same_number in Hs.
  rewrite E, Z.eqb_refl in Hs. discriminate.
Qed.

Lemma filter_split_length {A : Type} (f : A -> bool) (l : list A) :
  (length (filter f l) + length (filter (fun x => negb (f x)) l))%nat
  = length l.
Proof.
  induction l as [| x l IH]; simpl; [reflexivity |].
  destruct (f x); simpl; lia.
Qed.

Lemma filter_split_perm {A : Type} (f : A -> bool) (l : list A) :
  Permutation (filter f l ++ filter (fun x => negb (f x)) l) l.
Proof.
  induction l as [| x l IH]; simpl; [apply perm_nil |].
  destruct (f x); simpl.
  - now apply perm_skip.
  - apply Permutation_sym, Permutation_cons_app, Permutation_sym, IH.
Qed.

Lemma group_cards_perm (cards : list Card) (c : Card) :
  Permutation (group_cards cards c) (filter (same_number c) cards).
Proof.
  unfold group_cards. destruct (filter (same_number c) cards) as [| x l].
  - apply perm_nil.
  - apply perm_skip, Permutation_sym, Permutation_rev.
Qed.

Lemma group_kickers_perm (cards : list Card) (c : Card) :
  Permutation (group_kickers cards c)
              (filter (fun x => negb (same_number c x)) cards).
Proof. apply sorted_desc_perm. Qed.

(** Cards of one number differ in their suits, and there are four suits. *)
Lemma same_number_at_most_four (l : list Card) (n : Z) :
  NoDup l -> Forall (fun c => In c new_deck_cards) l ->
  Forall (fun c => number c = n) l -> (length l <= 4)%nat.
Proof.
  intros N D S.
  rewrite <- (length_map suit l).
  change 4%nat with (length suits).
  apply NoDup_incl_length.
  - apply Finite.Injective_map_NoDup_in; [| exact N].
    rewrite Forall_forall in S. intros x y Hx Hy E.
    assert (Hn : number x = number y)
      by (rewrite (S _ Hx), (S _ Hy); reflexivity).
    destruct x as [nx sx], y as [ny sy]. simpl in *. now subst.
  - intros s Hs. apply in_map_iff in Hs. destruct Hs as (c & <- & Hc).
    rewrite Forall_forall in D. now apply in_new_deck_cards, D.
Qed.

Section DeckCards.
Variable cards : list Card.
Hypothesis cards_nodup : NoDup cards.
Hypothesis cards_deck : Forall (fun c => In c new_deck_cards) cards.

Lemma group_cards_size (c : Card) :
  In c cards ->
  (1 <= length (group_cards cards c) <= 4)%nat.
Proof.
  intros Hc.
  rewrite (Permutation_length (group_cards_perm cards c)).
  split.
  - assert (H : In c (filter (same_number c) cards))
      by (apply filter_In; split; [exact Hc | apply Z.eqb_refl]).
    destruct (filter (same_number c) cards); [contradiction | simpl; lia].
  - apply (same_number_at_most_four _ (number c)).
    + now apply NoDup_filter.
    + apply Forall_forall. intros x Hx. apply filter_In in Hx.
      rewrite Forall_forall in cards_deck. now apply cards_deck.
    + apply Forall_forall. intros x Hx. apply filter_In in Hx.
      destruct Hx as [_ Hx]. symmetry. now apply Z.eqb_eq.
Qed.

Lemma group_hand_deck (c : Card) :
  In c cards ->
  exists ph, group_hand cards c = OK (Some ph) /\ rank_hand cards c ph.
Proof.
  intros Hc. assert (Hs := group_cards_size c Hc).
  unfold group_hand, same_number_hand, rank_hand.
  destruct (length (group_cards cards c))
    as [| [| [| [| [| n]]]]] eqn:El; try lia;
    eexists; (split; [reflexivity |]); simpl; rewrite El;
    repeat split; auto 6.
Qed.

Lemma rank_pass_deck :
  exists found,
    rank_pass cards = OK found /\
    Forall2 (rank_hand cards) (first_of_rank [] cards) found.
Proof.
  unfold rank_pass.
  assert (H : forall l, incl l cards ->
              exists found,
                (opts <- mapM (group_hand cards) l ;;
                 OK (flat_map (fun cand => match cand with
                                           | Some poker_hand => [poker_hand]
                                           | None => []
                                           end) opts)) = OK found /\
                Forall2 (rank_hand cards) l found).
  { induction l as [| c l IH]; intros Hl.
    - exists []. split; [reflexivity | constructor].
    - destruct (group_hand_deck c) as (ph & E & Hph);
        [apply Hl; now left |].
      destruct IH as (found & Ef & Hf);
        [intros x Hx; apply Hl; now right |].
      cbn [mapM]. rewrite E. cbn [bind].
      destruct (mapM (group_hand cards) l) as [opts |]; [| discriminate].
      cbn [bind] in *. injection Ef as <-.
      eexists. split; [reflexivity |]. simpl. now constructor. }
  apply H. intros c Hc. now apply first_of_rank_in in Hc.
Qed.
End DeckCards.

(** ** Ranking candidates whose scores all differ *)

Lemma sorted_high_hands_perm (hand_list shh : list PokerHand) :
  sorted_high_hands hand_list = OK shh ->
  Permutation shh (highest_hands hand_list).
Proof.
  unfold sorted_high_hands.
  destruct (highest_hands hand_list) as [| hh0 r]; [discriminate |].
  destruct (snd (score hh0)); apply sorted_by_perm.
Qed.

Lemma highest_hands_nodup (hand_list : list PokerHand) :
  NoDup (map score hand_list) -> NoDup (map score (highest_hands hand_list)).
Proof.
  intros N. unfold highest_hands, sorted_hands.
  assert (N' : NoDup (map score (sorted_desc primary Z.leb hand_list))).
  { eapply Permutation_NoDup; [| exact N].
    apply Permutation_map, Permutation_sym, sorted_desc_perm. }
  destruct (sorted_desc primary Z.leb hand_list) as [| top l] eqn:E.
  - constructor.
  - now apply NoDup_map_filter.
Qed.

Lemma kind_ok_same_kind (h h' : PokerHand) :
  kind_ok h -> kind_ok h' -> primary h = primary h' ->
  same_kind (snd (score h)) (snd (score h')).
Proof.
  unfold kind_ok, same_kind. intros H H' E.
  destruct (snd (score h)), (snd (score h')); auto; lia.
Qed.

(** When no two hands have the same score the best hand is found without
    kickers. *)
Lemma order_hands_distinct_scores (hand_list : list PokerHand) :
  hand_list <> [] -> Forall kind_ok hand_list ->
  NoDup (map score hand_list) ->
  exists w, order_hands hand_list = OK (w, -2) /\ In w hand_list.
Proof.
  intros Hne Hk N. rewrite Forall_forall in Hk.
  destruct (sorted_high_hands_total hand_list Hne) as (s0 & r & Es).
  { intros h h' Hh Hh'. apply kind_ok_same_kind; auto. }
  assert (P := sorted_high_hands_perm _ _ Es).
  destruct (highest_hands_spec hand_list Hne) as (top & rest & _ & Hin & Hp).
  assert (Hnone : filtered_hands (s0 :: r) = None).
  { destruct (filtered_hands (s0 :: r)) as [fh |] eqn:Ef; [| reflexivity].
    exfalso.
    destruct (filtered_hands_some _ _ Ef) as (x0 & x1 & t & _ & E & Hs & _).
    injection E as <- ->.
    assert (N' : NoDup (map score (s0 :: x1 :: t))).
    { eapply Permutation_NoDup;
        [apply Permutation_map, Permutation_sym, P
        | now apply highest_hands_nodup]. }
    rewrite Forall_forall in Hp.
    assert (H0 : primary s0 = primary top)
      by (apply Hp, (Permutation_in _ P); now left).
    assert (H1 : primary x1 = primary top)
      by (apply Hp, (Permutation_in _ P); right; now left).
    inversion N' as [| ? ? Hnot _]; subst. apply Hnot. left.
    unfold primary in *. destruct (score s0), (score x1). simpl in *.
    congruence. }
  unfold order_hands. rewrite Es. cbn [bind]. rewrite Hnone. cbn.
  exists s0. split; [reflexivity |].
  apply Hin, (Permutation_in _ P). now left.
Qed.

(** ** The candidates of a hand of five deck cards *)

Lemma points_inj_deck (c c' : Card) :
  In c new_deck_cards -> In c' new_deck_cards ->
  points c = points c' -> number c = number c'.
Proof.
  intros H H' E. apply in_new_deck_cards in H, H'.
  destruct (points_valid c (proj1 H)), (points_valid c' (proj1 H')); lia.
Qed.

Lemma Forall2_in_r {A B : Type} (R : A -> B -> Prop) (l : list A)
    (l' : list B) (b : B) :
  Forall2 R l l' -> In b l' -> exists a, In a l /\ R a b.
Proof.
  induction 1 as [| x y l l' Hxy _ IH]; simpl; [contradiction |].
  intros [<- | H]; [eauto |]. destruct (IH H) as (a & Ha & Hab). eauto.
Qed.

Lemma Forall2_map_eq {A B C : Type} (R : A -> B -> Prop) (f : A -> C)
    (g : B -> C) (l : list A) (l' : list B) :
  (forall a b, R a b -> g b = f a) -> Forall2 R l l' -> map g l' = map f l.
Proof.
  intros H. induction 1 as [| x y l l' Hxy _ IH]; simpl; [reflexivity |].
  now rewrite IH, (H _ _ Hxy).
Qed.

Lemma NoDup_map_compose {A B C : Type} (f : A -> B) (g : B -> C)
    (l : list A) :
  NoDup (map (fun x => g (f x)) l) -> NoDup (map f l).
Proof.
  rewrite <- (map_map f g). apply NoDup_map_inv.
Qed.

Section ValidHand.
Variable cards : list Card.
Hypothesis cards_length : length cards = 5%nat.
Hypothesis cards_nodup : NoDup cards.
Hypothesis cards_deck : Forall (fun c => In c new_deck_cards) cards.

Let cards_print : NoDup (map Card_str cards) :=
  valid_hand_str_nodup cards cards_nodup cards_deck.

Variable found : list PokerHand.
Hypothesis found_rank :
  Forall2 (rank_hand cards) (first_of_rank [] cards) found.

Lemma rank_found_in (ph : PokerHand) :
  In ph found -> exists c, In c cards /\ rank_hand cards c ph.
Proof.
  intros H. destruct (Forall2_in_r _ _ _ _ found_rank H) as (c & Hc & R).
  apply first_of_rank_in in Hc. exists c. tauto.
Qed.

Lemma rank_found_nonempty : found <> [].
Proof.
  destruct cards as [| c t]; [discriminate |].
  simpl in found_rank. inversion found_rank. discriminate.
Qed.

Lemma rank_found_scores : NoDup (map (fun ph => snd (score ph)) found).
Proof.
  rewrite (Forall2_map_eq (rank_hand cards) (fun c => SInt (points c))
             (fun ph => snd (score ph)) _ _
             (fun a b (H : rank_hand cards a b) =>
                proj1 (proj2 (proj2 (proj2 H)))) found_rank).
  apply Finite.Injective_map_NoDup_in.
  - intros x y Hx Hy E. injection E as E.
    apply (NoDup_map_inj number (first_of_rank [] cards));
      auto using first_of_rank_numbers.
    apply first_of_rank_in in Hx, Hy.
    assert (Hd := proj1 (Forall_forall _ _) cards_deck).
    apply points_inj_deck; auto; apply Hd; tauto.
  - eapply NoDup_map_inv, first_of_rank_numbers.
Qed.

Lemma rank_hand_primary (c : Card) (ph : PokerHand) :
  rank_hand cards c ph ->
  (primary ph = 8 /\ length (hand_cards ph) = 4%nat) \/
  (primary ph = 4 /\ length (hand_cards ph) = 3%nat) \/
  (primary ph = 2 /\ length (hand_cards ph) = 2%nat) \/
  (primary ph = 1 /\ length (hand_cards ph) = 1%nat).
Proof.
  intros (_ & _ & _ & _ & H). simpl in H.
  destruct H as [H | [H | [H | [H | []]]]]; injection H as <- <-; auto.
Qed.

Lemma rank_hand_kind_ok (c : Card) (ph : PokerHand) :
  rank_hand cards c ph -> kind_ok ph.
Proof.
  intros R. assert (P := rank_hand_primary c ph R).
  destruct R as (_ & _ & _ & E & _). unfold kind_ok. rewrite E. lia.
Qed.

Lemma rank_hand_covers (c : Card) (ph : PokerHand) :
  rank_hand cards c ph -> covers cards ph.
Proof.
  intros (Eh & Ek & _). left. unfold partition_invariant, kicker_list.
  rewrite Eh, Ek.
  eapply perm_trans; [| apply (filter_split_perm (same_number c))].
  apply Permutation_app; [apply group_cards_perm | apply group_kickers_perm].
Qed.

Lemma group_cards_nodup (c : Card) : NoDup (group_cards cards c).
Proof.
  eapply Permutation_NoDup;
    [apply Permutation_sym, group_cards_perm | now apply NoDup_filter].
Qed.

Lemma group_cards_in (c x : Card) :
  In x (group_cards cards c) <-> In x cards /\ number c = number x.
Proof.
  split.
  - intros H. apply (Permutation_in _ (group_cards_perm cards c)) in H.
    apply filter_In in H. unfold same_number in H.
    now rewrite Z.eqb_eq in H.
  - intros [H E].
    apply (Permutation_in _ (Permutation_sym (group_cards_perm cards c))).
    apply filter_In. split; [exact H |]. now apply Z.eqb_eq.
Qed.
End ValidHand.

(** ** The flush pass, the straight pass and the combination pass *)

Lemma analyse_flush_cases (cards : list Card) :
  cards <> [] ->
  exists fl, analyse_flush cards = OK fl /\ whole_hand_pass cards 6 fl.
Proof.
  destruct cards as [| c0 rest]; [congruence |]. intros _.
  unfold analyse_flush.
  destruct (forallb _ _); eexists; (split; [reflexivity |]).
  - right. do 2 eexists. repeat split. right. auto.
  - now left.
Qed.

Lemma check_straight_sorted_total (l : list Z) :
  l <> [] ->
  exists b, check_straight (sorted_desc (fun n => n) Z.leb l) = OK b.
Proof.
  intros Hne.
  assert (P := sorted_desc_perm (fun n => n) Z.leb l).
  destruct (sorted_desc (fun n => n) Z.leb l) as [| x s].
  - apply Permutation_nil in P. contradiction.
  - simpl. eauto.
Qed.

Lemma analyse_straight_cases (cards : list Card) :
  cards <> [] ->
  exists st,
    analyse_straight cards = OK st /\ whole_hand_pass cards 5 st /\
    forall ph, In ph st ->
               exists x, description ph = "Straight," +++ x.
Proof.
  destruct cards as [| c0 rest]; [congruence |]. intros _.
  unfold analyse_straight.
  change (map points (c0 :: rest)) with (points c0 :: map points rest).
  cbn [check_straight bind].
  destruct (check_straight_sorted_total (map number (c0 :: rest)))
    as [b Eb]; [discriminate |].
  assert (Hwheel :
           whole_hand_pass (c0 :: rest) 5
             [mkPokerHand "Straight, 1 to 5" (5, SInt 5) (c0 :: rest)
                          None None])
    by (right; do 2 eexists; repeat split; auto).
  assert (Hplain :
           whole_hand_pass (c0 :: rest) 5
             [mkPokerHand
                ("Straight, " +++ num_conv (points (last (c0 :: rest) c0))
                   false +++ " to " +++ num_conv (points c0) false)
                (5, SInt (points c0)) (c0 :: rest) None None])
    by (right; do 2 eexists; repeat split; auto).
  destruct (straight_loop (map points rest) (points c0) true);
    cbn [negb andb].
  - cbv [bind]. eexists. split; [reflexivity |]. split; [exact Hplain |].
    intros ph [<- | []]. eexists. reflexivity.
  - destruct (points c0 =? 14).
    + rewrite Eb. cbv [bind]. destruct b.
      * eexists. split; [reflexivity |]. split; [exact Hwheel |].
        intros ph [<- | []]. eexists. reflexivity.
      * eexists. split; [reflexivity |]. split; [now left |].
        intros ph [].
    + cbv [bind]. eexists. split; [reflexivity |]. split; [now left |].
      intros ph [].
Qed.

Lemma split_on_nonempty (sep : ascii) (s : string) : split_on sep s <> [].
Proof.
  destruct s as [| c s]; simpl; [discriminate |].
  destruct (Ascii.eqb c sep); [discriminate |].
  destruct (split_on sep s); discriminate.
Qed.

Lemma straight_description_parts (x : string) :
  exists part1 parts,
    split_on "," ("Straight," +++ x) = "Straight" :: part1 :: parts.
Proof.
  destruct (split_on "," x) as [| p ps] eqn:E.
  - now apply split_on_nonempty in E.
  - exists p, ps. simpl. now rewrite E.
Qed.

Lemma filter_primary_none (l : list PokerHand) (ps : list Z) (q : Z) :
  primaries_in ps l -> ~ In q ps ->
  filter (fun x => primary x =? q) l = [].
Proof.
  intros H Hq. apply filter_none. intros h Hh. apply Z.eqb_neq.
  intros E. apply Hq. rewrite <- E. now apply H.
Qed.

Lemma filter_primary_all (l : list PokerHand) (p : Z) :
  primaries_in [p] l -> filter (fun x => primary x =? p) l = l.
Proof.
  intros H. apply filter_all. intros h Hh. apply Z.eqb_eq.
  destruct (H h Hh) as [E | []]. now symmetry.
Qed.

Lemma whole_hand_pass_primaries (cards : list Card) (p : Z)
    (l : list PokerHand) :
  whole_hand_pass cards p l -> primaries_in [p] l.
Proof.
  intros [-> | (ph & n & -> & E & _)] h; [intros [] |].
  intros [<- | []]. left. unfold primary. now rewrite E.
Qed.

(** The last card that passes the test, as the loop over the cards of a
    hand of two pairs keeps it. *)
Lemma fold_last_passing {A : Type} (p : A -> bool) (l : list A) :
  forall k0,
    fold_left (fun k c => if p c then [c] else k) l k0
    = match rev (filter p l) with
      | [] => k0
      | c :: _ => [c]
      end.
Proof.
  induction l as [| x l IH]; intros k0; simpl; [reflexivity |].
  rewrite IH. destruct (p x); simpl; [| reflexivity].
  destruct (rev (filter p l)); reflexivity.
Qed.

Section Combination.
Variable cards : list Card.
Hypothesis cards_length : length cards = 5%nat.
Hypothesis cards_nodup : NoDup cards.
Hypothesis cards_deck : Forall (fun c => In c new_deck_cards) cards.

Let cards_print : NoDup (map Card_str cards) :=
  valid_hand_str_nodup cards cards_nodup cards_deck.

Variables found fl st : list PokerHand.
Hypothesis found_rank :
  Forall2 (rank_hand cards) (first_of_rank [] cards) found.
Hypothesis fl_flush : whole_hand_pass cards 6 fl.
Hypothesis st_straight : whole_hand_pass cards 5 st.
Hypothesis st_description :
  forall ph, In ph st -> exists x, description ph = "Straight," +++ x.

Lemma found_primaries : primaries_in [8; 4; 2; 1] found.
Proof.
  intros h Hh. destruct (rank_found_in cards found found_rank h Hh)
    as (c & _ & R).
  destruct (rank_hand_primary cards c h R)
    as [[-> _] | [[-> _] | [[-> _] | [-> _]]]]; simpl; auto.
Qed.

(** Two groups of different numbers put together. *)
Lemma two_groups (ca cb : Card) (a b : PokerHand) :
  rank_hand cards ca a -> rank_hand cards cb b ->
  number ca <> number cb ->
  NoDup (hand_cards a ++ hand_cards b) /\
  incl (hand_cards a ++ hand_cards b) cards.
Proof.
  intros (Ea & _) (Eb & _) Hn. rewrite Ea, Eb. split.
  - apply NoDup_app; try apply group_cards_nodup; auto.
    intros x Ha Hb. apply group_cards_in in Ha, Hb. apply Hn.
    destruct Ha as [_ Ha], Hb as [_ Hb]. congruence.
  - intros x Hx. apply in_app_or in Hx.
    destruct Hx as [Hx | Hx]; apply group_cards_in in Hx; tauto.
Qed.

Lemma two_pairs_perm (hc : list Card) :
  NoDup hc -> incl hc cards -> length hc = 4%nat ->
  Permutation
    (hc ++ fold_left (fun kickers card =>
                        if negb (printed_in card hc) then [card]
                        else kickers) cards [])
    cards.
Proof.
  intros N I L.
  rewrite (fold_last_passing (fun c => negb (printed_in c hc))).
  assert (Hle : (length (filter (fun c => printed_in c hc) cards) <= 4)%nat).
  { rewrite <- L. apply NoDup_incl_length; [now apply NoDup_filter |].
    intros x Hx. apply filter_In in Hx. destruct Hx as [Hx Hp].
    now apply (printed_in_iff cards hc x cards_print I Hx). }
  assert (Hs := filter_split_length (fun c => printed_in c hc) cards).
  rewrite cards_length in Hs.
  destruct (rev (filter (fun c => negb (printed_in c hc)) cards))
    as [| k r] eqn:Er.
  - apply (f_equal (@length Card)) in Er.
    rewrite length_rev in Er. simpl in Er. lia.
  - assert (Hk : In k (filter (fun c => negb (printed_in c hc)) cards))
      by (apply in_rev; rewrite Er; now left).
    apply filter_In in Hk. destruct Hk as [Hk Hp].
    apply negb_true_iff in Hp.
    assert (Hnot : ~ In k hc).
    { intros H. apply (printed_in_iff cards hc k cards_print I Hk) in H.
      congruence. }
    apply NoDup_Permutation_bis.
    + apply NoDup_app; auto.
      * repeat constructor. intros [].
      * intros x Hx [<- | []]. contradiction.
    + rewrite length_app, L, cards_length. simpl. lia.
    + intros x Hx. apply in_app_or in Hx.
      destruct Hx as [Hx | [<- | []]]; auto.
Qed.

Lemma full_house_perm (hc : list Card) :
  NoDup hc -> incl hc cards -> length hc = 5%nat ->
  Permutation (hc ++ []) cards.
Proof.
  intros N I L. rewrite app_nil_r. apply NoDup_Permutation_bis; auto.
  rewrite L, cards_length. lia.
Qed.

Lemma pair_is_rank (l : list PokerHand) (p : Z) (h : PokerHand) :
  In h (filter (fun x => primary x =? p) found) ->
  primary h = p /\ exists c, In c cards /\ rank_hand cards c h.
Proof.
  intros H. apply filter_In in H. destruct H as [H E].
  apply Z.eqb_eq in E. split; [exact E |].
  now apply (rank_found_in cards found found_rank).
Qed.

Lemma rank_hand_length (c : Card) (h : PokerHand) :
  rank_hand cards c h ->
  (primary h = 2 -> length (hand_cards h) = 2%nat) /\
  (primary h = 4 -> length (hand_cards h) = 3%nat).
Proof.
  intros R. destruct (rank_hand_primary cards c h R)
    as [[E L] | [[E L] | [[E L] | [E L]]]]; rewrite E, L; split; intros H;
    (reflexivity || discriminate).
Qed.
Lemma group_cards_number (c c' : Card) :
  number c = number c' -> group_cards cards c = group_cards cards c'.
Proof.
  intros E. unfold group_cards.
  replace (filter (same_number c') cards)
    with (filter (same_number c) cards); [reflexivity |].
  apply filter_ext. intros x. unfold same_number. now rewrite E.
Qed.

Lemma rank_score1_int (c : Card) (h : PokerHand) :
  rank_hand cards c h -> score1_int h = OK (points c).
Proof.
  intros (_ & _ & _ & E & _). unfold score1_int. now rewrite E.
Qed.

Lemma two_pairs_hand_ok (p q : PokerHand) :
  In p (filter (fun x => primary x =? 2) found) ->
  In q (filter (fun x => primary x =? 2) found) ->
  snd (score p) <> snd (score q) ->
  exists cb, two_pairs_hand cards [p; q] = OK cb /\
             combination_pass cards cb.
Proof.
  intros Hp Hq Hne.
  destruct (pair_is_rank [] 2 p Hp) as (Pp & cp & _ & Rp).
  destruct (pair_is_rank [] 2 q Hq) as (Pq & cq & _ & Rq).
  assert (Sp := rank_score1_int cp p Rp).
  assert (Sq := rank_score1_int cq q Rq).
  assert (Hn : number cp <> number cq).
  { intros E. apply Hne.
    destruct Rp as (_ & _ & _ & -> & _), Rq as (_ & _ & _ & -> & _).
    unfold points. now rewrite E. }
  assert (Lp := proj1 (rank_hand_length cp p Rp) Pp).
  assert (Lq := proj1 (rank_hand_length cq q Rq) Pq).
  assert (Gpq := two_groups cp cq p q Rp Rq Hn).
  assert (Gqp := two_groups cq cp q p Rq Rp (not_eq_sym Hn)).
  unfold two_pairs_hand, sorted_by. cbn [mapM]. rewrite Sp, Sq.
  cbn [bind sorted_desc insert_desc fst].
  destruct (points cq <=? points cp);
    cbn [map snd index nth_error bind]; rewrite Sp, Sq; cbn [bind];
    eexists; (split; [reflexivity |]); right; eexists;
    (split; [reflexivity |]); (split; [simpl; auto |]);
    (split; [unfold kind_ok; simpl; auto |]);
    left; unfold partition_invariant, kicker_list; cbn [hand_cards kickers];
    apply two_pairs_perm; try tauto; rewrite length_app; lia.
Qed.

Lemma full_house_hand_ok (t p : PokerHand) :
  In t (filter (fun x => primary x =? 4) found) ->
  In p (filter (fun x => primary x =? 2) found) ->
  exists cb, full_house_hand [t] [p] = OK cb /\
             combination_pass cards cb.
Proof.
  intros Ht Hp.
  destruct (pair_is_rank [] 4 t Ht) as (Pt & ct & _ & Rt).
  destruct (pair_is_rank [] 2 p Hp) as (Pp & cp & _ & Rp).
  assert (Lt := proj2 (rank_hand_length ct t Rt) Pt).
  assert (Lp := proj1 (rank_hand_length cp p Rp) Pp).
  assert (Hn : number ct <> number cp).
  { intros E. apply group_cards_number in E.
    destruct Rt as (Et & _), Rp as (Ep & _). rewrite Et in Lt.
    rewrite Ep in Lp. rewrite E in Lt. lia. }
  assert (G := two_groups ct cp t p Rt Rp Hn).
  unfold full_house_hand. cbn [index nth_error bind].
  rewrite (rank_score1_int ct t Rt), (rank_score1_int cp p Rp).
  cbn [bind]. eexists. split; [reflexivity |]. right. eexists.
  split; [reflexivity |]. split; [simpl; auto |].
  split; [unfold kind_ok; simpl; auto |].
  left. unfold partition_invariant, kicker_list. cbn [hand_cards kickers].
  apply full_house_perm; try tauto. rewrite length_app. lia.
Qed.

Lemma straight_flush_hand_ok :
  exists cb,
    (if (length st =? 1)%nat && (length fl =? 1)%nat
     then straight_flush_hand cards st fl
     else OK []) = OK cb /\
    combination_pass cards cb.
Proof.
  destruct st_straight as [-> | (s & n & -> & Es & Hs & Ks)];
    [exists []; split; [reflexivity | now left] |].
  destruct fl_flush as [-> | (f & m & -> & Ef & Hf & Kf)];
    [exists []; split; [reflexivity | now left] |].
  cbn [length Nat.eqb andb]. unfold straight_flush_hand.
  cbn [index nth_error bind].
  assert (Hd : exists d,
             (if score1_is s 14 then OK "Royal Flush"
              else
                part0 <- index (split_on "," (description s)) 0 ;;
                part1 <- index (split_on "," (description s)) 1 ;;
                OK (part0 +++ " Flush," +++ part1)) = OK d).
  { destruct (score1_is s 14); [now eexists |].
    destruct (st_description s (or_introl eq_refl)) as [x ->].
    destruct (straight_description_parts x) as (p1 & ps & ->).
    cbn [index nth_error bind]. now eexists. }
  destruct Hd as [d ->]. cbn [bind].
  eexists. split; [reflexivity |]. right. eexists.
  split; [reflexivity |]. split; [simpl; auto |].
  split; [unfold kind_ok, primary; simpl; rewrite Es; simpl; lia |].
  left. unfold partition_invariant, kicker_list. cbn [hand_cards kickers].
  rewrite app_nil_r. apply Permutation_refl.
Qed.

Lemma analyse_combination_cases :
  exists cb,
    analyse_combination_hands cards (found ++ fl ++ st) = OK cb /\
    combination_pass cards cb.
Proof.
  assert (Pf := found_primaries).
  assert (Pfl := whole_hand_pass_primaries _ _ _ fl_flush).
  assert (Pst := whole_hand_pass_primaries _ _ _ st_straight).
  unfold analyse_combination_hands. cbv zeta. rewrite !filter_app.
  rewrite (filter_primary_none fl [6] 2 Pfl) by (simpl; lia).
  rewrite (filter_primary_none st [5] 2 Pst) by (simpl; lia).
  rewrite (filter_primary_none fl [6] 4 Pfl) by (simpl; lia).
  rewrite (filter_primary_none st [5] 4 Pst) by (simpl; lia).
  rewrite (filter_primary_none found [8; 4; 2; 1] 5 Pf) by (simpl; lia).
  rewrite (filter_primary_none fl [6] 5 Pfl) by (simpl; lia).
  rewrite (filter_primary_none found [8; 4; 2; 1] 6 Pf) by (simpl; lia).
  rewrite (filter_primary_none st [5] 6 Pst) by (simpl; lia).
  rewrite (filter_primary_all st 5 Pst), (filter_primary_all fl 6 Pfl).
  cbn [app]. rewrite !app_nil_r.
  assert (SF := straight_flush_hand_ok).
  assert (N2 : NoDup (map (fun ph => snd (score ph))
                          (filter (fun x => primary x =? 2) found)))
    by (apply NoDup_map_filter, (rank_found_scores cards); auto).
  assert (TP := two_pairs_hand_ok).
  assert (FH := full_house_hand_ok).
  destruct (filter (fun x => primary x =? 2) found)
    as [| p [| q [| r pairs]]]; cbn [length Nat.eqb andb].
  - destruct (Nat.eqb (length (filter (fun x => primary x =? 4) found)) 1);
      exact SF.
  - destruct (filter (fun x => primary x =? 4) found)
      as [| t [| t' threes]]; cbn [length Nat.eqb andb]; try exact SF.
    apply FH; now left.
  - apply TP; [now left | right; now left |].
    inversion N2 as [| ? ? Hnot _]; subst. intros E. apply Hnot.
    left. now symmetry.
  - destruct (Nat.eqb (length (filter (fun x => primary x =? 4) found)) 1);
      exact SF.
Qed.
End Combination.

(** ** All the candidates of a hand *)

Lemma NoDup_scores_app (ps1 ps2 : list Z) (l1 l2 : list PokerHand) :
  primaries_in ps1 l1 -> primaries_in ps2 l2 ->
  (forall z, In z ps1 -> In z ps2 -> False) ->
  NoDup (map score l1) -> NoDup (map score l2) ->
  NoDup (map score (l1 ++ l2)) /\ primaries_in (ps1 ++ ps2) (l1 ++ l2).
Proof.
  intros P1 P2 D N1 N2. split.
  - rewrite map_app. apply NoDup_app; auto.
    intros s H1 H2. apply in_map_iff in H1, H2.
    destruct H1 as (a & <- & Ha), H2 as (b & E & Hb).
    apply (D (primary a)); [now apply P1 |].
    unfold primary. rewrite <- E. now apply P2.
  - intros h Hh. apply in_or_app. apply in_app_or in Hh.
    destruct Hh; [left; now apply P1 | right; now apply P2].
Qed.

Lemma whole_hand_pass_facts (cards : list Card) (p : Z)
    (l : list PokerHand) :
  (p = 5 \/ p = 6) -> whole_hand_pass cards p l ->
  NoDup (map score l) /\ Forall kind_ok l /\ Forall (covers cards) l.
Proof.
  intros Hp [-> | (ph & n & -> & E & Hh & Hk)].
  - repeat split; constructor.
  - split; [repeat constructor; intros [] |]. split.
    + constructor; [| constructor].
      unfold kind_ok, primary. rewrite E. simpl. lia.
    + constructor; [| constructor]. destruct Hk as [Hk | [-> Hk]].
      * left. unfold partition_invariant, kicker_list.
        rewrite Hk, Hh, app_nil_r. apply Permutation_refl.
      * right. unfold primary. rewrite E, Hk, Hh.
        repeat split. apply Permutation_refl.
Qed.

Section Candidates.
Variable cards : list Card.
Hypothesis cards_length : length cards = 5%nat.
Hypothesis cards_nodup : NoDup cards.
Hypothesis cards_deck : Forall (fun c => In c new_deck_cards) cards.

(** The evaluator finds candidates for every hand of five deck cards:
    the groups of the rank pass first, all with different scores, all
    keeping the invariant. *)
Lemma hand_candidates_valid :
  exists found others,
    analyse_same_number_hands cards = OK found /\
    Forall2 (rank_hand cards) (first_of_rank [] cards) found /\
    hand_candidates cards = OK (found ++ others) /\
    found <> [] /\
    Forall kind_ok (found ++ others) /\
    NoDup (map score (found ++ others)) /\
    Forall (covers cards) (found ++ others).
Proof.
  assert (Hne : cards <> []) by (destruct cards; discriminate).
  destruct (rank_pass_deck cards cards_nodup cards_deck)
    as (found & Ef & Hf).
  rewrite <- (analyse_same_number_hands_rank_pass cards
                (valid_hand_str_nodup cards cards_nodup cards_deck)) in Ef.
  destruct (analyse_flush_cases cards Hne) as (fl & Efl & Hfl).
  destruct (analyse_straight_cases cards Hne) as (st & Est & Hst & Hd).
  destruct (analyse_combination_cases cards cards_length cards_nodup
              cards_deck found fl st Hf Hfl Hst Hd) as (cb & Ecb & Hcb).
  exists found, ((fl ++ st) ++ cb). split; [exact Ef |].
  split; [exact Hf |].
  split.
  { unfold hand_candidates. rewrite Ef, Efl, Est. cbn [bind].
    rewrite Ecb. cbn [bind]. now rewrite <- !app_assoc. }
  split; [eapply rank_found_nonempty; eauto |].
  destruct (whole_hand_pass_facts cards 6 fl (or_intror eq_refl) Hfl)
    as (Nfl & Kfl & Cfl).
  destruct (whole_hand_pass_facts cards 5 st (or_introl eq_refl) Hst)
    as (Nst & Kst & Cst).
  assert (Kf : Forall kind_ok found /\ Forall (covers cards) found).
  { split; apply Forall_forall; intros h Hh;
      destruct (rank_found_in cards found Hf h Hh) as (c & _ & R).
    - eapply rank_hand_kind_ok; eauto.
    - eapply rank_hand_covers; eauto. }
  assert (Kcb : NoDup (map score cb) /\ Forall kind_ok cb /\
                Forall (covers cards) cb /\ primaries_in [3; 7; 9] cb).
  { destruct Hcb as [-> | (ph & -> & Hp & Hk & Hc)].
    - split; [constructor |]. split; [constructor |].
      split; [constructor |]. intros x [].
    - split; [repeat constructor; intros [] |].
      split; [constructor; [exact Hk | constructor] |].
      split; [constructor; [exact Hc | constructor] |].
      intros x [<- | []]. exact Hp. }
  destruct Kf as [Kf Cf]. destruct Kcb as (Ncb & Kcb & Ccb & Pcb).
  split; [repeat (apply Forall_app; split); auto |].
  split; [| repeat (apply Forall_app; split); auto].
  assert (Nf : NoDup (map score found)).
  { apply (NoDup_map_compose score snd).
    apply (rank_found_scores cards cards_deck found Hf). }
  destruct (NoDup_scores_app [6] [5] fl st) as [N1 P1]; auto.
  { now apply whole_hand_pass_primaries with cards. }
  { now apply whole_hand_pass_primaries with cards. }
  { simpl. lia. }
  destruct (NoDup_scores_app _ _ (fl ++ st) cb P1 Pcb) as [N2 P2]; auto.
  { simpl. lia. }
  destruct (NoDup_scores_app _ _ found ((fl ++ st) ++ cb)
              (found_primaries cards found Hf) P2) as [N3 _]; auto.
  simpl. lia.
Qed.

Lemma analyse_poker_hand_valid :
  exists ph, analyse_poker_hand cards = OK ph /\ covers cards ph.
Proof.
  destruct hand_candidates_valid
    as (found & others & _ & _ & E & Hne & Hk & N & C).
  destruct (order_hands_distinct_scores (found ++ others))
    as (w & Ew & Hw); auto.
  { destruct found; [congruence | discriminate]. }
  unfold analyse_poker_hand. rewrite E. cbn [bind]. rewrite Ew. cbn.
  exists w. split; [reflexivity |].
  rewrite Forall_forall in C. now apply C.
Qed.
End Candidates.

Lemma valid_hand_sorted (cs : list Card) :
  valid_hand cs ->
  length (sorted_desc points Z.leb cs) = 5%nat /\
  NoDup (sorted_desc points Z.leb cs) /\
  Forall (fun c => In c new_deck_cards) (sorted_desc points Z.leb cs).
Proof.
  intros (L & N & D).
  assert (P := sorted_desc_perm points Z.leb cs).
  split; [now rewrite sorted_desc_length |]. split.
  - eapply Permutation_NoDup; [apply Permutation_sym, P | exact N].
  - eapply Permutation_Forall; [apply Permutation_sym, P | exact D].
Qed.

Lemma covers_perm (cs cs' : list Card) (h : PokerHand) :
  Permutation cs cs' -> covers cs h -> covers cs' h.
Proof.
  intros P [H | (H1 & H2 & H3)]; [left | right].
  - unfold partition_invariant in *. eapply perm_trans; eauto.
  - repeat split; auto. eapply perm_trans; eauto.
Qed.

Lemma covers_union (cs : list Card) (h : PokerHand) :
  NoDup cs -> covers cs h -> union_invariant cs h.
Proof.
  intros N [P | (_ & Ek & P)]; unfold union_invariant.
  - unfold partition_invariant in P.
    assert (N' : NoDup (hand_cards h ++ kicker_list h))
      by (eapply Permutation_NoDup; [apply Permutation_sym, P | exact N]).
    split; [eapply NoDup_app_remove_r; exact N' |].
    split; [eapply NoDup_app_remove_l; exact N' |].
    intros c. rewrite <- in_app_iff. split; apply Permutation_in; auto.
    now apply Permutation_sym.
  - unfold kicker_list. rewrite Ek.
    assert (N' : NoDup (hand_cards h))
      by (eapply Permutation_NoDup; [apply Permutation_sym, P | exact N]).
    repeat split; auto.
    + intros H. left. eapply Permutation_in; [apply Permutation_sym, P | auto].
    + intros [H | H]; eapply Permutation_in; eauto.
Qed.

(** ** The evaluator on hands of five deck cards *)

Lemma distinct_cards_nodup (l : list Card) :
  distinct_cards l = true -> NoDup l.
Proof.
  induction l as [| c l IH]; simpl; intros H; [constructor |].
  apply andb_true_iff in H. destruct H as [H1 H2].
  constructor; [| now apply IH].
  intros Hin. apply negb_true_iff in H1.
  assert (existsb (Card_eqb c) l = true); [| congruence].
  apply existsb_exists. exists c. split; [exact Hin | now apply Card_eqb_eq].
Qed.

Lemma new_deck_cards_nodup : NoDup new_deck_cards.
Proof. apply distinct_cards_nodup. vm_compute. reflexivity. Qed.

Lemma flush_cards_valid : valid_hand flush_cards.
Proof.
  split; [reflexivity |]. split.
  - apply distinct_cards_nodup. reflexivity.
  - repeat (apply Forall_cons;
            [apply in_new_deck_cards; simpl; split; [lia | auto 6] |]).
    apply Forall_nil.
Defined.

(** C1 (as the claim words it, refuted). The flush of [simple_tests] is
    evaluated to a hand whose kickers are its five hand cards again: hand
    cards and kickers together list every card twice, they do not
    partition the hand. *)
Lemma flush_breaks_partition :
  valid_hand flush_cards /\
  exists hand,
    HandOfCards_test flush_cards = OK hand /\
    hand_cards (poker_hand hand) = flush_cards /\
    kickers (poker_hand hand) = Some flush_cards /\
    ~ partition_invariant flush_cards (poker_hand hand).
Proof.
  split; [exact flush_cards_valid |].
  eexists. split; [vm_compute; reflexivity |].
  split; [reflexivity |]. split; [reflexivity |].
  intros P. apply Permutation_length in P. discriminate.
Qed.

(** Five different cards of the deck are evaluated, and the hand found
    keeps the invariant with respect to the cards as they were given. *)
Lemma HandOfCards_test_valid (cs : list Card) :
  valid_hand cs ->
  exists hand,
    HandOfCards_test cs = OK hand /\
    cards hand = sorted_desc points Z.leb cs /\
    covers cs (poker_hand hand).
Proof.
  intros V. destruct (valid_hand_sorted cs V) as (L & N & D).
  destruct (analyse_poker_hand_valid _ L N D) as (ph & E & C).
  unfold HandOfCards_test. rewrite E. cbn [bind].
  eexists. split; [reflexivity |]. split; [reflexivity |].
  cbn [poker_hand]. eapply covers_perm; [| exact C].
  apply (sorted_desc_perm points Z.leb).
Qed.

(** C1 (amended). For five different cards of the deck the evaluator
    returns a hand; its hand cards and its kickers are, as sets, exactly the
    five cards, and neither list repeats a card.  The two lists share no
    card, so that together they list each card once, except when the hand
    is a flush: the kickers of a flush are its hand cards, all five. *)
Theorem analyse_poker_hand_invariant (cs : list Card) :
  valid_hand cs ->
  exists hand,
    HandOfCards_test cs = OK hand /\
    union_invariant cs (poker_hand hand) /\
    covers cs (poker_hand hand).
Proof.
  intros V. destruct (HandOfCards_test_valid cs V) as (hand & E & _ & C).
  exists hand. split; [exact E |]. split; [| exact C].
  apply covers_union; [apply V | exact C].
Qed.

Lemma analyse_poker_hand_invariant_witness :
  exists hand,
    HandOfCards_test flush_cards = OK hand /\
    union_invariant flush_cards (poker_hand hand) /\
    covers flush_cards (poker_hand hand).
Proof.
  apply (analyse_poker_hand_invariant flush_cards). exact flush_cards_valid.
Defined.

(** C9. Evaluation is a function of the cards.  Building a hand from a
    list sorts the list in place; building a second hand from the same
    list, as the first left it, gives the same result, be it a hand or an
    error.  For five different cards of the deck the result is a hand, and
    evaluating its cards again gives this very hand: same description,
    score, hand cards and kickers. *)
Theorem evaluation_idempotent (cs : list Card) :
  HandOfCards_test (sorted_desc points Z.leb cs) = HandOfCards_test cs /\
  (valid_hand cs ->
   exists hand,
     HandOfCards_test cs = OK hand /\
     HandOfCards_test (cards hand) = OK hand).
Proof.
  assert (E : HandOfCards_test (sorted_desc points Z.leb cs)
              = HandOfCards_test cs).
  { unfold HandOfCards_test.
    now rewrite (sorted_desc_idem points Z.leb Zleb_total Zleb_trans). }
  split; [exact E |].
  intros V. destruct (HandOfCards_test_valid cs V) as (hand & H & Ec & _).
  exists hand. split; [exact H |]. now rewrite Ec, E.
Qed.

Lemma evaluation_idempotent_witness :
  exists hand,
    HandOfCards_test flush_cards = OK hand /\
    HandOfCards_test (cards hand) = OK hand.
Proof.
  apply (proj2 (evaluation_idempotent flush_cards)). exact flush_cards_valid.
Defined.

(** ** The kickers of the rank-grouping candidates *)

Lemma sorted_by_number (l : list Card) :
  StronglySorted (fun a b => number b <= number a)
                 (sorted_desc number Z.leb l).
Proof.
  assert (H := sorted_desc_sorted number Z.leb Zleb_total Zleb_trans l).
  induction H as [| x s _ IH Hall]; constructor; [exact IH |].
  eapply Forall_impl; [| exact Hall].
  intros y Hy. unfold desc in Hy. now apply Z.leb_le.
Qed.

Lemma StronglySorted_after {A : Type} (R : A -> A -> Prop)
    (front back : list A) (x : A) :
  StronglySorted R (front ++ x :: back) -> Forall (R x) back.
Proof.
  induction front as [| y front IH]; simpl; intros H;
    inversion H as [| ? ? Hs Hall]; subst; auto.
Qed.

(** C4. For five different cards of the deck, every candidate of the
    rank-grouping pass stands for the cards of one number: its hand cards
    are the cards of the hand with that number, and its kickers are the
    other cards of the hand, ordered by decreasing number, not by points.
    So an ace among the kickers comes last, only aces can follow it,
    although it counts 14 points; the secondary score of a candidate is the
    points of its group, 14 for aces. *)
Theorem rank_group_kickers (cs : list Card) :
  valid_hand cs ->
  exists found others,
    analyse_same_number_hands (sorted_desc points Z.leb cs) = OK found /\
    hand_candidates (sorted_desc points Z.leb cs) = OK (found ++ others) /\
    found <> [] /\
    forall ph,
      In ph found ->
      exists card ks,
        In card cs /\
        Permutation (hand_cards ph) (filter (same_number card) cs) /\
        kickers ph = Some ks /\
        Permutation ks (filter (fun c => negb (same_number card c)) cs) /\
        StronglySorted (fun a b => number b <= number a) ks /\
        snd (score ph) = SInt (points card) /\
        (forall front ace back,
            ks = front ++ ace :: back -> number ace = 1 ->
            points ace = 14 /\ Forall (fun c => number c = 1) back).
Proof.
  intros V. destruct (valid_hand_sorted cs V) as (L & N & D).
  assert (P := sorted_desc_perm points Z.leb cs).
  destruct (hand_candidates_valid _ L N D)
    as (found & others & Ef & Hf & Ec & Hne & _).
  exists found, others. repeat (split; [assumption |]).
  intros ph Hph.
  destruct (rank_found_in _ found Hf ph Hph) as (card & Hc & R).
  destruct R as (Eh & Ek & _ & Es & _).
  exists card, (group_kickers (sorted_desc points Z.leb cs) card).
  split; [now apply (Permutation_in _ P) |].
  split.
  { rewrite Eh. eapply perm_trans; [apply group_cards_perm |].
    now apply Permutation_filter. }
  split; [exact Ek |].
  split.
  { eapply perm_trans; [apply group_kickers_perm |].
    now apply Permutation_filter. }
  split; [apply sorted_by_number |].
  split; [exact Es |].
  intros front ace back E Hace.
  split; [unfold points; now rewrite Hace |].
  assert (Hs := sorted_by_number
                  (filter (fun c => negb (same_number card c))
                          (sorted_desc points Z.leb cs))).
  fold (group_kickers (sorted_desc points Z.leb cs) card) in Hs.
  rewrite E in Hs. apply StronglySorted_after in Hs.
  apply Forall_forall. intros c Hcb.
  rewrite Forall_forall in Hs. specialize (Hs c Hcb). simpl in Hs.
  assert (Hin : In c (sorted_desc points Z.leb cs)).
  { assert (Hk : In c (group_kickers (sorted_desc points Z.leb cs) card))
      by (rewrite E; apply in_or_app; right; now right).
    apply (Permutation_in _ (group_kickers_perm _ card)) in Hk.
    now apply filter_In in Hk. }
  rewrite Forall_forall in D. apply D, in_new_deck_cards in Hin. lia.
Qed.

Lemma pair_of_threes_cards_valid : valid_hand pair_of_threes_cards.
Proof.
  split; [reflexivity |]. split.
  - apply distinct_cards_nodup. reflexivity.
  - repeat (apply Forall_cons;
            [apply in_new_deck_cards; simpl; split; [lia | auto 6] |]).
    apply Forall_nil.
Defined.

Lemma rank_group_kickers_witness :
  exists found others,
    analyse_same_number_hands (sorted_desc points Z.leb pair_of_threes_cards)
    = OK found /\
    hand_candidates (sorted_desc points Z.leb pair_of_threes_cards)
    = OK (found ++ others) /\
    found <> [] /\
    forall ph,
      In ph found ->
      exists card ks,
        In card pair_of_threes_cards /\
        Permutation (hand_cards ph)
                    (filter (same_number card) pair_of_threes_cards) /\
        kickers ph = Some ks /\
        Permutation ks
          (filter (fun c => negb (same_number card c))
                  pair_of_threes_cards) /\
        StronglySorted (fun a b => number b <= number a) ks /\
        snd (score ph) = SInt (points card) /\
        (forall front ace back,
            ks = front ++ ace :: back -> number ace = 1 ->
            points ace = 14 /\ Forall (fun c => number c = 1) back).
Proof.
  apply (rank_group_kickers pair_of_threes_cards).
  exact pair_of_threes_cards_valid.
Defined.

(** In the hand of a pair of 3s with an ace, a 7 and a 5, the ace comes
    last among the kickers of the pair, after the 5, while the candidate
    "Ace high" of the same hand scores 14. *)
Example ace_kicker_sorts_low :
  exists pair_of_3s seven_high five_high ace_high,
    analyse_same_number_hands
      (sorted_desc points Z.leb pair_of_threes_cards)
    = OK [ace_high; seven_high; five_high; pair_of_3s] /\
    description pair_of_3s = "Pair, 3s" /\
    kickers pair_of_3s
    = Some [mkCard 7 "heart"; mkCard 5 "diamond"; mkCard 1 "spade"] /\
    description ace_high = "Ace high" /\
    score ace_high = (1, SInt 14).
Proof. vm_compute. do 4 eexists. repeat split. Qed.

(** ** Five of a kind and the deck *)

Lemma pick_cards_spec (n : nat) :
  forall deck picked deck',
    pick_cards n deck = OK (picked, deck') ->
    deck = deck' ++ rev picked /\ length picked = n.
Proof.
  induction n as [| n IH]; intros deck picked deck' H; simpl in H.
  - injection H as <- <-. now rewrite app_nil_r.
  - destruct (pick_card deck) as [[card d1] |] eqn:E1; [| discriminate].
    cbn [bind] in H.
    destruct (pick_cards n d1) as [[p d2] |] eqn:E2; [| discriminate].
    cbn [bind] in H. injection H as <- <-.
    apply pick_card_ok_iff in E1.
    destruct (IH _ _ _ E2) as [-> <-]. subst deck. split; [| reflexivity].
    simpl. now rewrite <- !app_assoc.
Qed.

Lemma picked_valid (deck picked deck' : list Card) :
  deck_in_use deck -> pick_cards 5 deck = OK (picked, deck') ->
  valid_hand picked.
Proof.
  intros (shuffled & gone & P & E) H.
  apply pick_cards_spec in H. destruct H as [-> L].
  assert (N : NoDup shuffled)
    by (eapply Permutation_NoDup;
        [apply Permutation_sym, P | exact new_deck_cards_nodup]).
  rewrite E, <- app_assoc in N.
  apply NoDup_app_remove_l, NoDup_app_remove_r in N.
  split; [exact L |]. split.
  - apply NoDup_rev in N. now rewrite rev_involutive in N.
  - apply Forall_forall. intros c Hc.
    apply (Permutation_in _ P). rewrite E.
    apply in_or_app. left. apply in_or_app. right. now apply in_rev in Hc.
Qed.

(** C7. A hand of five cards of one number is not evaluated: the rank pass
    raises [ValueError].  This cannot happen to five cards picked from a
    deck in use, that is from what is left of a shuffle of the 52 cards:
    they are five different deck cards, not all of one number, and their
    hand is evaluated. *)
Theorem five_of_a_kind_fails :
  (forall cs n,
      length cs = 5%nat -> Forall (fun c => number c = n) cs ->
      HandOfCards_test cs = Err ValueError) /\
  (forall deck picked deck',
      deck_in_use deck -> pick_cards 5 deck = OK (picked, deck') ->
      valid_hand picked /\
      (forall n, ~ Forall (fun c => number c = n) picked) /\
      exists hand, HandOfCards_deck deck 5 = OK (hand, deck')).
Proof.
  split.
  - intros cs n L F. unfold HandOfCards_test.
    rewrite (sorted_same_points cs (if negb (n =? 1) then n else 14)).
    + destruct cs as [| c1 [| c2 [| c3 [| c4 [| c5 [| ? ?]]]]]];
        try discriminate.
      unfold analyse_poker_hand, hand_candidates.
      rewrite five_of_a_kind_raises; [reflexivity | | | |];
        rewrite Forall_forall in F;
        rewrite (F c1) by (simpl; auto);
        apply F; simpl; auto 6.
    + eapply Forall_impl; [| exact F].
      intros c Hc. unfold points. simpl in Hc. now rewrite Hc.
  - intros deck picked deck' U H.
    assert (V := picked_valid _ _ _ U H). split; [exact V |]. split.
    + intros n F. destruct V as (L & N & D).
      assert (Hle := same_number_at_most_four picked n N D F). lia.
    + destruct (HandOfCards_test_valid picked V) as (hand & E & _).
      unfold HandOfCards_deck. rewrite H. cbn [bind].
      unfold HandOfCards_test in E.
      destruct (analyse_poker_hand (sorted_desc points Z.leb picked));
        [| discriminate].
      cbn [bind]. eexists. reflexivity.
Qed.

Lemma five_of_a_kind_fails_witness :
  HandOfCards_test
    [mkCard 3 "club"; mkCard 3 "heart"; mkCard 3 "diamond";
     mkCard 3 "spade"; mkCard 3 "club"] = Err ValueError /\
  exists hand deck',
    HandOfCards_deck stacked_deck 5 = OK (hand, deck').
Proof.
  split.
  - apply (proj1 five_of_a_kind_fails _ 3); [reflexivity |].
    repeat constructor.
  - destruct (pick_cards 5 stacked_deck) as [[picked deck'] |] eqn:E;
      [| vm_compute in E; discriminate].
    destruct (proj2 five_of_a_kind_fails stacked_deck picked deck')
      as (_ & _ & hand & H).
    + exists stacked_deck, []. split; [| now rewrite app_nil_r].
      apply same_cards_perm. vm_compute. reflexivity.
    + exact E.
    + exists hand, deck'. exact H.
Defined.

(** Two hands that tie without kickers cannot be ranked: two straights from
    4 to 8 have the same score and [None] for kickers, and building the
    sort keys of the kicker comparison raises. *)
Example order_hands_tied_straights :
  exists h1 h2,
    tied_straights = [h1; h2] /\
    score h1 = (5, SInt 8) /\ score h2 = (5, SInt 8) /\
    kickers h1 = None /\ kickers h2 = None /\
    order_hands [h1; h2] = Err TypeError.
Proof. vm_compute. do 2 eexists. repeat split. Qed.

(** * Further properties *)

(** ** The ranker: what [order_hands] returns *)

Section SortedBySorted.
Context {K : Type} (f : PokerHand -> result K) (leb : K -> K -> bool).
Hypothesis leb_total : forall a b, leb a b = true \/ leb b a = true.
Hypothesis leb_trans :
  forall a b c, leb a b = true -> leb b c = true -> leb a c = true.

(** The whole list sorted by a key is in decreasing order of the keys. *)
Lemma sorted_by_sorted (l l' : list PokerHand) :
  sorted_by f leb l = OK l' ->
  StronglySorted
    (fun a b => exists ka kb, f a = OK ka /\ f b = OK kb /\ leb kb ka = true)
    l'.
Proof.
  unfold sorted_by.
  destruct (mapM (fun h => k <- f h ;; OK (k, h)) l) as [keyed |] eqn:E;
    [| discriminate].
  cbn [bind]. intros H. injection H as <-.
  apply mapM_keyed_inv in E. destruct E as [_ Hf].
  assert (Hs := sorted_desc_sorted fst leb leb_total leb_trans keyed).
  assert (Hf' : Forall (fun kh => f (snd kh) = OK (fst kh))
                       (sorted_desc fst leb keyed)).
  { apply Forall_forall. intros kh Hin.
    apply (proj1 (Forall_forall _ _) Hf).
    apply (sorted_desc_in fst leb keyed kh). exact Hin. }
  induction Hs as [| kh ks Hs IH Hall]; simpl; constructor.
  - apply IH. now inversion Hf'.
  - inversion Hf' as [| ? ? Hkh Hks]; subst.
    rewrite Forall_forall in Hall, Hks. apply Forall_forall.
    intros b Hb. apply in_map_iff in Hb. destruct Hb as (kb & <- & Hkb).
    exists (fst kh), (fst kb). repeat split; auto. now apply Hall.
Qed.
End SortedBySorted.

(** The hands of the highest category are the hands that no hand beats in
    category. *)
Lemma highest_hands_in (hand_list : list PokerHand) (h : PokerHand) :
  In h (highest_hands hand_list) <->
  In h hand_list /\ forall x, In x hand_list -> primary x <= primary h.
Proof.
  unfold highest_hands, sorted_hands.
  assert (P := sorted_desc_perm primary Z.leb hand_list).
  assert (S := sorted_desc_sorted primary Z.leb Zleb_total Zleb_trans
                 hand_list).
  destruct (sorted_desc primary Z.leb hand_list) as [| top l].
  - apply Permutation_nil in P. subst. simpl. tauto.
  - assert (Hmax : forall x, In x hand_list -> primary x <= primary top).
    { intros x Hx. apply (Permutation_in _ (Permutation_sym P)) in Hx.
      inversion S as [| ? ? _ Hall]; subst.
      destruct Hx as [<- | Hx]; [lia |].
      rewrite Forall_forall in Hall. specialize (Hall x Hx).
      unfold desc in Hall. now apply Z.leb_le. }
    rewrite filter_In, Z.eqb_eq. split.
    + intros [Hin E]. split; [now apply (Permutation_in _ P) |].
      intros x Hx. rewrite E. now apply Hmax.
    + intros [Hin Hh]. split;
        [now apply (Permutation_in _ (Permutation_sym P)) |].
      assert (primary top <= primary h)
        by (apply Hh, (Permutation_in _ P); now left).
      specialize (Hmax h Hin). lia.
Qed.

Lemma filtered_hands_filter (shh fh : list PokerHand) :
  filtered_hands shh = Some fh -> exists p, fh = filter p shh.
Proof.
  unfold filtered_hands.
  destruct shh as [| s0 [| s1 rest]]; try discriminate.
  destruct (snd (score s0)) as [n0 | a0 b0],
           (snd (score s1)) as [n1 | a1 b1]; try discriminate.
  - destruct (n0 =? n1); [| discriminate]. intros H.
    exists (fun x => match snd (score x) with
                     | SInt n => n =? n0
                     | STuple _ _ => false
                     end).
    congruence.
  - destruct (a0 =? a1); [| discriminate].
    destruct (b0 =? b1); [| discriminate]. intros H.
    exists (fun x => match snd (score x) with
                     | STuple a b => truthy2 (a =? a0, b =? b0)
                     | SInt _ => truthy2 (false, false)
                     end).
    congruence.
Qed.

(** The two ways in which [order_hands] returns. *)
Lemma order_hands_inv (hand_list : list PokerHand) (w : PokerHand) (k : Z) :
  order_hands hand_list = OK (w, k) ->
  exists shh,
    sorted_high_hands hand_list = OK shh /\
    ((filtered_hands shh = None /\ k = -2 /\ exists r, shh = w :: r) \/
     (exists fh h1 rest k0 k1,
         filtered_hands shh = Some fh /\
         sorted_by sort_term tuple_leb fh = OK (w :: h1 :: rest) /\
         kickers w = Some k0 /\ kickers h1 = Some k1 /\
         kicker_scan k0 (Some h1) 0 = OK k)).
Proof.
  intros H. unfold order_hands in H.
  destruct (sorted_high_hands hand_list) as [shh |] eqn:Es; [| discriminate].
  exists shh. split; [reflexivity |]. cbn [bind] in H.
  destruct (filtered_hands shh) as [fh |] eqn:Ef.
  - right. unfold sort_by_high_cards in H.
    destruct (sorted_by sort_term tuple_leb fh) as [ks |] eqn:Eks;
      [| discriminate].
    cbn [bind] in H.
    destruct (filtered_hands_some _ _ Ef) as (x0 & x1 & t & t' & _ & _ & ->).
    assert (Hl := Permutation_length (sorted_by_perm _ _ _ _ Eks)).
    simpl in Hl. destruct ks as [| h0 [| h1 ks]]; try discriminate.
    assert (Hk := sorted_by_keys_ok _ _ _ _ Eks).
    assert (Hk1 : exists k1, kickers h1 = Some k1).
    { rewrite Forall_forall in Hk.
      destruct (Hk h1) as [p Hp].
      - apply (Permutation_in _ (sorted_by_perm _ _ _ _ Eks)).
        right. now left.
      - unfold sort_term in Hp. destruct (kickers h1); [eauto | discriminate]. }
    destruct Hk1 as [k1 Hk1].
    destruct (kickers h0) as [k0 |] eqn:Hk0; [| discriminate].
    cbn [nth_error] in H.
    destruct (kicker_scan k0 (Some h1) 0) as [k' |] eqn:Hscan;
      [| discriminate].
    cbn in H. injection H as <- <-.
    exists (x0 :: x1 :: t'), h1, ks, k0, k1. auto.
  - left. cbn in H. destruct shh as [| s0 r]; [discriminate |].
    injection H as <- <-. eauto.
Qed.

Lemma order_hands_winner_highest (hand_list : list PokerHand)
    (w : PokerHand) (k : Z) :
  order_hands hand_list = OK (w, k) -> In w (highest_hands hand_list).
Proof.
  intros H. destruct (order_hands_inv _ _ _ H) as (shh & Es & Hcase).
  assert (P := sorted_high_hands_perm _ _ Es).
  destruct Hcase
    as [(_ & _ & r & ->) | (fh & h1 & rest & k0 & k1 & Ef & Eks & _)].
  - apply (Permutation_in _ P). now left.
  - apply (Permutation_in _ P).
    destruct (filtered_hands_filter _ _ Ef) as [p ->].
    assert (Hin : In w (filter p shh))
      by (apply (Permutation_in _ (sorted_by_perm _ _ _ _ Eks)); now left).
    now apply filter_In in Hin.
Qed.

(** The hand that [order_hands] returns is one of the hands given, and no
    hand given is of a higher category; the empty list has no best hand,
    [order_hands] raises [IndexError] on it. *)
Theorem order_hands_best_category (hand_list : list PokerHand) :
  order_hands [] = Err IndexError /\
  forall w k,
    order_hands hand_list = OK (w, k) ->
    hand_list <> [] /\ In w hand_list /\
    forall h, In h hand_list -> primary h <= primary w.
Proof.
  split; [reflexivity |].
  intros w k H. apply order_hands_winner_highest in H.
  apply highest_hands_in in H. destruct H as [Hin Hmax].
  split; [| split; assumption].
  intros ->. contradiction.
Qed.

(** The kicker index is never 0: it is -2, -1 or a position, counted from
    1, among the kickers of the hand returned. *)
Theorem order_hands_kicker_index_range (hand_list : list PokerHand)
    (w : PokerHand) (k : Z) :
  order_hands hand_list = OK (w, k) ->
  k = -2 \/ k = -1 \/
  exists ks, kickers w = Some ks /\ 1 <= k <= Z.of_nat (length ks).
Proof.
  intros H. destruct (order_hands_inv _ _ _ H) as (shh & _ & Hcase).
  destruct Hcase
    as [(_ & -> & _)
       | (fh & h1 & rest & k0 & k1 & _ & _ & Hk0 & Hk1 & Hscan)];
    [now left |].
  right.
  destruct (kicker_scan_result h1 k1 Hk1 k0 [] k eq_refl Hscan)
    as [[-> _] | (i & -> & _ & x & y & Hx & _)]; [now left |].
  right. exists k0. split; [exact Hk0 |]. simpl in Hx.
  assert (Hi : (i < length (map points k0))%nat)
    by (apply nth_error_Some; congruence).
  rewrite length_map in Hi. lia.
Qed.

Lemma order_hands_kicker_index_range_witness :
  order_hands ace_high_hands
  = OK (nth 0 ace_high_hands (mkPokerHand "" (0, SInt 0) [] None None), 1) /\
  (1 = -2 \/ 1 = -1 \/
   exists ks,
     kickers (nth 0 ace_high_hands (mkPokerHand "" (0, SInt 0) [] None None))
     = Some ks /\ 1 <= 1 <= Z.of_nat (length ks)).
Proof.
  assert (E : order_hands ace_high_hands
              = OK (nth 0 ace_high_hands
                        (mkPokerHand "" (0, SInt 0) [] None None), 1))
    by (vm_compute; reflexivity).
  split; [exact E |].
  exact (order_hands_kicker_index_range _ _ _ E).
Defined.

Lemma order_hands_best_category_witness :
  exists w,
    hd_error ace_high_hands = Some w /\
    ace_high_hands <> [] /\ In w ace_high_hands /\
    forall h, In h ace_high_hands -> primary h <= primary w.
Proof.
  assert (E : order_hands ace_high_hands
              = OK (nth 0 ace_high_hands
                        (mkPokerHand "" (0, SInt 0) [] None None), 1))
    by (vm_compute; reflexivity).
  eexists. split; [reflexivity |].
  exact (proj2 (order_hands_best_category ace_high_hands) _ _ E).
Defined.

Lemma score1_int_inv (h : PokerHand) (m : Z) :
  score1_int h = OK m -> snd (score h) = SInt m.
Proof.
  unfold score1_int. destruct (snd (score h)); [congruence | discriminate].
Qed.

(** Among hands scored by an int, the hand returned is the best in the
    order of category, secondary score and kicker points: a hand of the
    same category has a lower secondary score, or the same one and then it
    is the hand returned itself or its kickers are not above those of the
    hand returned, as tuples of points. *)
Theorem order_hands_int_best (hand_list : list PokerHand) (w : PokerHand)
    (k n : Z) :
  order_hands hand_list = OK (w, k) -> snd (score w) = SInt n ->
  forall h,
    In h hand_list -> primary h = primary w ->
    exists m,
      snd (score h) = SInt m /\
      (m < n \/
       (m = n /\
        (h = w \/
         (k <> -2 /\
          exists ks kw,
            kickers h = Some ks /\ kickers w = Some kw /\
            tuple_leb (map points ks) (map points kw) = true)))).
Proof.
  intros H Hw h Hh Hp.
  assert (Hwh := order_hands_winner_highest _ _ _ H).
  assert (Hhh : In h (highest_hands hand_list)).
  { apply highest_hands_in. split; [exact Hh |].
    apply highest_hands_in in Hwh. rewrite Hp. apply Hwh. }
  destruct (order_hands_inv _ _ _ H) as (shh & Es & Hcase).
  assert (P := sorted_high_hands_perm _ _ Es).
  unfold sorted_high_hands in Es.
  destruct (highest_hands hand_list) as [| hh0 hr] eqn:Ehh; [discriminate |].
  destruct (snd (score hh0)) as [n0 | a0 b0].
  2:{ exfalso. apply sorted_by_keys_ok in Es. rewrite Forall_forall in Es.
      destruct (Es w Hwh) as [kw Hkw]. unfold score1_pair in Hkw.
      rewrite Hw in Hkw. discriminate. }
  assert (SS := sorted_by_sorted score1_int Z.leb Zleb_total Zleb_trans
                  _ _ Es).
  assert (Hkeys := sorted_by_keys_ok _ _ _ _ Es).
  rewrite Forall_forall in Hkeys.
  destruct (Hkeys h Hhh) as [m Hm]. apply score1_int_inv in Hm.
  exists m. split; [exact Hm |].
  assert (Hshh : In h shh)
    by (apply (Permutation_in _ (Permutation_sym P)), Hhh).
  assert (Hbelow : forall a b ma mb,
             (exists ka kb, score1_int a = OK ka /\ score1_int b = OK kb /\
                            (kb <=? ka) = true) ->
             snd (score a) = SInt ma -> snd (score b) = SInt mb -> mb <= ma).
  { intros a b ma mb (ka & kb & Ea & Eb & L) Ha Hb.
    apply score1_int_inv in Ea, Eb. apply Z.leb_le in L. congruence. }
  destruct Hcase
    as [(Ef & -> & r & ->)
       | (fh & h1 & rest & k0 & k1 & Ef & Eks & Hk0 & Hk1 & Hscan)].
  - inversion SS as [| ? ? SSr Hall]; subst. rewrite Forall_forall in Hall.
    destruct Hshh as [<- | Hr]; [right; split; [congruence | now left] |].
    left. destruct r as [| s1 r']; [contradiction |].
    destruct (Hkeys s1) as [n1 Hn1];
      [apply (Permutation_in _ P); right; now left |].
    apply score1_int_inv in Hn1.
    assert (L1 : n1 <= n) by (eapply Hbelow; [apply Hall; now left | |]; eauto).
    assert (Hne : n <> n1).
    { unfold filtered_hands in Ef. rewrite Hw, Hn1 in Ef.
      destruct (Z.eqb_spec n n1); [discriminate | assumption]. }
    destruct Hr as [<- | Hr'].
    + assert (m = n1) by congruence. lia.
    + inversion SSr as [| ? ? _ Hall']; subst.
      rewrite Forall_forall in Hall'.
      assert (m <= n1) by (eapply Hbelow; [apply Hall'; exact Hr' | |]; eauto).
      lia.
  - destruct (filtered_hands_some _ _ Ef)
      as (s0 & s1 & t & t' & -> & _ & _).
    destruct (Hkeys s0) as [m0 Hm0];
      [apply (Permutation_in _ P); now left |].
    apply score1_int_inv in Hm0.
    assert (Hfh := filtered_hands_int_keeps_equal s0 s1 t fh m0 Hm0 Ef).
    assert (Pk := sorted_by_perm _ _ _ _ Eks).
    assert (Hwf : In w fh) by (apply (Permutation_in _ Pk); now left).
    apply Hfh in Hwf. destruct Hwf as [_ Hwn].
    assert (n = m0) by congruence. subst m0.
    assert (Hle : m <= n).
    { inversion SS as [| ? ? _ Hall]; subst. rewrite Forall_forall in Hall.
      destruct Hshh as [<- | Ht]; [assert (m = n) by congruence; lia |].
      eapply Hbelow; [apply Hall; exact Ht | |]; eauto. }
    destruct (Z.eq_dec m n) as [-> | Hne]; [| left; lia].
    right. split; [reflexivity |].
    assert (Hin : In h fh) by (apply Hfh; auto).
    apply (Permutation_in _ (Permutation_sym Pk)) in Hin.
    destruct Hin as [<- | Hin]; [now left |]. right.
    split.
    { destruct (kicker_scan_result h1 k1 Hk1 k0 [] k eq_refl Hscan)
        as [[-> _] | (i & -> & _)]; lia. }
    assert (SK := sorted_by_sorted sort_term tuple_leb tuple_leb_total
                    tuple_leb_trans _ _ Eks).
    inversion SK as [| ? ? _ Hall]; subst. rewrite Forall_forall in Hall.
    destruct (Hall h Hin) as (ka & kb & Ea & Eb & L).
    unfold sort_term in Ea, Eb.
    destruct (kickers w) as [kw |]; [| discriminate].
    destruct (kickers h) as [ks |]; [| discriminate].
    injection Ea as <-. injection Eb as <-.
    exists ks, kw. auto.
Qed.

Lemma order_hands_int_best_witness :
  exists w m,
    hd_error ace_high_hands = Some w /\
    snd (score (nth 1 ace_high_hands w)) = SInt m /\
    (m < 14 \/
     (m = 14 /\
      (nth 1 ace_high_hands w = w \/
       (1 <> -2 /\
        exists ks kw,
          kickers (nth 1 ace_high_hands w) = Some ks /\
          kickers w = Some kw /\
          tuple_leb (map points ks) (map points kw) = true)))).
Proof.
  assert (E : order_hands ace_high_hands
              = OK (nth 0 ace_high_hands
                        (mkPokerHand "" (0, SInt 0) [] None None), 1))
    by (vm_compute; reflexivity).
  eexists. 
  assert (X := order_hands_int_best ace_high_hands _ 1 14 E eq_refl
                 (nth 1 ace_high_hands
                      (mkPokerHand "" (0, SInt 0) [] None None))).
  destruct X as (m & Hm & Hcases).
  - vm_compute. right. left. reflexivity.
  - reflexivity.
  - exists m. split; [reflexivity |]. split; [exact Hm | exact Hcases].
Defined.

(** ** The straight test *)

Lemma straight_loop_counts_down (l : list Z) :
  forall x, straight_loop l x true = counts_down (x :: l).
Proof.
  induction l as [| y l IH]; intros x; [reflexivity |].
  change (counts_down (x :: y :: l))
    with ((y =? x - 1) && counts_down (y :: l)).
  cbn [straight_loop]. destruct (y =? x - 1).
  - rewrite IH. reflexivity.
  - apply straight_loop_false.
Qed.

Lemma counts_down_closed_form (l : list Z) :
  forall x,
    counts_down (x :: l) = true <->
    l = map (fun i => x - Z.of_nat i) (seq 1 (length l)).
Proof.
  induction l as [| y l IH]; intros x.
  - simpl. tauto.
  - change (counts_down (x :: y :: l))
      with ((y =? x - 1) && counts_down (y :: l)).
    cbn [length seq map].
    rewrite andb_true_iff, Z.eqb_eq, IH.
    assert (Hshift : forall n,
               map (fun i => x - Z.of_nat i) (seq 2 n)
               = map (fun i => x - 1 - Z.of_nat i) (seq 1 n)).
    { intros n. rewrite <- (seq_shift n 1), map_map.
      apply map_ext. intros i. lia. }
    rewrite Hshift. split.
    + intros [-> ->]. f_equal. rewrite length_map, length_seq.
      reflexivity.
    + intros H. injection H as Hy Hl. split; [lia |].
      replace y with (x - 1) by lia. exact Hl.
Qed.

(** [check_straight] raises [IndexError] on the empty list; on a list that
    starts with [x] it answers [True] exactly when the list is [x], [x - 1],
    [x - 2] and so on.  A number out of line, once seen, is not forgotten,
    although the loop does not move on from it. *)
Theorem check_straight_spec (x : Z) (l : list Z) :
  check_straight [] = Err IndexError /\
  (exists b, check_straight (x :: l) = OK b) /\
  (check_straight (x :: l) = OK true <->
   l = map (fun i => x - Z.of_nat i) (seq 1 (length l))).
Proof.
  split; [reflexivity |]. split; [simpl; eauto |].
  cbn [check_straight]. rewrite straight_loop_counts_down.
  rewrite <- counts_down_closed_form. split; congruence.
Qed.

(** ** Picking cards and dealing hands *)

Lemma pick_cards_total (n : nat) :
  forall deck,
    (n <= length deck)%nat ->
    exists picked deck', pick_cards n deck = OK (picked, deck').
Proof.
  induction n as [| n IH]; intros deck L; [simpl; eauto |].
  destruct deck as [| c d] using rev_ind; [simpl in L; lia |].
  clear IHd. rewrite length_app in L. simpl in L.
  destruct (IH d) as (p & d' & E); [lia |].
  cbn [pick_cards]. rewrite pick_card_snoc. cbn [bind]. rewrite E.
  cbn [bind]. eauto.
Qed.

Lemma pick_cards_short (n : nat) :
  forall deck,
    (length deck < n)%nat -> pick_cards n deck = Err IndexError.
Proof.
  induction n as [| n IH]; intros deck L; [lia |].
  destruct deck as [| c d] using rev_ind; [reflexivity |].
  clear IHd. rewrite length_app in L. simpl in L.
  cbn [pick_cards]. rewrite pick_card_snoc. cbn [bind].
  rewrite IH by lia. reflexivity.
Qed.

(** Picking [n] cards works exactly when the deck holds [n] cards: the
    cards picked are the last [n] of the list, the last one first, and the
    deck keeps the others; with fewer cards the picking raises
    [IndexError]. *)
Theorem pick_cards_cases (n : nat) (deck : list Card) :
  ((n <= length deck)%nat ->
   pick_cards n deck
   = OK (rev (skipn (length deck - n) deck),
         firstn (length deck - n) deck)) /\
  ((length deck < n)%nat -> pick_cards n deck = Err IndexError).
Proof.
  split; [| apply pick_cards_short].
  intros L. destruct (pick_cards_total n deck L) as (picked & deck' & E).
  rewrite E. destruct (pick_cards_spec _ _ _ _ E) as [Hd Hl].
  assert (Hlen : (length deck - n = length deck')%nat).
  { rewrite Hd, length_app, length_rev. lia. }
  rewrite Hlen, Hd, firstn_app_here.
  rewrite skipn_app, Nat.sub_diag, skipn_all. simpl.
  now rewrite rev_involutive.
Qed.

Lemma pick_cards_cases_witness :
  pick_cards 2 [mkCard 2 "heart"; mkCard 1 "spade"; mkCard 9 "club"]
  = OK ([mkCard 9 "club"; mkCard 1 "spade"], [mkCard 2 "heart"]) /\
  pick_cards 2 [mkCard 2 "heart"] = Err IndexError.
Proof.
  split.
  - apply (proj1 (pick_cards_cases 2
             [mkCard 2 "heart"; mkCard 1 "spade"; mkCard 9 "club"])).
    simpl. lia.
  - apply (proj2 (pick_cards_cases 2 [mkCard 2 "heart"])). simpl. lia.
Defined.

Lemma NoDup_app_apart {A : Type} (l1 l2 : list A) (a : A) :
  NoDup (l1 ++ l2) -> In a l1 -> In a l2 -> False.
Proof.
  induction l1 as [| x l1 IH]; simpl; intros N H1 H2; [contradiction |].
  inversion N as [| ? ? Hx Hl]; subst. destruct H1 as [-> | H1]; auto.
  apply Hx. apply in_or_app. now right.
Qed.

Lemma deck_in_use_nodup (deck : list Card) :
  deck_in_use deck ->
  NoDup deck /\ Forall (fun c => In c new_deck_cards) deck /\
  (length deck <= 52)%nat.
Proof.
  intros (shuffled & gone & P & E).
  assert (N : NoDup shuffled)
    by (eapply Permutation_NoDup;
        [apply Permutation_sym, P | exact new_deck_cards_nodup]).
  assert (L := Permutation_length P).
  change (length new_deck_cards) with 52%nat in L.
  subst shuffled. rewrite length_app in L.
  split; [eapply NoDup_app_remove_r; exact N |]. split; [| lia].
  apply Forall_forall. intros c Hc. apply (Permutation_in _ P).
  apply in_or_app. now left.
Qed.

Lemma HandOfCards_deck_five (deck : list Card) :
  deck_in_use deck -> (5 <= length deck)%nat ->
  exists hand deck',
    HandOfCards_deck deck 5 = OK (hand, deck') /\
    deck_in_use deck' /\ (length deck' + 5 = length deck)%nat /\
    incl (cards hand) deck /\ (forall c, In c (cards hand) -> ~ In c deck').
Proof.
  intros U L. destruct (pick_cards_total 5 deck L) as (picked & deck' & E).
  assert (V := picked_valid _ _ _ U E).
  destruct (HandOfCards_test_valid picked V) as (hand & Eh & Ec & _).
  unfold HandOfCards_deck. rewrite E. cbn [bind].
  unfold HandOfCards_test in Eh.
  destruct (analyse_poker_hand (sorted_desc points Z.leb picked)) as [ph |];
    [| discriminate].
  cbn [bind] in *. injection Eh as <-. cbn [cards] in *.
  destruct (pick_cards_spec _ _ _ _ E) as [Hd Hl].
  assert (N := proj1 (deck_in_use_nodup deck U)).
  do 2 eexists. split; [reflexivity |]. cbn [cards].
  assert (Pp : forall c, In c (sorted_desc points Z.leb picked)
                         <-> In c (rev picked)).
  { intros c. rewrite (sorted_desc_in points Z.leb). apply in_rev. }
  split; [| split; [| split]].
  - destruct U as (shuffled & gone & P & Es).
    exists shuffled, (rev picked ++ gone).
    split; [exact P |]. rewrite Es, Hd. now rewrite <- app_assoc.
  - rewrite Hd, length_app, length_rev. lia.
  - intros c Hc. rewrite Hd. apply in_or_app. right. now apply Pp.
  - intros c Hc Hd'. apply Pp in Hc. rewrite Hd in N.
    exact (NoDup_app_apart _ _ c N Hd' Hc).
Qed.

Lemma get_list_of_poker_hands_deals (n : nat) :
  forall deck,
    deck_in_use deck ->
    ((5 * n <= length deck)%nat ->
     exists hands deck',
       get_list_of_poker_hands deck n 5 = OK (hands, deck') /\
       length hands = n /\ deck_in_use deck' /\
       (length deck' + 5 * n = length deck)%nat) /\
    ((length deck < 5 * n)%nat ->
     get_list_of_poker_hands deck n 5 = Err IndexError).
Proof.
  induction n as [| n IH]; intros deck U.
  - split; [| lia]. intros _. exists [], deck. repeat split; auto.
  - cbn [get_list_of_poker_hands].
    destruct (Nat.le_gt_cases 5 (length deck)) as [L5 | L5].
    + destruct (HandOfCards_deck_five deck U L5)
        as (hand & d1 & E & U1 & L1 & _).
      rewrite E. cbn [bind]. destruct (IH d1 U1) as [Hok Herr]. split.
      * intros L. destruct Hok as (hands & d2 & E2 & Lh & U2 & L2); [lia |].
        rewrite E2. cbn [bind]. do 2 eexists. split; [reflexivity |].
        simpl. repeat split; auto; lia.
      * intros L. rewrite Herr by lia. reflexivity.
    + split; [lia |]. intros _. unfold HandOfCards_deck.
      rewrite pick_cards_short by exact L5. reflexivity.
Qed.

(** From a deck in use, [get_list_of_poker_hands] deals [n] hands of five
    cards exactly when the deck holds [5 * n] cards: every hand is
    evaluated, and the deck is left in use with [5 * n] cards fewer.  With
    fewer cards it raises [IndexError], after the hands that could be
    dealt. *)
Theorem get_list_of_poker_hands_spec (n : nat) (deck : list Card) :
  deck_in_use deck ->
  ((5 * n <= length deck)%nat ->
   exists hands deck',
     get_list_of_poker_hands deck n 5 = OK (hands, deck') /\
     length hands = n /\ deck_in_use deck' /\
     (length deck' + 5 * n = length deck)%nat) /\
  ((length deck < 5 * n)%nat ->
   get_list_of_poker_hands deck n 5 = Err IndexError).
Proof. apply get_list_of_poker_hands_deals. Qed.

Lemma stacked_deck_in_use : deck_in_use stacked_deck.
Proof.
  exists stacked_deck, []. split; [| now rewrite app_nil_r].
  apply same_cards_perm. vm_compute. reflexivity.
Defined.

Lemma get_list_of_poker_hands_spec_witness :
  (exists hands deck',
      get_list_of_poker_hands stacked_deck 3 5 = OK (hands, deck') /\
      length hands = 3%nat /\ deck_in_use deck' /\
      (length deck' + 5 * 3 = length stacked_deck)%nat) /\
  get_list_of_poker_hands stacked_deck 11 5 = Err IndexError.
Proof.
  split.
  - apply (proj1 (get_list_of_poker_hands_spec 3 stacked_deck
                    stacked_deck_in_use)).
    vm_compute. repeat constructor.
  - apply (proj2 (get_list_of_poker_hands_spec 11 stacked_deck
                    stacked_deck_in_use)).
    vm_compute. repeat constructor.
Defined.

(** A shuffle of a new deck deals ten hands of five cards and no more,
    whatever the shuffle. *)
Theorem new_deck_deals_ten_hands (shuffled : list Card) (n : nat) :
  Permutation shuffled new_deck_cards ->
  ((exists hands deck',
       get_list_of_poker_hands shuffled n 5 = OK (hands, deck'))
   <-> (n <= 10)%nat).
Proof.
  intros P.
  assert (U : deck_in_use shuffled)
    by (exists shuffled, []; split; [exact P | now rewrite app_nil_r]).
  assert (L := Permutation_length P).
  change (length new_deck_cards) with 52%nat in L.
  destruct (get_list_of_poker_hands_deals n shuffled U) as [Hok Herr].
  split.
  - intros (hands & deck' & E).
    destruct (Nat.le_gt_cases n 10) as [H | H]; [exact H |].
    rewrite Herr in E by lia. discriminate.
  - intros H. destruct Hok as (hands & deck' & E & _); [lia | eauto].
Qed.

Lemma new_deck_deals_ten_hands_witness :
  (exists hands deck',
      get_list_of_poker_hands stacked_deck 10 5 = OK (hands, deck'))
  <-> (10 <= 10)%nat.
Proof.
  apply (new_deck_deals_ten_hands stacked_deck 10).
  apply same_cards_perm. vm_compute. reflexivity.
Defined.

(** ** The cards of a hand *)

Lemma sorted_by_points (l : list Card) :
  StronglySorted (fun a b => points b <= points a)
                 (sorted_desc points Z.leb l).
Proof.
  assert (H := sorted_desc_sorted points Z.leb Zleb_total Zleb_trans l).
  induction H as [| x s _ IH Hall]; constructor; [exact IH |].
  eapply Forall_impl; [| exact Hall].
  intros y Hy. unfold desc in Hy. now apply Z.leb_le.
Qed.

(** However a hand is built, from test cards or from a deck, its cards are
    the cards it was given, ordered by decreasing points, so that aces come
    first; a hand built from a deck holds the cards picked from the end of
    the deck, which the deck no longer holds. *)
Theorem HandOfCards_cards_sorted :
  (forall test_cards hand,
      HandOfCards_test test_cards = OK hand ->
      Permutation (cards hand) test_cards /\
      StronglySorted (fun a b => points b <= points a) (cards hand)) /\
  (forall deck card_amount hand deck',
      HandOfCards_deck deck card_amount = OK (hand, deck') ->
      length (cards hand) = card_amount /\
      Permutation (deck' ++ cards hand) deck /\
      StronglySorted (fun a b => points b <= points a) (cards hand)).
Proof.
  split.
  - intros cs hand H. unfold HandOfCards_test in H.
    destruct (analyse_poker_hand (sorted_desc points Z.leb cs));
      [| discriminate].
    cbn [bind] in H. injection H as <-. cbn [cards]. split.
    + apply sorted_desc_perm.
    + apply sorted_by_points.
  - intros deck n hand deck' H. unfold HandOfCards_deck in H.
    destruct (pick_cards n deck) as [[picked d] |] eqn:E; [| discriminate].
    cbn [bind] in H.
    destruct (analyse_poker_hand (sorted_desc points Z.leb picked));
      [| discriminate].
    cbn [bind] in H. injection H as <- <-. cbn [cards].
    destruct (pick_cards_spec _ _ _ _ E) as [Hd Hl].
    split; [now rewrite sorted_desc_length |]. split.
    + rewrite Hd. apply Permutation_app_head.
      eapply perm_trans; [apply sorted_desc_perm | apply Permutation_rev].
    + apply sorted_by_points.
Qed.

Lemma HandOfCards_cards_sorted_witness :
  exists hand,
    HandOfCards_test pair_of_threes_cards = OK hand /\
    Permutation (cards hand) pair_of_threes_cards /\
    StronglySorted (fun a b => points b <= points a) (cards hand).
Proof.
  eexists. split; [vm_compute; reflexivity |].
  apply (proj1 HandOfCards_cards_sorted pair_of_threes_cards).
  vm_compute. reflexivity.
Defined.

(** ** The names of the cards *)

Lemma append_empty_r (s : string) : s +++ "" = s.
Proof. induction s as [| c s IH]; simpl; [reflexivity | now rewrite IH]. Qed.

Lemma append_s_inj (s1 : string) :
  forall s2, s1 +++ "s" = s2 +++ "s" -> s1 = s2.
Proof.
  induction s1 as [| c s1 IH]; intros [| c2 s2] H; simpl in H.
  - reflexivity.
  - injection H as _ H. destruct s2; discriminate.
  - injection H as _ H. destruct s1; discriminate.
  - injection H as -> H. f_equal. now apply IH.
Qed.

(** [num_conv]: the plural is the singular followed by an s; the numbers 1
    to 13 have thirteen different names, and 14 has the name of 1, "Ace". *)
Theorem num_conv_names :
  (forall n, num_conv n true = num_conv n false +++ "s") /\
  (forall n m,
      1 <= n <= 13 -> 1 <= m <= 13 ->
      num_conv n false = num_conv m false -> n = m) /\
  (forall plural, num_conv 14 plural = num_conv 1 plural).
Proof.
  split; [| split].
  - intros n. unfold num_conv.
    destruct ((n =? 1) || (n =? 14)); [reflexivity |].
    destruct (n =? 11); [reflexivity |].
    destruct (n =? 12); [reflexivity |].
    destruct (n =? 13); [reflexivity |].
    now rewrite append_empty_r.
  - intros n m Hn Hm.
    assert (Cn : In n [1; 2; 3; 4; 5; 6; 7; 8; 9; 10; 11; 12; 13])
      by (simpl; lia).
    assert (Cm : In m [1; 2; 3; 4; 5; 6; 7; 8; 9; 10; 11; 12; 13])
      by (simpl; lia).
    simpl in Cn, Cm.
    repeat (destruct Cn as [<- | Cn]; [| ]);
      try contradiction;
      repeat (destruct Cm as [<- | Cm]; [| ]);
      try contradiction; intros E;
      (reflexivity || (vm_compute in E; discriminate E)).
  - intros plural. reflexivity.
Qed.

Lemma num_conv_names_witness : 11 = 11.
Proof.
  apply (proj1 (proj2 num_conv_names) 11 11); [lia | lia | reflexivity].
Defined.

(** ** The category of a hand *)

Lemma same_number_refl (c : Card) : same_number c c = true.
Proof. unfold same_number. apply Z.eqb_refl. Qed.

Lemma same_number_eq (c x : Card) :
  same_number c x = true <-> number c = number x.
Proof. unfold same_number. apply Z.eqb_eq. Qed.

Lemma same_number_ext (c c' x : Card) :
  same_number c c' = true -> same_number c x = same_number c' x.
Proof.
  unfold same_number. intros H. apply Z.eqb_eq in H. now rewrite H.
Qed.

Lemma rank_count_same (cs : list Card) (c c' : Card) :
  same_number c c' = true -> rank_count cs c = rank_count cs c'.
Proof.
  intros H. unfold rank_count. f_equal. apply filter_ext.
  intros x. now apply same_number_ext.
Qed.

Lemma filter_length_or {A : Type} (p q : A -> bool) (l : list A) :
  (forall x, p x = true -> q x = true -> False) ->
  length (filter (fun x => p x || q x) l)
  = (length (filter p l) + length (filter q l))%nat.
Proof.
  intros D. induction l as [| x l IH]; simpl; [reflexivity |].
  destruct (p x) eqn:Ep, (q x) eqn:Eq; simpl; rewrite IH; try lia.
  exfalso. now apply (D x).
Qed.

(** Counting the cards by groups: the cards that pass a test which looks
    at the number only are the members of the groups whose first card
    passes it. *)
Lemma first_of_rank_count (Q : Card -> bool) (all : list Card) :
  (forall x y, same_number x y = true -> Q x = Q y) ->
  forall todo pre,
    length (filter (fun x => Q x && seen todo x && negb (seen pre x)) all)
    = list_sum (map (rank_count all) (filter Q (first_of_rank pre todo))).
Proof.
  intros HQ. induction todo as [| c t IH]; intros pre.
  - simpl. rewrite filter_none; [reflexivity |].
    intros x _. now rewrite andb_false_r.
  - cbn [first_of_rank]. destruct (seen pre c) eqn:Es.
    + rewrite <- IH. f_equal. apply filter_ext. intros x.
      rewrite seen_snoc. unfold seen at 1. cbn [existsb].
      fold (seen t x). destruct (same_number x c) eqn:Ex.
      * rewrite (seen_same_number pre c x), Es
          by (now rewrite same_number_sym).
        cbn. now rewrite !andb_false_r.
      * now rewrite orb_false_r.
    + assert (Hsplit :
               forall x,
                 Q x && seen (c :: t) x && negb (seen pre x)
                 = (Q x && same_number x c)
                   || (Q x && seen t x && negb (seen (pre ++ [c]) x))).
      { intros x. rewrite seen_snoc. unfold seen at 1. cbn [existsb].
        fold (seen t x). destruct (same_number x c) eqn:Ex.
        - rewrite (seen_same_number pre c x), Es
            by (now rewrite same_number_sym).
          now destruct (Q x), (seen t x).
        - now destruct (Q x), (seen t x), (seen pre x). }
      rewrite (filter_ext _ _ Hsplit), filter_length_or.
      2:{ intros x H1 H2. rewrite seen_snoc in H2.
          apply andb_prop in H1. destruct H1 as [_ H1]. rewrite H1 in H2.
          rewrite orb_true_r in H2. cbn in H2.
          rewrite andb_false_r in H2. discriminate. }
      rewrite IH. cbn [filter]. destruct (Q c) eqn:Ec.
      * cbn [map list_sum fold_right]. f_equal. unfold rank_count.
        f_equal. apply filter_ext. intros x. rewrite (same_number_sym c x).
        destruct (same_number x c) eqn:Ex; [| apply andb_false_r].
        now rewrite (HQ x c Ex), Ec.
      * rewrite filter_none; [reflexivity |].
        intros x _. destruct (same_number x c) eqn:Ex;
          [| apply andb_false_r].
        now rewrite (HQ x c Ex), Ec.
Qed.

Lemma seen_self (l : list Card) (x : Card) : In x l -> seen l x = true.
Proof.
  intros H. unfold seen. apply existsb_exists. exists x. split; [exact H |].
  apply same_number_refl.
Qed.

Lemma group_count (Q : Card -> bool) (cards : list Card) :
  (forall x y, same_number x y = true -> Q x = Q y) ->
  length (filter Q cards)
  = list_sum (map (rank_count cards) (filter Q (first_of_rank [] cards))).
Proof.
  intros HQ. rewrite <- (first_of_rank_count Q cards HQ cards []).
  f_equal. apply filter_ext_in. intros x Hx.
  rewrite (seen_self cards x Hx). cbn. now rewrite !andb_true_r.
Qed.

Lemma list_sum_const {A : Type} (f : A -> nat) (k : nat) (l : list A) :
  Forall (fun x => f x = k) l -> list_sum (map f l) = (k * length l)%nat.
Proof.
  induction 1 as [| x l Hx _ IH]; cbn [map list_sum fold_right length];
    [lia |].
  fold (list_sum (map f l)). rewrite IH, Hx. lia.
Qed.

Lemma list_sum_sizes {A : Type} (f : A -> nat) (l : list A) :
  Forall (fun x => (1 <= f x <= 4)%nat) l ->
  list_sum (map f l)
  = (length (filter (fun x => Nat.eqb (f x) 1) l)
     + 2 * length (filter (fun x => Nat.eqb (f x) 2) l)
     + 3 * length (filter (fun x => Nat.eqb (f x) 3) l)
     + 4 * length (filter (fun x => Nat.eqb (f x) 4) l))%nat.
Proof.
  induction 1 as [| x l Hx _ IH];
    cbn [map list_sum fold_right filter length]; [reflexivity |].
  fold (list_sum (map f l)). rewrite IH.
  destruct (f x) as [| [| [| [| [| n]]]]]; cbn [Nat.eqb length]; lia.
Qed.

Lemma filter_length_pos {A : Type} (p : A -> bool) (l : list A) :
  (1 <= length (filter p l))%nat <-> exists x, In x l /\ p x = true.
Proof.
  split.
  - destruct (filter p l) as [| x r] eqn:E; simpl; [lia |]. intros _.
    exists x. apply filter_In. rewrite E. now left.
  - intros (x & Hx & Hp).
    assert (H : In x (filter p l)) by now apply filter_In.
    destruct (filter p l); [destruct H | simpl; lia].
Qed.

(** Every card is counted in one group: the sizes add up to the cards. *)
Lemma cards_of_a_kind_groups (cards : list Card) (k : nat) :
  cards_of_a_kind cards k = (k * groups_of_size cards k)%nat.
Proof.
  unfold cards_of_a_kind, groups_of_size.
  rewrite (group_count (fun c => Nat.eqb (rank_count cards c) k)).
  - apply list_sum_const, Forall_forall. intros x Hx.
    apply filter_In in Hx. now apply Nat.eqb_eq.
  - intros x y H. now rewrite (rank_count_same cards x y H).
Qed.

Lemma of_a_kind_groups (cards : list Card) (k : nat) :
  of_a_kind cards (S k) = Nat.ltb 0 (groups_of_size cards (S k)).
Proof.
  unfold of_a_kind. rewrite cards_of_a_kind_groups.
  destruct (groups_of_size cards (S k)); [| reflexivity].
  now rewrite Nat.mul_0_r.
Qed.

Lemma is_two_pairs_groups (cards : list Card) :
  is_two_pairs cards = Nat.eqb (groups_of_size cards 2) 2.
Proof.
  unfold is_two_pairs. rewrite cards_of_a_kind_groups.
  destruct (groups_of_size cards 2) as [| [| [| n]]]; try reflexivity.
  apply Nat.eqb_neq. lia.
Qed.

Lemma rank_count_group (cards : list Card) (c : Card) :
  length (group_cards cards c) = rank_count cards c.
Proof. apply Permutation_length, group_cards_perm. Qed.

Lemma groups_total (cards : list Card) :
  NoDup cards -> Forall (fun c => In c new_deck_cards) cards ->
  (groups_of_size cards 1 + 2 * groups_of_size cards 2
   + 3 * groups_of_size cards 3 + 4 * groups_of_size cards 4)%nat
  = length cards.
Proof.
  intros N D. unfold groups_of_size. rewrite <- list_sum_sizes.
  - rewrite <- (filter_all (fun _ => true) (first_of_rank [] cards))
      by reflexivity.
    rewrite <- group_count by reflexivity.
    now rewrite filter_all by reflexivity.
  - apply Forall_forall. intros c Hc. rewrite <- rank_count_group.
    apply group_cards_size; auto.
    now apply first_of_rank_in in Hc.
Qed.

(** The rank pass gives one candidate for each group: four of a kind, three
    of a kind, pair or high card by the size of the group. *)
Lemma found_group_counts (cards : list Card) (l : list Card)
    (found : list PokerHand) :
  Forall2 (rank_hand cards) l found ->
  length (filter (fun x => primary x =? 8) found)
  = length (filter (fun c => Nat.eqb (rank_count cards c) 4) l) /\
  length (filter (fun x => primary x =? 4) found)
  = length (filter (fun c => Nat.eqb (rank_count cards c) 3) l) /\
  length (filter (fun x => primary x =? 2) found)
  = length (filter (fun c => Nat.eqb (rank_count cards c) 2) l) /\
  length (filter (fun x => primary x =? 1) found)
  = length (filter (fun c => Nat.eqb (rank_count cards c) 1) l).
Proof.
  induction 1 as [| c ph l found R _ IH]; [repeat split |].
  destruct IH as (I8 & I4 & I2 & I1).
  destruct R as (Hc & _ & _ & _ & T). rewrite Hc, rank_count_group in T.
  cbn [filter].
  destruct T as [T | [T | [T | [T | []]]]]; injection T as Hp Hr;
    rewrite <- Hp, <- Hr; cbn [Z.eqb Pos.eqb Nat.eqb length];
    repeat split; congruence.
Qed.

(** In a flush of different cards no number comes twice. *)
Lemma flush_rank_count (cards : list Card) (c : Card) :
  NoDup cards -> is_flush cards = true -> In c cards ->
  rank_count cards c = 1%nat.
Proof.
  intros N F Hc. unfold rank_count.
  assert (Hall : forall x, In x (filter (same_number c) cards) -> x = c).
  { intros x Hx. apply filter_In in Hx. destruct Hx as [Hx Hn].
    apply same_number_eq in Hn. destruct cards as [| c0 r];
      [destruct Hc |].
    cbn [is_flush] in F. rewrite forallb_forall in F.
    assert (Sx := F x Hx). assert (Sc := F c Hc).
    apply String.eqb_eq in Sx, Sc. destruct x, c. cbn in *. congruence. }
  assert (Hin : In c (filter (same_number c) cards)).
  { apply filter_In. split; [exact Hc | apply same_number_refl]. }
  assert (Nf : NoDup (filter (same_number c) cards))
    by now apply NoDup_filter.
  destruct (filter (same_number c) cards) as [| a [| b r]];
    [destruct Hin | reflexivity |].
  exfalso. inversion Nf as [| ? ? Hnot _]; subst. apply Hnot.
  rewrite (Hall a), (Hall b); [now left | right; now left | now left].
Qed.

Lemma flush_groups (cards : list Card) (k : nat) :
  NoDup cards -> is_flush cards = true -> k <> 1%nat ->
  groups_of_size cards k = 0%nat.
Proof.
  intros N F Hk. unfold groups_of_size. rewrite filter_none; [reflexivity |].
  intros c Hc. apply first_of_rank_in in Hc. destruct Hc as [Hc _].
  rewrite (flush_rank_count cards c N F Hc). apply Nat.eqb_neq. lia.
Qed.

(** *** The flush pass and the straight pass, exactly *)

Lemma analyse_flush_exact (cards : list Card) (fl : list PokerHand) :
  analyse_flush cards = OK fl ->
  length fl = (if is_flush cards then 1 else 0)%nat /\ primaries_in [6] fl.
Proof.
  destruct cards as [| c0 r]; [discriminate |].
  unfold analyse_flush, is_flush.
  destruct (forallb _ (c0 :: r)); intros H; injection H as <-.
  - split; [reflexivity |]. intros h [<- | []]. now left.
  - split; [reflexivity |]. intros h [].
Qed.

Lemma check_straight_counts_down (l : list Z) :
  l <> [] -> check_straight l = OK (counts_down l).
Proof.
  destruct l as [| x l]; [congruence |]. intros _. unfold check_straight.
  now rewrite straight_loop_counts_down.
Qed.

Lemma sorted_points_fixed (cards : list Card) :
  StronglySorted (desc points Z.leb) cards ->
  sorted_desc (fun n => n) Z.leb (map points cards) = map points cards.
Proof.
  intros S. rewrite <- sorted_desc_map. f_equal.
  now apply sorted_desc_fixed.
Qed.

(** Without an ace the numbers are the points. *)
Lemma no_ace_numbers (c0 : Card) (r : list Card) :
  StronglySorted (desc points Z.leb) (c0 :: r) ->
  In c0 new_deck_cards -> points c0 <> 14 ->
  map number (c0 :: r) = map points (c0 :: r).
Proof.
  intros S D H. apply map_ext_in. intros c Hc.
  assert (Hle : points c <= points c0).
  { destruct Hc as [<- | Hc]; [lia |].
    inversion S as [| ? ? _ Hall]; subst. rewrite Forall_forall in Hall.
    apply Z.leb_le. exact (Hall c Hc). }
  apply in_new_deck_cards in D. destruct D as [D _].
  unfold points in *.
  destruct (number c =? 1), (number c0 =? 1); cbn [negb] in *; lia.
Qed.

Lemma analyse_straight_exact (cards : list Card) (st : list PokerHand) :
  StronglySorted (desc points Z.leb) cards ->
  Forall (fun c => In c new_deck_cards) cards ->
  analyse_straight cards = OK st ->
  length st = (if is_straight cards then 1 else 0)%nat /\
  primaries_in [5] st.
Proof.
  intros S D H. destruct cards as [| c0 r]; [discriminate |].
  unfold is_straight. rewrite (sorted_points_fixed _ S).
  unfold analyse_straight in H.
  rewrite check_straight_counts_down in H by discriminate.
  cbn [bind] in H.
  destruct (counts_down (map points (c0 :: r))) eqn:B1; cbn [negb andb] in H.
  - cbn [bind orb] in H. injection H as <-.
    split; [reflexivity |]. intros h [<- | []]. now left.
  - cbn [orb]. destruct (points c0 =? 14) eqn:E14.
    + rewrite check_straight_counts_down in H.
      2:{ intros E. apply (f_equal (@length Z)) in E.
          rewrite sorted_desc_length in E. discriminate. }
      cbn [bind] in H.
      destruct (counts_down (sorted_desc _ Z.leb (map number (c0 :: r))));
        injection H as <-.
      * split; [reflexivity |]. intros h [<- | []]. now left.
      * split; [reflexivity |]. intros h [].
    + cbn [bind] in H. injection H as <-.
      rewrite (no_ace_numbers c0 r S), (sorted_points_fixed _ S), B1.
      * split; [reflexivity |]. intros h [].
      * inversion D; assumption.
      * now apply Z.eqb_neq.
Qed.

(** *** The combination pass, exactly *)

Lemma two_pairs_hand_primary (cards : list Card) (pairs : list PokerHand)
    (cb : list PokerHand) :
  two_pairs_hand cards pairs = OK cb -> exists h, cb = [h] /\ primary h = 3.
Proof.
  unfold two_pairs_hand. intros H.
  destruct (sorted_by score1_int Z.leb pairs) as [l |]; [| discriminate].
  cbn [bind] in H. destruct (index l 0) as [p0 |]; [| discriminate].
  cbn [bind] in H. destruct (index l 1) as [p1 |]; [| discriminate].
  cbn [bind] in H. destruct (score1_int p0); [| discriminate].
  cbn [bind] in H. destruct (score1_int p1); [| discriminate].
  cbn [bind] in H. injection H as <-. eexists. split; reflexivity.
Qed.

Lemma full_house_hand_primary (threes pairs cb : list PokerHand) :
  full_house_hand threes pairs = OK cb ->
  exists h, cb = [h] /\ primary h = 7.
Proof.
  unfold full_house_hand. intros H.
  destruct (index threes 0) as [t |]; [| discriminate].
  cbn [bind] in H. destruct (index pairs 0) as [p |]; [| discriminate].
  cbn [bind] in H. destruct (score1_int t); [| discriminate].
  cbn [bind] in H. destruct (score1_int p); [| discriminate].
  cbn [bind] in H. injection H as <-. eexists. split; reflexivity.
Qed.

Lemma straight_flush_hand_primary (cards : list Card)
    (straights flushes cb : list PokerHand) :
  straight_flush_hand cards straights flushes = OK cb ->
  exists h, cb = [h] /\ primary h = 9.
Proof.
  unfold straight_flush_hand. intros H.
  destruct (index straights 0) as [s |]; [| discriminate].
  cbn [bind] in H. destruct (index flushes 0); [| discriminate].
  cbn [bind] in H.
  destruct (if score1_is s 14 then _ else _); [| discriminate].
  cbn [bind] in H. injection H as <-. eexists. split; reflexivity.
Qed.

Lemma analyse_combination_primary (cards : list Card)
    (candidates cb : list PokerHand) :
  analyse_combination_hands cards candidates = OK cb ->
  let count p := length (filter (fun x => primary x =? p) candidates) in
  (count 2 = 2%nat /\ exists h, cb = [h] /\ primary h = 3) \/
  (count 2 = 1%nat /\ count 4 = 1%nat /\
   exists h, cb = [h] /\ primary h = 7) \/
  (count 2 <> 2%nat /\ ~ (count 4 = 1%nat /\ count 2 = 1%nat) /\
   count 5 = 1%nat /\ count 6 = 1%nat /\
   exists h, cb = [h] /\ primary h = 9) \/
  (count 2 <> 2%nat /\ ~ (count 4 = 1%nat /\ count 2 = 1%nat) /\
   ~ (count 5 = 1%nat /\ count 6 = 1%nat) /\ cb = []).
Proof.
  unfold analyse_combination_hands. cbv zeta. intros H.
  destruct (Nat.eqb_spec
              (length (filter (fun x => primary x =? 2) candidates)) 2)
    as [E2 | E2].
  { left. split; [exact E2 |]. eapply two_pairs_hand_primary; eauto. }
  destruct (Nat.eqb_spec
              (length (filter (fun x => primary x =? 4) candidates)) 1)
    as [E4 | E4];
    destruct (Nat.eqb_spec
                (length (filter (fun x => primary x =? 2) candidates)) 1)
    as [E1 | E1]; cbn [andb] in H;
    try (right; left; split; [exact E1 |]; split; [exact E4 |];
         eapply full_house_hand_primary; eauto; fail);
    (destruct (Nat.eqb_spec
                 (length (filter (fun x => primary x =? 5) candidates)) 1)
      as [E5 | E5];
     destruct (Nat.eqb_spec
                 (length (filter (fun x => primary x =? 6) candidates)) 1)
       as [E6 | E6]; cbn [andb] in H;
     [ right; right; left; split; [exact E2 |]; split; [tauto |];
       split; [exact E5 |]; split; [exact E6 |];
       eapply straight_flush_hand_primary; eauto
     | right; right; right; split; [exact E2 |]; split; [tauto |];
       split; [tauto | congruence] .. ]).
Qed.

(** *** The category does not depend on the order of the cards *)

Lemma sorted_Z_unique (l1 : list Z) :
  forall l2,
    StronglySorted (desc (fun n => n) Z.leb) l1 ->
    StronglySorted (desc (fun n => n) Z.leb) l2 ->
    Permutation l1 l2 -> l1 = l2.
Proof.
  induction l1 as [| a l1 IH]; intros l2 S1 S2 P.
  - apply Permutation_nil in P. now subst.
  - destruct l2 as [| b l2];
      [apply Permutation_sym, Permutation_nil in P; discriminate |].
    inversion S1 as [| ? ? S1' H1]; inversion S2 as [| ? ? S2' H2]; subst.
    rewrite Forall_forall in H1, H2. unfold desc in H1, H2.
    assert (a = b).
    { assert (Ha : In a (b :: l2))
        by (apply (Permutation_in _ P); now left).
      assert (Hb : In b (a :: l1))
        by (apply (Permutation_in _ (Permutation_sym P)); now left).
      destruct Ha as [-> | Ha]; [reflexivity |].
      destruct Hb as [-> | Hb]; [reflexivity |].
      apply H2 in Ha. apply H1 in Hb. apply Z.leb_le in Ha, Hb. lia. }
    subst b. f_equal. apply IH; auto. now apply Permutation_cons_inv in P.
Qed.

Lemma sorted_desc_Z_perm (l1 l2 : list Z) :
  Permutation l1 l2 ->
  sorted_desc (fun n => n) Z.leb l1 = sorted_desc (fun n => n) Z.leb l2.
Proof.
  intros P. apply sorted_Z_unique.
  - apply sorted_desc_sorted; [apply Zleb_total | apply Zleb_trans].
  - apply sorted_desc_sorted; [apply Zleb_total | apply Zleb_trans].
  - eapply perm_trans; [apply sorted_desc_perm |].
    eapply perm_trans; [exact P |]. apply Permutation_sym, sorted_desc_perm.
Qed.

Lemma rank_count_perm (cs cs' : list Card) (c : Card) :
  Permutation cs cs' -> rank_count cs c = rank_count cs' c.
Proof.
  intros P. unfold rank_count. now apply Permutation_length, Permutation_filter.
Qed.

Lemma cards_of_a_kind_perm (cs cs' : list Card) (n : nat) :
  Permutation cs cs' -> cards_of_a_kind cs n = cards_of_a_kind cs' n.
Proof.
  intros P. unfold cards_of_a_kind.
  rewrite (filter_ext _ (fun c => Nat.eqb (rank_count cs' c) n))
    by (intros c; now rewrite (rank_count_perm cs cs' c P)).
  now apply Permutation_length, Permutation_filter.
Qed.

Lemma is_flush_iff (cs : list Card) :
  is_flush cs = true <->
  cs <> [] /\ forall c c', In c cs -> In c' cs -> suit c = suit c'.
Proof.
  destruct cs as [| c0 r]; cbn [is_flush].
  - split; [discriminate | intros [H _]; congruence].
  - rewrite forallb_forall. split.
    + intros H. split; [discriminate |]. intros c c' Hc Hc'.
      apply H in Hc, Hc'. apply String.eqb_eq in Hc, Hc'. congruence.
    + intros [_ H] c Hc. apply String.eqb_eq. apply H; [exact Hc | now left].
Qed.

Lemma is_flush_perm (cs cs' : list Card) :
  Permutation cs cs' -> is_flush cs = is_flush cs'.
Proof.
  intros P. apply bool_eq_iff. rewrite !is_flush_iff.
  assert (P' := Permutation_sym P). split; intros [Hne H]; split.
  - intros ->. apply Permutation_nil in P'. contradiction.
  - intros c c' Hc Hc'.
    apply H; eapply Permutation_in; eauto.
  - intros ->. apply Permutation_nil in P. contradiction.
  - intros c c' Hc Hc'.
    apply H; eapply Permutation_in; eauto.
Qed.

Lemma category_perm (cs cs' : list Card) :
  Permutation cs cs' -> category cs = category cs'.
Proof.
  intros P. unfold category, is_straight, of_a_kind, is_two_pairs.
  rewrite (is_flush_perm cs cs' P).
  rewrite !(cards_of_a_kind_perm cs cs' _ P).
  rewrite (sorted_desc_Z_perm (map points cs) (map points cs'))
    by now apply Permutation_map.
  rewrite (sorted_desc_Z_perm (map number cs) (map number cs'))
    by now apply Permutation_map.
  reflexivity.
Qed.

(** *** The best candidate *)

Lemma hand_candidates_inv (cards : list Card) (l : list PokerHand) :
  hand_candidates cards = OK l ->
  exists found fl st cb,
    analyse_same_number_hands cards = OK found /\
    analyse_flush cards = OK fl /\
    analyse_straight cards = OK st /\
    analyse_combination_hands cards (found ++ fl ++ st) = OK cb /\
    l = (found ++ fl ++ st) ++ cb.
Proof.
  unfold hand_candidates. intros H.
  destruct (analyse_same_number_hands cards) as [found |]; [| discriminate].
  cbn [bind] in H. destruct (analyse_flush cards) as [fl |]; [| discriminate].
  cbn [bind] in H.
  destruct (analyse_straight cards) as [st |]; [| discriminate].
  cbn [bind] in H.
  destruct (analyse_combination_hands cards (found ++ fl ++ st))
    as [cb |] eqn:Ecb; [| discriminate].
  cbn [bind] in H. injection H as <-.
  exists found, fl, st, cb. repeat split; auto.
Qed.

Lemma analyse_poker_hand_inv (cards : list Card) (w : PokerHand) :
  analyse_poker_hand cards = OK w ->
  exists l k, hand_candidates cards = OK l /\ order_hands l = OK (w, k).
Proof.
  unfold analyse_poker_hand. intros H.
  destruct (hand_candidates cards) as [l |]; [| discriminate].
  cbn [bind] in H.
  destruct (order_hands l) as [[h k] |] eqn:Eo; [| discriminate].
  cbn [bind] in H. injection H as ->. now exists l, k.
Qed.

Lemma count_candidates (found fl st : list PokerHand) :
  primaries_in [8; 4; 2; 1] found -> primaries_in [6] fl ->
  primaries_in [5] st ->
  filter (fun x => primary x =? 2) (found ++ fl ++ st)
  = filter (fun x => primary x =? 2) found /\
  filter (fun x => primary x =? 4) (found ++ fl ++ st)
  = filter (fun x => primary x =? 4) found /\
  filter (fun x => primary x =? 5) (found ++ fl ++ st) = st /\
  filter (fun x => primary x =? 6) (found ++ fl ++ st) = fl.
Proof.
  intros Pf Pfl Pst. rewrite !filter_app.
  rewrite (filter_primary_none fl [6] 2 Pfl) by (simpl; lia).
  rewrite (filter_primary_none st [5] 2 Pst) by (simpl; lia).
  rewrite (filter_primary_none fl [6] 4 Pfl) by (simpl; lia).
  rewrite (filter_primary_none st [5] 4 Pst) by (simpl; lia).
  rewrite (filter_primary_none found [8; 4; 2; 1] 5 Pf) by (simpl; lia).
  rewrite (filter_primary_none fl [6] 5 Pfl) by (simpl; lia).
  rewrite (filter_primary_none found [8; 4; 2; 1] 6 Pf) by (simpl; lia).
  rewrite (filter_primary_none st [5] 6 Pst) by (simpl; lia).
  rewrite (filter_primary_all st 5 Pst), (filter_primary_all fl 6 Pfl).
  cbn [app]. now rewrite !app_nil_r.
Qed.

Lemma count_primary_in (l : list PokerHand) (p : Z) (n : nat) :
  length (filter (fun x => primary x =? p) l) = n ->
  (forall h, In h l -> primary h = p -> (1 <= n)%nat) /\
  ((1 <= n)%nat -> exists h, In h l /\ primary h = p).
Proof.
  intros <-. split.
  - intros h Hh Hp. apply filter_length_pos. exists h.
    split; [exact Hh | now apply Z.eqb_eq].
  - intros H. apply filter_length_pos in H. destruct H as (h & Hh & Hp).
    exists h. split; [exact Hh | now apply Z.eqb_eq].
Qed.

Lemma analyse_poker_hand_category (cards : list Card) (w : PokerHand) :
  length cards = 5%nat -> NoDup cards ->
  Forall (fun c => In c new_deck_cards) cards ->
  StronglySorted (desc points Z.leb) cards ->
  analyse_poker_hand cards = OK w -> primary w = category cards.
Proof.
  intros L N D S H.
  destruct (analyse_poker_hand_inv cards w H) as (l & k & El & Eo).
  destruct (hand_candidates_inv cards l El)
    as (found & fl & st & cb & Ef & Efl & Est & Ecb & ->).
  destruct (rank_pass_deck cards N D) as (found' & Ef' & Hf).
  rewrite <- (analyse_same_number_hands_rank_pass cards
                (valid_hand_str_nodup cards N D)) in Ef'.
  assert (found' = found) by congruence. subst found'.
  destruct (found_group_counts cards _ found Hf) as (C8 & C4 & C2 & C1).
  fold (groups_of_size cards 4) in C8. fold (groups_of_size cards 3) in C4.
  fold (groups_of_size cards 2) in C2. fold (groups_of_size cards 1) in C1.
  destruct (analyse_flush_exact _ _ Efl) as [Lfl Pfl].
  destruct (analyse_straight_exact _ _ S D Est) as [Lst Pst].
  assert (Pf : primaries_in [8; 4; 2; 1] found)
    by (eapply found_primaries; eauto).
  assert (T := groups_total cards N D). rewrite L in T.
  assert (Hcb := analyse_combination_primary _ _ _ Ecb).
  cbv beta zeta in Hcb.
  destruct (count_candidates found fl st Pf Pfl Pst)
    as (K2 & K4 & K5 & K6).
  rewrite K2, K4, K5, K6, C2, C4 in Hcb. clear K2 K4 K5 K6.
  apply order_hands_winner_highest, highest_hands_in in Eo.
  destruct Eo as [Hw Hmax].
  destruct (count_primary_in _ _ _ C8) as [U8 L8].
  destruct (count_primary_in _ _ _ C4) as [U4 L4].
  destruct (count_primary_in _ _ _ C2) as [U2 L2].
  destruct (count_primary_in _ _ _ C1) as [U1 L1].
  assert (F0 : is_flush cards = true ->
               groups_of_size cards 2 = 0%nat /\
               groups_of_size cards 3 = 0%nat /\
               groups_of_size cards 4 = 0%nat).
  { intros F. repeat split; apply flush_groups; auto. }
  assert (P6 : forall h, In h fl -> primary h = 6).
  { intros h Hh. destruct (Pfl h Hh) as [E | []]. now symmetry. }
  assert (P5 : forall h, In h st -> primary h = 5).
  { intros h Hh. destruct (Pst h Hh) as [E | []]. now symmetry. }
  unfold category.
  rewrite !of_a_kind_groups, is_two_pairs_groups.
  set (g1 := groups_of_size cards 1) in *.
  set (g2 := groups_of_size cards 2) in *.
  set (g3 := groups_of_size cards 3) in *.
  set (g4 := groups_of_size cards 4) in *.
  assert (Low8 : (1 <= g4)%nat -> 8 <= primary w).
  { intros G. destruct (L8 G) as (h & Hh & <-). apply Hmax.
    apply in_or_app. left. apply in_or_app. now left. }
  assert (Low4 : (1 <= g3)%nat -> 4 <= primary w).
  { intros G. destruct (L4 G) as (h & Hh & <-). apply Hmax.
    apply in_or_app. left. apply in_or_app. now left. }
  assert (Low2 : (1 <= g2)%nat -> 2 <= primary w).
  { intros G. destruct (L2 G) as (h & Hh & <-). apply Hmax.
    apply in_or_app. left. apply in_or_app. now left. }
  assert (Low1 : (1 <= g1)%nat -> 1 <= primary w).
  { intros G. destruct (L1 G) as (h & Hh & <-). apply Hmax.
    apply in_or_app. left. apply in_or_app. now left. }
  assert (Low6 : length fl = 1%nat -> 6 <= primary w).
  { intros G. destruct fl as [| h r]; [discriminate |].
    rewrite <- (P6 h (or_introl eq_refl)). apply Hmax.
    apply in_or_app. left. apply in_or_app. right.
    apply in_or_app. left. now left. }
  assert (Low5 : length st = 1%nat -> 5 <= primary w).
  { intros G. destruct st as [| h r]; [discriminate |].
    rewrite <- (P5 h (or_introl eq_refl)). apply Hmax.
    apply in_or_app. left. apply in_or_app. right.
    apply in_or_app. right. now left. }
  assert (Lowcb : forall h, In h cb -> primary h <= primary w).
  { intros h Hh. apply Hmax. apply in_or_app. now right. }
  assert (Up :
           (primary w = 8 /\ (1 <= g4)%nat) \/
           (primary w = 4 /\ (1 <= g3)%nat) \/
           (primary w = 2 /\ (1 <= g2)%nat) \/
           (primary w = 1 /\ (1 <= g1)%nat) \/
           (primary w = 6 /\ (1 <= length fl)%nat) \/
           (primary w = 5 /\ (1 <= length st)%nat) \/
           In w cb).
  { apply in_app_or in Hw. destruct Hw as [Hw | Hw]; [| tauto].
    apply in_app_or in Hw. destruct Hw as [Hw | Hw].
    - destruct (Pf w Hw) as [E | [E | [E | [E | []]]]]; symmetry in E.
      + left. split; [exact E |]. now apply (U8 w).
      + right. left. split; [exact E |]. now apply (U4 w).
      + right. right. left. split; [exact E |]. now apply (U2 w).
      + right. right. right. left. split; [exact E |]. now apply (U1 w).
    - apply in_app_or in Hw. destruct Hw as [Hw | Hw].
      + right. right. right. right. left. split; [now apply P6 |].
        destruct fl; [destruct Hw | simpl; lia].
      + right. right. right. right. right. left. split; [now apply P5 |].
        destruct st; [destruct Hw | simpl; lia]. }
  clear U8 U4 U2 U1 L8 L4 L2 L1 C8 C4 C2 C1 Hmax Hw.
  destruct (is_flush cards) eqn:F;
    [destruct (F0 eq_refl) as (Z2 & Z3 & Z4) | clear F0];
    destruct (is_straight cards) eqn:St; cbn [andb];
    destruct (Nat.ltb_spec 0 g4), (Nat.ltb_spec 0 g3),
      (Nat.ltb_spec 0 g2), (Nat.eqb_spec g2 2); cbn [andb]; try lia;
    destruct Hcb
      as [(E2 & h & -> & Hp) | [(E2 & E4 & h & -> & Hp)
         | [(E2 & E4 & E5 & E6 & h & -> & Hp) | (E2 & E4 & E56 & ->)]]];
    try lia;
    try (assert (Hh := Lowcb h (or_introl eq_refl)));
    destruct Up as [U | [U | [U | [U | [U | [U | U]]]]]];
    try (destruct U as [<- | []]); try destruct U; try lia.
Qed.

(** The evaluator ranks a hand in the category that the rules of poker give
    its five cards: straight flush (9) for a flush that is a straight, else
    four of a kind (8), full house (7), flush (6), straight (5), three of a
    kind (4), two pairs (3), pair (2), and high card (1) for the rest; the
    ace closes a straight above the king or opens one below the 2.  This
    holds for five different cards given in any order, and for the five
    cards picked from a deck in use. *)
Theorem hand_category :
  (forall cs,
      valid_hand cs ->
      exists hand,
        HandOfCards_test cs = OK hand /\
        primary (poker_hand hand) = category cs) /\
  (forall deck hand deck',
      deck_in_use deck ->
      HandOfCards_deck deck 5 = OK (hand, deck') ->
      primary (poker_hand hand) = category (cards hand)).
Proof.
  split.
  - intros cs V. destruct (valid_hand_sorted cs V) as (L & N & D).
    destruct (HandOfCards_test_valid cs V) as (hand & E & _ & _).
    exists hand. split; [exact E |].
    unfold HandOfCards_test in E.
    destruct (analyse_poker_hand (sorted_desc points Z.leb cs))
      as [ph |] eqn:Eph; [| discriminate].
    cbn [bind] in E. injection E as <-. cbn [poker_hand].
    rewrite (analyse_poker_hand_category _ ph L N D); auto.
    + apply category_perm, sorted_desc_perm.
    + apply sorted_desc_sorted; [apply Zleb_total | apply Zleb_trans].
  - intros deck hand deck' U H. unfold HandOfCards_deck in H.
    destruct (pick_cards 5 deck) as [[picked d] |] eqn:Ep; [| discriminate].
    cbn [bind] in H.
    destruct (analyse_poker_hand (sorted_desc points Z.leb picked))
      as [ph |] eqn:Eph; [| discriminate].
    cbn [bind] in H. injection H as <- <-. cbn [poker_hand cards].
    destruct (valid_hand_sorted picked (picked_valid _ _ _ U Ep))
      as (L & N & D).
    apply analyse_poker_hand_category; auto.
    apply sorted_desc_sorted; [apply Zleb_total | apply Zleb_trans].
Qed.

Lemma hand_category_witness :
  exists hand,
    HandOfCards_test pair_of_threes_cards = OK hand /\
    primary (poker_hand hand) = category pair_of_threes_cards.
Proof.
  exact (proj1 hand_category pair_of_threes_cards
           pair_of_threes_cards_valid).
Defined.

(** ** The ranking inside the evaluator *)

(** The candidates of five different cards have pairwise different scores:
    the ranking that ends [analyse_poker_hand] finds its winner by category
    and secondary score alone, with kicker index -2; it never compares
    kickers, which straights and full houses do not have. *)
Theorem candidates_never_tie (cs : list Card) :
  valid_hand cs ->
  exists candidates w,
    hand_candidates (sorted_desc points Z.leb cs) = OK candidates /\
    NoDup (map score candidates) /\
    order_hands candidates = OK (w, -2) /\
    analyse_poker_hand (sorted_desc points Z.leb cs) = OK w.
Proof.
  intros V. destruct (valid_hand_sorted cs V) as (L & N & D).
  destruct (hand_candidates_valid _ L N D)
    as (found & others & _ & _ & E & Hne & Hk & Nd & _).
  destruct (order_hands_distinct_scores (found ++ others))
    as (w & Ew & _); auto.
  { destruct found; [congruence | discriminate]. }
  exists (found ++ others), w. repeat split; auto.
  unfold analyse_poker_hand. rewrite E. cbn [bind]. now rewrite Ew.
Qed.

Lemma candidates_never_tie_witness :
  exists candidates w,
    hand_candidates (sorted_desc points Z.leb flush_cards) = OK candidates /\
    NoDup (map score candidates) /\
    order_hands candidates = OK (w, -2) /\
    analyse_poker_hand (sorted_desc points Z.leb flush_cards) = OK w.
Proof. exact (candidates_never_tie flush_cards flush_cards_valid). Defined.

(** ** The formatter *)

Lemma append_assoc (a b c : string) : (a +++ b) +++ c = a +++ b +++ c.
Proof. induction a as [| x a IH]; simpl; [reflexivity | now rewrite IH]. Qed.

Lemma order_hands_kicker_cases (hand_list : list PokerHand) (w : PokerHand)
    (k : Z) :
  order_hands hand_list = OK (w, k) ->
  In w hand_list /\
  (k = -2 \/ ((k = -1 \/ 1 <= k) /\ exists ks, kickers w = Some ks)).
Proof.
  intros H. split.
  { apply order_hands_winner_highest, highest_hands_in in H. tauto. }
  destruct (order_hands_inv _ _ _ H) as (shh & _ & Hcase).
  destruct Hcase
    as [(_ & -> & _)
       | (fh & h1 & rest & k0 & k1 & _ & _ & Hk0 & Hk1 & Hscan)];
    [now left |].
  right. split; [| now exists k0].
  destruct (kicker_scan_result h1 k1 Hk1 k0 [] k eq_refl Hscan)
    as [[-> _] | (i & -> & _)]; [now left | right; lia].
Qed.

(** *** A win that kickers did not decide *)

Lemma one_winner_loop_none (best : PokerHand) (back : list PokerHand) :
  Forall (fun x => description x <> description best) back ->
  forall k i bi, one_winner_loop best k back i bi = OK bi.
Proof.
  induction 1 as [| x back Hx _ IH]; intros k i bi; cbn [one_winner_loop];
    [reflexivity |].
  apply String.eqb_neq in Hx. rewrite Hx. apply IH.
Qed.

Lemma one_winner_loop_last (best h : PokerHand)
    (front back : list PokerHand) :
  description h = description best ->
  Forall (fun x => description x <> description best) back ->
  forall i bi,
    one_winner_loop best (-2) (front ++ h :: back) i bi
    = OK (Some (i + length front)%nat).
Proof.
  intros Hh Hb. induction front as [| x front IH]; intros i bi.
  - cbn [app one_winner_loop length]. apply String.eqb_eq in Hh.
    rewrite Hh. cbn. rewrite one_winner_loop_none by exact Hb.
    now rewrite Nat.add_0_r.
  - cbn [app one_winner_loop length].
    replace (i + S (length front))%nat with (S i + length front)%nat by lia.
    destruct (String.eqb (description x) (description best)); cbn;
      apply IH.
Qed.

Lemma hand_cards_loop_plain (marked : bool) (k : Z) (h : PokerHand)
    (cs : list Card) :
  marked && (-1 <? k) = false ->
  forall s pr,
    hand_cards_loop marked k h cs s pr
    = OK (s +++ fold_right String.append ""
                  (map (fun c => nl +++ " - " +++ Card_str c) cs),
          pr ++ map Card_str cs).
Proof.
  intros Hm. induction cs as [| c cs IH]; intros s pr;
    cbn [hand_cards_loop map fold_right].
  - now rewrite append_empty_r, app_nil_r.
  - rewrite Hm. cbn [bind]. rewrite IH, append_empty_r.
    rewrite <- app_assoc. cbn [app].
    now rewrite !append_assoc.
Qed.

Lemma other_cards_loop_filter (ks : list Card) (pr : list string) :
  forall s,
    other_cards_loop ks s pr
    = s +++ fold_right String.append ""
              (map (fun k => nl +++ "(- " +++ Card_str k +++ ")")
                   (filter (fun k => negb (printed (Card_str k) pr)) ks)).
Proof.
  induction ks as [| k ks IH]; intros s;
    cbn [other_cards_loop filter map fold_right].
  - now rewrite append_empty_r.
  - destruct (negb (printed (Card_str k) pr)); cbn [map fold_right].
    + rewrite IH. now rewrite !append_assoc.
    + apply IH.
Qed.

Lemma hand_block_plain (p : inflect_engine) (i : nat) (bis : list nat)
    (idx : nat) (h : PokerHand) (s : string) :
  hand_block p (Some i) bis idx h (-2) s
  = OK (-2, s +++ plain_block p i idx h).
Proof.
  unfold hand_block. cbv zeta.
  replace (-2 =? -1) with false by reflexivity.
  replace (-2 <? -2) with false by reflexivity.
  rewrite !andb_false_r.
  rewrite hand_cards_loop_plain by apply andb_false_r.
  cbn [bind app]. unfold plain_block, kicker_list, PokerHand_str.
  f_equal. f_equal.
  destruct (kickers h) as [ks |].
  - rewrite other_cards_loop_filter.
    destruct (Nat.eqb idx i); rewrite ?append_assoc; reflexivity.
  - cbn [filter map fold_right].
    destruct (Nat.eqb idx i); rewrite ?append_assoc, ?append_empty_r;
      reflexivity.
Qed.

Lemma hands_loop_plain (p : inflect_engine) (i : nat) (bis : list nat)
    (hands : list PokerHand) :
  forall idx s,
    hands_loop p (Some i) bis hands idx (-2) s
    = OK (-2, s +++ plain_blocks p i idx hands).
Proof.
  induction hands as [| h hands IH]; intros idx s;
    cbn [hands_loop plain_blocks].
  - now rewrite append_empty_r.
  - rewrite hand_block_plain. cbn [bind]. rewrite IH.
    now rewrite append_assoc.
Qed.

Lemma last_with {A : Type} (f : A -> bool) (l : list A) :
  existsb f l = true ->
  exists front h back,
    l = front ++ h :: back /\ f h = true /\
    Forall (fun y => f y = false) back.
Proof.
  induction l as [| a l IH]; cbn [existsb]; [discriminate |].
  destruct (existsb f l) eqn:E.
  - intros _. destruct (IH eq_refl) as (front & h & back & -> & Hh & Hb).
    exists (a :: front), h, back. repeat split; auto.
  - rewrite orb_false_r. intros Ha. exists [], a, l.
    split; [reflexivity |]. split; [exact Ha |].
    apply Forall_forall. intros z Hz.
    destruct (f z) eqn:Ez; [| reflexivity].
    rewrite <- E. symmetry. apply existsb_exists. now exists z.
Qed.

(** When kickers did not decide (kicker index -2), the formatter returns a
    report, whatever the engine.  The hand it names as the winner, and marks
    with "Winning hand", is the last hand of the list that is described as
    the best hand is: the best hand when no other hand has its description,
    but a later flush of the same suit otherwise, whatever its cards.  Each
    hand is printed with its hand cards and, in brackets, its other
    kickers. *)
Theorem str_hand_comparison_plain_win (p : inflect_engine)
    (hands : list PokerHand) (best : PokerHand) :
  order_hands hands = OK (best, -2) ->
  (exists front h back,
      hands = front ++ h :: back /\
      description h = description best /\
      Forall (fun x => description x <> description best) back) /\
  (forall front h back,
      hands = front ++ h :: back ->
      description h = description best ->
      Forall (fun x => description x <> description best) back ->
      str_hand_comparison p hands
      = OK (delimiter +++ nl +++ "The "
            +++ number_to_words p (ordinal p (Z.of_nat (length front) + 1))
            +++ " hand wins with " +++ description best +++ "."
            +++ plain_blocks p (length front) 0 hands +++ delimiter)).
Proof.
  intros H. split.
  - destruct (order_hands_kicker_cases _ _ _ H) as [Hin _].
    destruct (last_with
                (fun x => String.eqb (description x) (description best))
                hands)
      as (front & h & back & E & Hh & Hb).
    { apply existsb_exists. exists best. split; [exact Hin |].
      apply String.eqb_refl. }
    exists front, h, back. split; [exact E |].
    split; [now apply String.eqb_eq |].
    eapply Forall_impl; [| exact Hb]. intros x Hx.
    now apply String.eqb_neq.
  - intros front h back E Hh Hb. unfold str_hand_comparison.
    rewrite H. cbn [bind]. unfold winning_hands.
    replace (negb (-2 =? -1)) with true by reflexivity.
    rewrite E at 1.
    rewrite (one_winner_loop_last best h front back Hh Hb 0 None).
    cbn [bind Nat.add]. replace (-1 <? -2) with false by reflexivity.
    cbv [bind]. rewrite hands_loop_plain. unfold PokerHand_str.
    change ("" +++ plain_blocks p (length front) 0 hands)
      with (plain_blocks p (length front) 0 hands).
    now rewrite !append_assoc.
Qed.

Lemma str_hand_comparison_plain_win_witness :
  exists ace_high king_high,
    club_flushes = [ace_high; king_high] /\
    order_hands club_flushes = OK (ace_high, -2) /\
    score ace_high = (6, SInt 14) /\ score king_high = (6, SInt 13) /\
    str_hand_comparison plain_engine club_flushes
    = OK (delimiter +++ nl +++ "The "
          +++ number_to_words plain_engine (ordinal plain_engine 2)
          +++ " hand wins with " +++ description ace_high +++ "."
          +++ plain_blocks plain_engine 1 0 club_flushes +++ delimiter).
Proof.
  eexists. eexists. split; [vm_compute; reflexivity |].
  split; [vm_compute; reflexivity |].
  split; [reflexivity |]. split; [reflexivity |].
  refine (proj2 (str_hand_comparison_plain_win plain_engine club_flushes
                   _ _) [_] _ [] _ _ _).
  - vm_compute. reflexivity.
  - vm_compute. reflexivity.
  - reflexivity.
  - constructor.
Defined.

(** *** A win or a draw with no second hand of the same description *)

Lemma remove_all_self (ks : list Card) :
  fold_left (fun kicker_points best_kicker =>
               remove_first (points best_kicker) kicker_points)
            ks (map points ks) = [].
Proof.
  induction ks as [| c ks IH]; [reflexivity |].
  cbn [map fold_left remove_first]. now rewrite Z.eqb_refl.
Qed.

Lemma unmatched_self (best : PokerHand) (ks : list Card) :
  kickers best = Some ks -> unmatched_kicker_points best best = OK [].
Proof.
  intros H. unfold unmatched_kicker_points. rewrite H.
  now rewrite remove_all_self.
Qed.

Lemma draw_loop_none (best : PokerHand) (back : list PokerHand) :
  Forall (fun x => description x <> description best) back ->
  forall i bis, draw_loop best back i bis = OK bis.
Proof.
  induction 1 as [| x back Hx _ IH]; intros i bis; cbn [draw_loop];
    [reflexivity |].
  apply String.eqb_neq in Hx. rewrite Hx. apply IH.
Qed.

Lemma same_description_loop_none (best : PokerHand)
    (back : list PokerHand) :
  Forall (fun x => description x <> description best) back ->
  forall i bis, same_description_loop best back i bis = bis.
Proof.
  induction 1 as [| x back Hx _ IH]; intros i bis;
    cbn [same_description_loop]; [reflexivity |].
  apply String.eqb_neq in Hx. rewrite Hx. apply IH.
Qed.

Lemma lone_description_loops (best : PokerHand) (ks : list Card)
    (front back : list PokerHand) (k : Z) :
  kickers best = Some ks ->
  Forall (fun x => description x <> description best) front ->
  Forall (fun x => description x <> description best) back ->
  forall i,
    (forall bis, draw_loop best (front ++ best :: back) i bis
                 = OK (bis ++ [(i + length front)%nat])) /\
    (forall bis, same_description_loop best (front ++ best :: back) i bis
                 = bis ++ [(i + length front)%nat]) /\
    (forall bi, one_winner_loop best k (front ++ best :: back) i bi
                = OK (Some (i + length front)%nat)).
Proof.
  intros Hk Hf Hb. induction Hf as [| x front Hx _ IH]; intros i.
  - cbn [app length draw_loop same_description_loop one_winner_loop].
    rewrite String.eqb_refl, (unmatched_self best ks Hk), Nat.add_0_r.
    cbn [bind length Nat.eqb].
    split; [| split].
    + intros bis. now rewrite draw_loop_none.
    + intros bis. now rewrite same_description_loop_none.
    + intros bi. destruct (-1 <? k); now rewrite one_winner_loop_none.
  - cbn [app length draw_loop same_description_loop one_winner_loop].
    apply String.eqb_neq in Hx. rewrite Hx.
    replace (i + S (length front))%nat with (S i + length front)%nat by lia.
    apply IH.
Qed.

(** The formatter raises ValueError whenever kickers were compared, to a
    win or to a draw, and the best hand is the only hand with its
    description: the hand it was compared with is described otherwise, as
    a flush of another suit is. *)
Theorem str_hand_comparison_lone_description (p : inflect_engine)
    (front back : list PokerHand) (best : PokerHand) (k : Z) :
  order_hands (front ++ best :: back) = OK (best, k) ->
  k <> -2 ->
  Forall (fun x => description x <> description best) front ->
  Forall (fun x => description x <> description best) back ->
  str_hand_comparison p (front ++ best :: back) = Err ValueError.
Proof.
  intros H Hk Hf Hb.
  destruct (order_hands_kicker_cases _ _ _ H) as [_ [-> | [Hc (ks & Hks)]]];
    [congruence |].
  destruct (lone_description_loops best ks front back k Hks Hf Hb 0)
    as (Ld & Ls & Lo).
  unfold str_hand_comparison. rewrite H. cbn [bind]. unfold winning_hands.
  destruct Hc as [-> | Hc].
  - replace (negb (-1 =? -1)) with false by reflexivity.
    rewrite Ld. reflexivity.
  - replace (negb (k =? -1)) with true
      by (symmetry; apply negb_true_iff, Z.eqb_neq; lia).
    rewrite Lo. cbn [bind].
    replace (-1 <? k) with true by (symmetry; apply Z.ltb_lt; lia).
    rewrite Ls. reflexivity.
Qed.

Lemma str_hand_comparison_lone_description_witness :
  exists clubs hearts,
    ace_flushes = [clubs; hearts] /\
    order_hands ace_flushes = OK (clubs, 5) /\
    str_hand_comparison plain_engine ace_flushes = Err ValueError.
Proof.
  eexists. eexists. split; [vm_compute; reflexivity |].
  split; [vm_compute; reflexivity |].
  refine (str_hand_comparison_lone_description plain_engine [] [_] _ 5
            _ _ _ _).
  - vm_compute. reflexivity.
  - lia.
  - constructor.
  - constructor; [| constructor]. vm_compute. discriminate.
Defined.

(** *** Wins and draws that kickers decided *)

Lemma printed_in_same_str (c x : Card) (l : list Card) :
  Card_str c = Card_str x -> printed_in c l = printed_in x l.
Proof. intros E. unfold printed_in. now rewrite E. Qed.

Lemma printed_app (s : string) (a b : list string) :
  printed s (a ++ b) = printed s a || printed s b.
Proof. apply existsb_app. Qed.

Lemma printed_in_filter (c : Card) (hc F : list Card) :
  printed_in c (filter (fun x => negb (printed_in x hc)) F)
  = printed_in c F && negb (printed_in c hc).
Proof.
  induction F as [| x F IH]; [reflexivity |].
  cbn [filter].
  assert (Hx : printed_in c (x :: F)
               = String.eqb (Card_str c) (Card_str x) || printed_in c F)
    by reflexivity.
  rewrite Hx. destruct (String.eqb (Card_str c) (Card_str x)) eqn:E.
  - apply String.eqb_eq in E. rewrite <- (printed_in_same_str c x hc E).
    destruct (printed_in c hc) eqn:Ec; cbn [negb orb andb].
    + rewrite IH. apply andb_false_r.
    + unfold printed_in at 1. cbn [map existsb].
      apply String.eqb_eq in E. now rewrite E.
  - cbn [orb]. destruct (printed_in x hc); cbn [negb]; [exact IH |].
    unfold printed_in at 1. cbn [map existsb]. rewrite E. exact IH.
Qed.

Lemma NoDup_firstn {A : Type} (n : nat) (l : list A) :
  NoDup l -> NoDup (firstn n l).
Proof.
  intros N. revert n. induction N as [| x l Hx _ IH]; intros [| n];
    cbn [firstn]; try constructor; [| apply IH].
  intros Hin. apply Hx. revert Hin. clear. revert n.
  induction l as [| y l IHl]; intros [| n]; cbn [firstn];
    try (intros []; fail).
  intros [-> | H]; [now left | right; eauto].
Qed.

Lemma hand_cards_loop_tagged (k : Z) (h : PokerHand) (ks cs : list Card) :
  kickers h = Some ks ->
  forall s pr,
    hand_cards_loop true k h cs s pr
    = OK (s +++ fold_right String.append ""
                  (map (fun c =>
                          nl +++ " - " +++ Card_str c
                          +++ (if (-1 <? k)
                                  && printed_in c (firstn (Z.to_nat k) ks)
                               then " (kicker)" else ""))
                       cs),
          pr ++ map Card_str cs).
Proof.
  intros Hk. induction cs as [| c cs IH]; intros s pr;
    cbn [hand_cards_loop map fold_right].
  - now rewrite append_empty_r, app_nil_r.
  - rewrite Hk. cbn [andb].
    destruct (-1 <? k); cbn [bind andb]; rewrite IH, <- app_assoc;
      cbn [app]; now rewrite !append_assoc.
Qed.

Lemma kickers_loop_filter (F : list Card) :
  NoDup (map Card_str F) ->
  forall s pr,
    kickers_loop F s pr
    = (s +++ fold_right String.append ""
               (map (fun c => nl +++ " - " +++ Card_str c +++ " (kicker)")
                    (filter (fun c => negb (printed (Card_str c) pr)) F)),
       pr ++ map Card_str
               (filter (fun c => negb (printed (Card_str c) pr)) F)).
Proof.
  induction F as [| c F IH]; intros N s pr;
    cbn [kickers_loop filter map fold_right].
  - now rewrite append_empty_r, app_nil_r.
  - cbn [map] in N. inversion N as [| ? ? Hc N']; subst.
    destruct (printed (Card_str c) pr) eqn:E; cbn [negb].
    + now apply IH.
    + rewrite (IH N'). cbn [map fold_right].
      assert (Hf : filter (fun x => negb (printed (Card_str x)
                                            (pr ++ [Card_str c]))) F
                   = filter (fun x => negb (printed (Card_str x) pr)) F).
      { apply filter_ext_in. intros x Hx. rewrite printed_app.
        cbn [printed existsb]. rewrite orb_false_r.
        destruct (String.eqb (Card_str x) (Card_str c)) eqn:Ex;
          [| now rewrite orb_false_r].
        exfalso. apply Hc. apply String.eqb_eq in Ex. rewrite <- Ex.
        now apply in_map. }
      rewrite Hf, <- app_assoc. cbn [app]. now rewrite !append_assoc.
Qed.

Lemma hand_block_unmarked (p : inflect_engine) (bi : option nat)
    (bis : list nat) (idx : nat) (h : PokerHand) (k : Z) (s : string) :
  existsb (Nat.eqb idx) bis = false ->
  hand_block p bi bis idx h k s = OK (k, s +++ unmarked_block p bi idx h).
Proof.
  intros Hm. unfold hand_block. cbv zeta. rewrite Hm. cbn [andb].
  rewrite hand_cards_loop_plain by reflexivity.
  cbn [bind app]. unfold unmarked_block, kicker_list, PokerHand_str.
  fold (winner_mark bi idx). f_equal. f_equal.
  destruct (kickers h) as [ks |].
  - rewrite other_cards_loop_filter.
    destruct (winner_mark bi idx); rewrite ?append_assoc; reflexivity.
  - cbn [filter map fold_right].
    destruct (winner_mark bi idx); rewrite ?append_assoc, ?append_empty_r;
      reflexivity.
Qed.

Lemma hand_block_marked (p : inflect_engine) (bi : option nat)
    (bis : list nat) (idx : nat) (h : PokerHand) (ks : list Card) (k : Z)
    (s : string) :
  existsb (Nat.eqb idx) bis = true ->
  kickers h = Some ks -> NoDup (map Card_str ks) -> -1 <= k ->
  hand_block p bi bis idx h k s
  = OK (if k =? -1 then Z.of_nat (length ks) + 1 else k,
        s +++ marked_block p bi idx h k).
Proof.
  intros Hm Hk N Hle. unfold hand_block. cbv zeta. rewrite Hm. cbn [andb].
  rewrite (hand_cards_loop_tagged k h ks _ Hk). cbn [bind app].
  replace (-2 <? k) with true by (symmetry; apply Z.ltb_lt; lia).
  rewrite Hk.
  set (k' := if k =? -1 then Z.of_nat (length ks) + 1 else k).
  rewrite kickers_loop_filter
    by (rewrite <- firstn_map; now apply NoDup_firstn).
  cbn [bind]. rewrite other_cards_loop_filter.
  unfold marked_block, kicker_list, PokerHand_str. rewrite Hk. cbv zeta.
  fold k'. fold (winner_mark bi idx). f_equal. f_equal.
  assert (Hf : filter
                 (fun c =>
                    negb (printed (Card_str c)
                            (map Card_str (hand_cards h) ++
                             map Card_str
                               (filter
                                  (fun c0 =>
                                     negb (printed (Card_str c0)
                                             (map Card_str (hand_cards h))))
                                  (firstn (Z.to_nat k') ks))))) ks
               = filter
                   (fun c =>
                      negb (printed_in c (hand_cards h))
                      && negb (printed_in c (firstn (Z.to_nat k') ks))) ks).
  { apply filter_ext. intros c. rewrite printed_app.
    change (printed (Card_str c) (map Card_str (hand_cards h)))
      with (printed_in c (hand_cards h)).
    change (printed (Card_str c)
              (map Card_str
                 (filter (fun c0 => negb (printed (Card_str c0)
                                            (map Card_str (hand_cards h))))
                         (firstn (Z.to_nat k') ks))))
      with (printed_in c
              (filter (fun c0 => negb (printed_in c0 (hand_cards h)))
                      (firstn (Z.to_nat k') ks))).
    rewrite printed_in_filter.
    now destruct (printed_in c (hand_cards h)),
      (printed_in c (firstn (Z.to_nat k') ks)). }
  rewrite Hf.
  destruct (winner_mark bi idx); [| destruct (k =? -1)];
    rewrite ?append_assoc; reflexivity.
Qed.

Lemma hands_loop_kicker (p : inflect_engine) (marked : PokerHand -> bool)
    (bi : option nat) (bis : list nat) (hands : list PokerHand) :
  forall idx k s,
    0 <= k -> printable marked hands ->
    (forall j h, nth_error hands j = Some h ->
                 existsb (Nat.eqb (idx + j)) bis = marked h) ->
    hands_loop p bi bis hands idx k s
    = OK (k, s +++ kicker_blocks p marked bi k idx hands).
Proof.
  induction hands as [| h hands IH]; intros idx k s Hk Hp Hc;
    cbn [hands_loop kicker_blocks].
  - now rewrite append_empty_r.
  - inversion Hp as [| ? ? Hh Hp']; subst.
    assert (Hm := Hc 0%nat h eq_refl). rewrite Nat.add_0_r in Hm.
    assert (Hc' : forall j x, nth_error hands j = Some x ->
                              existsb (Nat.eqb (S idx + j)) bis = marked x).
    { intros j x Hx. rewrite <- (Hc (S j) x Hx). f_equal. f_equal. lia. }
    destruct (marked h) eqn:E.
    + destruct (Hh eq_refl) as (ks & Hks & N).
      rewrite (hand_block_marked p bi bis idx h ks k s Hm Hks N)
        by lia.
      replace (k =? -1) with false by (symmetry; apply Z.eqb_neq; lia).
      cbn [bind]. rewrite (IH _ _ _ Hk Hp' Hc').
      now rewrite append_assoc.
    + rewrite (hand_block_unmarked p bi bis idx h k s Hm). cbn [bind].
      rewrite (IH _ _ _ Hk Hp' Hc'). now rewrite append_assoc.
Qed.

Lemma hands_loop_draw (p : inflect_engine) (marked : PokerHand -> bool)
    (bis : list nat) (hands : list PokerHand) :
  forall idx s,
    printable marked hands ->
    (forall j h, nth_error hands j = Some h ->
                 existsb (Nat.eqb (idx + j)) bis = marked h) ->
    exists k,
      hands_loop p None bis hands idx (-1) s
      = OK (k, s +++ draw_blocks p marked idx hands).
Proof.
  induction hands as [| h hands IH]; intros idx s Hp Hc;
    cbn [hands_loop draw_blocks].
  - exists (-1). now rewrite append_empty_r.
  - inversion Hp as [| ? ? Hh Hp']; subst.
    assert (Hm := Hc 0%nat h eq_refl). rewrite Nat.add_0_r in Hm.
    assert (Hc' : forall j x, nth_error hands j = Some x ->
                              existsb (Nat.eqb (S idx + j)) bis = marked x).
    { intros j x Hx. rewrite <- (Hc (S j) x Hx). f_equal. f_equal. lia. }
    destruct (marked h) eqn:E.
    + destruct (Hh eq_refl) as (ks & Hks & N).
      rewrite (hand_block_marked p None bis idx h ks (-1) s Hm Hks N)
        by lia.
      replace (-1 =? -1) with true by reflexivity. cbn [bind].
      exists (Z.of_nat (length ks) + 1).
      assert (Hpos : 0 <= Z.of_nat (length ks) + 1) by lia.
      rewrite (hands_loop_kicker p marked None bis hands _ _ _
                 Hpos Hp' Hc').
      unfold kicker_list. rewrite Hks. now rewrite append_assoc.
    + rewrite (hand_block_unmarked p None bis idx h (-1) s Hm).
      cbn [bind]. destruct (IH (S idx) (s +++ unmarked_block p None idx h)
                              Hp' Hc') as (k & Ek).
      exists k. rewrite Ek. now rewrite append_assoc.
Qed.

Lemma indices_of_in (marked : PokerHand -> bool) (hands : list PokerHand) :
  forall idx i,
    In i (indices_of marked hands idx) <->
    exists j h, i = (idx + j)%nat /\ nth_error hands j = Some h /\
                marked h = true.
Proof.
  induction hands as [| x hands IH]; intros idx i; cbn [indices_of].
  - split; [intros [] | intros ([| j] & h & _ & H & _); discriminate].
  - assert (Hrest :
             In i (indices_of marked hands (S idx)) <->
             exists j h, i = (idx + S j)%nat /\
                         nth_error hands j = Some h /\ marked h = true).
    { rewrite IH. split; intros (j & h & -> & H); exists j, h;
        (split; [lia | exact H]). }
    destruct (marked x) eqn:E; cbn [In]; rewrite Hrest; split.
    + intros [<- | (j & h & -> & H)].
      * exists 0%nat, x. repeat split; auto.
      * exists (S j), h. split; [reflexivity | exact H].
    + intros ([| j] & h & -> & H & Hm).
      * left. lia.
      * right. exists j, h. repeat split; auto.
    + intros (j & h & -> & H). exists (S j), h.
      split; [reflexivity | exact H].
    + intros ([| j] & h & -> & H & Hm).
      * cbn in H. injection H as <-. congruence.
      * exists j, h. repeat split; auto.
Qed.

Lemma indices_of_mem (marked : PokerHand -> bool) (hands : list PokerHand)
    (j : nat) (h : PokerHand) :
  nth_error hands j = Some h ->
  existsb (Nat.eqb (0 + j)) (indices_of marked hands 0) = marked h.
Proof.
  intros H. apply bool_eq_iff. rewrite existsb_exists. split.
  - intros (i & Hi & E). apply Nat.eqb_eq in E. subst i.
    apply indices_of_in in Hi. destruct Hi as (j' & h' & Ej & H' & Hm).
    assert (j' = j) by lia. subst j'. congruence.
  - intros Hm. exists (0 + j)%nat. split; [| apply Nat.eqb_refl].
    apply indices_of_in. now exists j, h.
Qed.

Lemma same_description_loop_indices (best : PokerHand)
    (hands : list PokerHand) :
  forall idx acc,
    same_description_loop best hands idx acc
    = acc ++ indices_of (described_as best) hands idx.
Proof.
  induction hands as [| h hands IH]; intros idx acc;
    cbn [same_description_loop indices_of]; [now rewrite app_nil_r |].
  unfold described_as at 1.
  destruct (String.eqb (description h) (description best)); rewrite IH;
    [now rewrite <- app_assoc | reflexivity].
Qed.

Lemma unmatched_total (best h : PokerHand) (bks : list Card) :
  kickers best = Some bks ->
  (described_as best h = true -> exists ks, kickers h = Some ks /\
                                            NoDup (map Card_str ks)) ->
  described_as best h = true ->
  exists kp,
    unmatched_kicker_points h best = OK kp /\
    tied_with best h = Nat.eqb (length kp) 0.
Proof.
  intros Hb Hh Hd. destruct (Hh Hd) as (ks & Hks & _).
  unfold tied_with, unmatched_kicker_points. rewrite Hd, Hks, Hb.
  eexists. split; [reflexivity |]. cbn [andb].
  now destruct (fold_left _ bks (map points ks)).
Qed.

Lemma tied_not_described (best h : PokerHand) :
  described_as best h = false -> tied_with best h = false.
Proof. intros H. unfold tied_with. now rewrite H. Qed.

Lemma draw_loop_indices (best : PokerHand) (bks : list Card)
    (hands : list PokerHand) :
  kickers best = Some bks -> printable (described_as best) hands ->
  forall idx acc,
    draw_loop best hands idx acc
    = OK (acc ++ indices_of (tied_with best) hands idx).
Proof.
  intros Hb Hp. induction Hp as [| h hands Hh _ IH]; intros idx acc;
    cbn [draw_loop indices_of]; [now rewrite app_nil_r |].
  destruct (Bool.bool_dec (described_as best h) true) as [Hd | Hd];
    [| apply not_true_is_false in Hd].
  - destruct (unmatched_total best h bks Hb Hh Hd) as (kp & Ekp & Et).
    unfold described_as in Hd. rewrite Hd, Ekp, Et. cbn [bind].
    rewrite IH. destruct (Nat.eqb (length kp) 0);
      [now rewrite <- app_assoc | reflexivity].
  - rewrite (tied_not_described best h Hd). unfold described_as in Hd.
    rewrite Hd. apply IH.
Qed.

Lemma last_default {A : Type} (l : list A) (a d : A) :
  last (a :: l) d = last l a.
Proof.
  revert a d. induction l as [| b l IH]; intros a d; [reflexivity |].
  change (last (a :: b :: l) d) with (last (b :: l) d).
  rewrite (IH b d). symmetry. apply IH.
Qed.

Lemma one_winner_loop_indices (best : PokerHand) (bks : list Card) (k : Z)
    (hands : list PokerHand) :
  kickers best = Some bks -> printable (described_as best) hands ->
  0 <= k ->
  forall idx bi,
    one_winner_loop best k hands idx bi
    = OK (last (map Some (indices_of (tied_with best) hands idx)) bi).
Proof.
  intros Hb Hp Hk. induction Hp as [| h hands Hh _ IH]; intros idx bi;
    cbn [one_winner_loop indices_of]; [reflexivity |].
  replace (-1 <? k) with true by (symmetry; apply Z.ltb_lt; lia).
  destruct (Bool.bool_dec (described_as best h) true) as [Hd | Hd];
    [| apply not_true_is_false in Hd].
  - destruct (unmatched_total best h bks Hb Hh Hd) as (kp & Ekp & Et).
    unfold described_as in Hd. rewrite Hd, Ekp, Et. cbn [bind].
    rewrite IH. destruct (Nat.eqb (length kp) 0); [| reflexivity].
    cbn [map]. now rewrite last_default.
  - rewrite (tied_not_described best h Hd). unfold described_as in Hd.
    rewrite Hd. apply IH.
Qed.

Lemma last_map_some (l : list nat) :
  l <> [] -> last (map Some l) None = Some (last l 0%nat).
Proof.
  destruct l as [| a l]; [congruence |]. intros _.
  cbn [map]. rewrite !last_default. revert a.
  induction l as [| b l IH]; intros a; [reflexivity |].
  cbn [map]. rewrite !last_default. apply IH.
Qed.

Lemma best_is_tied (best : PokerHand) (bks : list Card)
    (hands : list PokerHand) :
  kickers best = Some bks -> In best hands ->
  indices_of (tied_with best) hands 0 <> [].
Proof.
  intros Hb Hin E. apply In_nth_error in Hin. destruct Hin as (j & Hj).
  assert (H : In (0 + j)%nat (indices_of (tied_with best) hands 0)).
  { apply indices_of_in. exists j, best. repeat split; auto.
    unfold tied_with, described_as. rewrite String.eqb_refl.
    now rewrite (unmatched_self best bks Hb). }
  rewrite E in H. destruct H.
Qed.

Lemma printable_tied (best : PokerHand) (hands : list PokerHand) :
  printable (described_as best) hands -> printable (tied_with best) hands.
Proof.
  intros H. eapply Forall_impl; [| exact H]. intros h Hh Ht. apply Hh.
  unfold tied_with in Ht. now apply andb_prop in Ht.
Qed.

Lemma distinct_strings_nodup (l : list string) :
  distinct_strings l = true -> NoDup l.
Proof.
  induction l as [| s l IH]; cbn [distinct_strings]; intros H;
    constructor; apply andb_prop in H; destruct H as [Hs Hl].
  - intros Hin. apply negb_true_iff in Hs.
    assert (E : printed s l = true).
    { apply existsb_exists. exists s. split; [exact Hin |].
      apply String.eqb_refl. }
    congruence.
  - now apply IH.
Qed.

Lemma printableb_ok (marked : PokerHand -> bool) (hands : list PokerHand) :
  printableb marked hands = true -> printable marked hands.
Proof.
  unfold printableb, printable. rewrite forallb_forall, Forall_forall.
  intros H h Hh Hm. specialize (H h Hh). rewrite Hm in H. cbn [negb orb] in H.
  destruct (kickers h) as [ks |]; [| discriminate].
  exists ks. split; [reflexivity |]. now apply distinct_strings_nodup.
Qed.

(** When a kicker decided (kicker index 1 or more) and the hands described
    as the best hand is have kickers, the formatter raises ValueError if
    fewer than two hands have that description; otherwise it returns the
    report: the win statement names the last hand tied with the best hand
    on kicker points; every hand described as the best hand is, the winner
    and the losers, is printed with the kickers up to the deciding one
    tagged "(kicker)" and its other kickers in brackets; the other hands
    are printed plainly. *)
Theorem str_hand_comparison_kicker_win (p : inflect_engine)
    (hands : list PokerHand) (best : PokerHand) (k : Z) :
  order_hands hands = OK (best, k) -> 1 <= k ->
  printable (described_as best) hands ->
  ((length (indices_of (described_as best) hands 0) < 2)%nat ->
   str_hand_comparison p hands = Err ValueError) /\
  ((2 <= length (indices_of (described_as best) hands 0))%nat ->
   str_hand_comparison p hands
   = OK (delimiter +++ nl +++ "The "
         +++ number_to_words p
               (ordinal p
                  (Z.of_nat (last (indices_of (tied_with best) hands 0)
                                  0%nat) + 1))
         +++ " hand wins with " +++ description best +++ "."
         +++ kicker_blocks p (described_as best)
               (Some (last (indices_of (tied_with best) hands 0) 0%nat))
               k 0 hands
         +++ delimiter)).
Proof.
  intros H Hk Hp.
  destruct (order_hands_kicker_cases _ _ _ H)
    as [Hin [-> | [_ (bks & Hb)]]]; [lia |].
  unfold str_hand_comparison. rewrite H. cbn [bind]. unfold winning_hands.
  replace (negb (k =? -1)) with true
    by (symmetry; apply negb_true_iff, Z.eqb_neq; lia).
  rewrite (one_winner_loop_indices best bks k hands Hb Hp) by lia.
  rewrite (last_map_some _ (best_is_tied best bks hands Hb Hin)).
  cbn [bind].
  replace (-1 <? k) with true by (symmetry; apply Z.ltb_lt; lia).
  rewrite same_description_loop_indices. cbn [app]. split.
  - intros Hlt. apply Nat.ltb_lt in Hlt. now rewrite Hlt.
  - intros Hge. apply Nat.ltb_ge in Hge. rewrite Hge. cbv [bind].
    rewrite (hands_loop_kicker p (described_as best)) by
      (try lia; try exact Hp; intros j h Hj; now apply indices_of_mem).
    unfold PokerHand_str.
    change ("" +++ ?x) with x. now rewrite !append_assoc.
Qed.

Lemma str_hand_comparison_kicker_win_witness :
  exists w,
    order_hands ace_high_hands = OK (w, 1) /\
    str_hand_comparison plain_engine ace_high_hands
    = OK (delimiter +++ nl +++ "The "
          +++ number_to_words plain_engine
                (ordinal plain_engine
                   (Z.of_nat (last (indices_of (tied_with w)
                                               ace_high_hands 0)
                                   0%nat) + 1))
          +++ " hand wins with " +++ description w +++ "."
          +++ kicker_blocks plain_engine (described_as w)
                (Some (last (indices_of (tied_with w) ace_high_hands 0)
                            0%nat))
                1 0 ace_high_hands
          +++ delimiter).
Proof.
  eexists. split; [vm_compute; reflexivity |].
  refine (proj2 (str_hand_comparison_kicker_win plain_engine
                   ace_high_hands _ 1 _ _ _) _).
  - vm_compute. reflexivity.
  - lia.
  - apply printableb_ok. vm_compute. reflexivity.
  - vm_compute. lia.
Defined.

(** In a draw (kicker index -1) among hands that have kickers, the
    formatter raises ValueError if fewer than two hands are tied with the
    best hand; otherwise it returns the report: the statement lists the
    tied hands; the first of them is printed as "Hand included in the
    winning draw", all its kickers tagged; the hands after it are printed
    as if the last kicker of that hand had decided, so the other hands of
    the draw do not get the line of the draw. *)
Theorem str_hand_comparison_draw (p : inflect_engine)
    (hands : list PokerHand) (best : PokerHand) :
  order_hands hands = OK (best, -1) ->
  printable (described_as best) hands ->
  ((length (indices_of (tied_with best) hands 0) < 2)%nat ->
   str_hand_comparison p hands = Err ValueError) /\
  ((2 <= length (indices_of (tied_with best) hands 0))%nat ->
   str_hand_comparison p hands
   = OK (delimiter +++ nl +++ "Draw between the "
         +++ join p (map (fun index => ordinal p (Z.of_nat index + 1))
                         (indices_of (tied_with best) hands 0))
         +++ " hand (" +++ description best +++ ")"
         +++ draw_blocks p (tied_with best) 0 hands
         +++ delimiter)).
Proof.
  intros H Hp.
  destruct (order_hands_kicker_cases _ _ _ H)
    as [Hin [E | [_ (bks & Hb)]]]; [discriminate |].
  unfold str_hand_comparison. rewrite H. cbn [bind]. unfold winning_hands.
  replace (negb (-1 =? -1)) with false by reflexivity.
  rewrite (draw_loop_indices best bks hands Hb Hp). cbn [app bind]. split.
  - intros Hlt. apply Nat.ltb_lt in Hlt. now rewrite Hlt.
  - intros Hge. apply Nat.ltb_ge in Hge. rewrite Hge. cbv zeta.
    replace (-1 <? -1) with false by reflexivity. cbv [bind].
    destruct (hands_loop_draw p (tied_with best)
                (indices_of (tied_with best) hands 0) hands 0 ""
                (printable_tied best hands Hp)) as (k' & Ek).
    { intros j h Hj. now apply indices_of_mem. }
    rewrite Ek. unfold PokerHand_str.
    change ("" +++ ?x) with x. now rewrite !append_assoc.
Qed.

Lemma str_hand_comparison_draw_witness :
  exists h,
    order_hands ace_high_twice = OK (h, -1) /\
    indices_of (tied_with h) ace_high_twice 0 = [0; 1]%nat /\
    str_hand_comparison plain_engine ace_high_twice
    = OK (delimiter +++ nl +++ "Draw between the "
          +++ join plain_engine
                (map (fun index => ordinal plain_engine (Z.of_nat index + 1))
                     (indices_of (tied_with h) ace_high_twice 0))
          +++ " hand (" +++ description h +++ ")"
          +++ draw_blocks plain_engine (tied_with h) 0 ace_high_twice
          +++ delimiter).
Proof.
  eexists. split; [vm_compute; reflexivity |].
  split; [vm_compute; reflexivity |].
  refine (proj2 (str_hand_comparison_draw plain_engine ace_high_twice _
                   _ _) _).
  - vm_compute. reflexivity.
  - apply printableb_ok. vm_compute. reflexivity.
  - vm_compute. lia.
Defined.

(** ** The printed form of a card *)

(** The evaluator and the formatter tell cards apart by their printed form.
    For the cards of the deck this is sound: two cards of the deck that
    print alike are the same card, and a deck in use holds no printed form
    twice.  A card numbered 14 would print as the ace numbered 1 does. *)
Theorem Card_str_identifies :
  (forall c c',
      In c new_deck_cards -> In c' new_deck_cards ->
      Card_str c = Card_str c' -> c = c') /\
  (forall deck, deck_in_use deck -> NoDup (map Card_str deck)) /\
  (forall s, Card_str (mkCard 14 s) = Card_str (mkCard 1 s)).
Proof.
  split; [exact Card_str_inj_deck |]. split; [| reflexivity].
  intros deck U. destruct (deck_in_use_nodup deck U) as (N & D & _).
  now apply valid_hand_str_nodup.
Qed.

Lemma Card_str_identifies_witness :
  mkCard 12 "heart" = mkCard 12 "heart" /\
  NoDup (map Card_str stacked_deck).
Proof.
  split.
  - apply (proj1 Card_str_identifies); [| | reflexivity];
      apply in_new_deck_cards; simpl; (split; [lia | auto]).
  - apply (proj1 (proj2 Card_str_identifies)). exact stacked_deck_in_use.
Defined.

(** ** The score of a hand *)

Lemma rank_hand_count (cards : list Card) (c : Card) (h : PokerHand) :
  rank_hand cards c h ->
  snd (score h) = SInt (points c) /\
  In (primary h, rank_count cards c)
     [(8, 4%nat); (4, 3%nat); (2, 2%nat); (1, 1%nat)].
Proof.
  intros (Hc & _ & _ & Hs & T). rewrite Hc, rank_count_group in T. auto.
Qed.

Lemma analyse_flush_score (c0 : Card) (r : list Card) (fl : list PokerHand)
    (h : PokerHand) :
  analyse_flush (c0 :: r) = OK fl -> In h fl ->
  score h = (6, SInt (points c0)).
Proof.
  unfold analyse_flush. destruct (forallb _ (c0 :: r)); intros H Hh;
    injection H as <-; [| destruct Hh].
  destruct Hh as [<- | []]. reflexivity.
Qed.

Lemma analyse_straight_score (c0 : Card) (r : list Card)
    (st : list PokerHand) (h : PokerHand) :
  analyse_straight (c0 :: r) = OK st -> In h st ->
  score h = (5, SInt (if counts_down (map points (c0 :: r))
                      then points c0 else 5)).
Proof.
  unfold analyse_straight.
  rewrite check_straight_counts_down by discriminate. cbn [bind].
  destruct (counts_down (map points (c0 :: r))); cbn [negb andb bind].
  - intros H Hh. injection H as <-. destruct Hh as [<- | []]. reflexivity.
  - destruct (points c0 =? 14).
    + destruct (check_straight _) as [b |]; [| discriminate].
      cbn [bind]. destruct b; intros H Hh; injection H as <-;
        [| destruct Hh].
      destruct Hh as [<- | []]. reflexivity.
    + cbn [bind]. intros H Hh. injection H as <-. destruct Hh.
Qed.

Lemma index_in {A : Type} (l : list A) (i : nat) (x : A) :
  index l i = OK x -> In x l.
Proof.
  unfold index. destruct (nth_error l i) eqn:E; [| discriminate].
  intros H. injection H as <-. eapply nth_error_In; eauto.
Qed.

Lemma two_pairs_hand_score (cards : list Card) (pairs cb : list PokerHand)
    (h : PokerHand) :
  two_pairs_hand cards pairs = OK cb -> In h cb ->
  exists p0 p1 rest high low,
    sorted_by score1_int Z.leb pairs = OK (p0 :: p1 :: rest) /\
    score1_int p0 = OK high /\ score1_int p1 = OK low /\
    score h = (3, STuple high low).
Proof.
  unfold two_pairs_hand. intros H Hh.
  destruct (sorted_by score1_int Z.leb pairs) as [l |]; [| discriminate].
  cbn [bind] in H. destruct l as [| p0 [| p1 rest]]; try discriminate.
  unfold index in H. cbn [nth_error bind] in H.
  destruct (score1_int p0) as [high |] eqn:E0; [| discriminate].
  cbn [bind] in H. destruct (score1_int p1) as [low |] eqn:E1;
    [| discriminate].
  cbn [bind] in H. injection H as <-. destruct Hh as [<- | []].
  exists p0, p1, rest, high, low. repeat split; auto.
Qed.

Lemma full_house_hand_score (threes pairs cb : list PokerHand)
    (h : PokerHand) :
  full_house_hand threes pairs = OK cb -> In h cb ->
  exists t p ts ps,
    In t threes /\ In p pairs /\ score1_int t = OK ts /\
    score1_int p = OK ps /\ score h = (7, STuple ts ps).
Proof.
  unfold full_house_hand. intros H Hh.
  destruct (index threes 0) as [t |] eqn:Et; [| discriminate].
  cbn [bind] in H. destruct (index pairs 0) as [p |] eqn:Ep;
    [| discriminate].
  cbn [bind] in H. destruct (score1_int t) as [ts |] eqn:E0;
    [| discriminate].
  cbn [bind] in H. destruct (score1_int p) as [ps |] eqn:E1;
    [| discriminate].
  cbn [bind] in H. injection H as <-. destruct Hh as [<- | []].
  exists t, p, ts, ps. apply index_in in Et, Ep. repeat split; auto.
Qed.

Lemma straight_flush_hand_score (cards : list Card)
    (straights flushes cb : list PokerHand) (h : PokerHand) :
  straight_flush_hand cards straights flushes = OK cb -> In h cb ->
  exists s, In s straights /\ score h = (9, snd (score s)).
Proof.
  unfold straight_flush_hand. intros H Hh.
  destruct (index straights 0) as [s |] eqn:Es; [| discriminate].
  cbn [bind] in H. destruct (index flushes 0); [| discriminate].
  cbn [bind] in H.
  destruct (if score1_is s 14 then _ else _); [| discriminate].
  cbn [bind] in H. injection H as <-. destruct Hh as [<- | []].
  exists s. apply index_in in Es. split; [exact Es | reflexivity].
Qed.

Lemma analyse_combination_score (cards : list Card)
    (candidates cb : list PokerHand) (h : PokerHand) :
  analyse_combination_hands cards candidates = OK cb -> In h cb ->
  (exists p0 p1 rest high low,
      sorted_by score1_int Z.leb
                (filter (fun x => primary x =? 2) candidates)
      = OK (p0 :: p1 :: rest) /\
      score1_int p0 = OK high /\ score1_int p1 = OK low /\
      score h = (3, STuple high low)) \/
  (exists t p ts ps,
      In t (filter (fun x => primary x =? 4) candidates) /\
      In p (filter (fun x => primary x =? 2) candidates) /\
      score1_int t = OK ts /\ score1_int p = OK ps /\
      score h = (7, STuple ts ps)) \/
  (exists s,
      In s (filter (fun x => primary x =? 5) candidates) /\
      score h = (9, snd (score s))).
Proof.
  unfold analyse_combination_hands. cbv zeta. intros H Hh.
  destruct (Nat.eqb (length (filter (fun x => primary x =? 2) candidates))
                    2).
  { left. eapply two_pairs_hand_score; eauto. }
  destruct (Nat.eqb (length (filter (fun x => primary x =? 4) candidates))
                    1
            && Nat.eqb (length (filter (fun x => primary x =? 2)
                                       candidates)) 1).
  { right. left. eapply full_house_hand_score; eauto. }
  destruct (Nat.eqb (length (filter (fun x => primary x =? 5) candidates))
                    1
            && Nat.eqb (length (filter (fun x => primary x =? 6)
                                       candidates)) 1).
  { right. right. eapply straight_flush_hand_score; eauto. }
  injection H as <-. destruct Hh.
Qed.

(** Without a comparison of kickers, the hand returned has the highest
    secondary score of its category. *)
Lemma order_hands_plain_max (hand_list : list PokerHand) (w : PokerHand)
    (n : Z) :
  order_hands hand_list = OK (w, -2) -> snd (score w) = SInt n ->
  forall h m,
    In h hand_list -> primary h = primary w -> snd (score h) = SInt m ->
    m <= n.
Proof.
  intros H Hw h m Hh Hp Hm.
  assert (Hwh := order_hands_winner_highest _ _ _ H).
  assert (Hhh : In h (highest_hands hand_list)).
  { apply highest_hands_in. split; [exact Hh |].
    apply highest_hands_in in Hwh. rewrite Hp. apply Hwh. }
  destruct (order_hands_inv _ _ _ H) as (shh & Es & Hcase).
  assert (P := sorted_high_hands_perm _ _ Es).
  unfold sorted_high_hands in Es.
  destruct (highest_hands hand_list) as [| hh0 hr] eqn:Ehh;
    [discriminate |].
  destruct (snd (score hh0)) as [n0 | a0 b0].
  2:{ exfalso. apply sorted_by_keys_ok in Es. rewrite Forall_forall in Es.
      destruct (Es w Hwh) as [kw Hkw]. unfold score1_pair in Hkw.
      rewrite Hw in Hkw. discriminate. }
  assert (SS := sorted_by_sorted score1_int Z.leb Zleb_total Zleb_trans
                  _ _ Es).
  assert (Hshh : In h shh)
    by (apply (Permutation_in _ (Permutation_sym P)), Hhh).
  destruct Hcase
    as [(_ & _ & r & ->)
       | (fh & h1 & rest & k0 & k1 & _ & _ & _ & Hk1 & Hscan)].
  - inversion SS as [| ? ? _ Hall]; subst. rewrite Forall_forall in Hall.
    destruct Hshh as [<- | Hr]; [assert (m = n) by congruence; lia |].
    destruct (Hall h Hr) as (ka & kb & Ea & Eb & L).
    apply score1_int_inv in Ea, Eb. apply Z.leb_le in L.
    assert (ka = n) by congruence. assert (kb = m) by congruence. lia.
  - exfalso.
    destruct (kicker_scan_result h1 k1 Hk1 k0 [] (-2) eq_refl Hscan)
      as [[E _] | (i & E & _)]; lia.
Qed.

Lemma score_of_sorted (cards : list Card) (c0 : Card) (r : list Card) :
  cards = c0 :: r -> StronglySorted (desc points Z.leb) cards ->
  top_points cards = points c0 /\
  straight_points cards
  = (if counts_down (map points cards) then points c0 else 5).
Proof.
  intros E S. unfold straight_points, top_points.
  rewrite (sorted_points_fixed _ S). subst cards. split; reflexivity.
Qed.

Lemma rank_table (p : Z) (n : nat) :
  In (p, n) [(8, 4%nat); (4, 3%nat); (2, 2%nat); (1, 1%nat)] ->
  (p = 8 /\ n = 4%nat) \/ (p = 4 /\ n = 3%nat) \/
  (p = 2 /\ n = 2%nat) \/ (p = 1 /\ n = 1%nat).
Proof.
  intros [E | [E | [E | [E | []]]]]; inversion E; auto.
Qed.

Lemma head_candidate (cards : list Card) (c0 : Card) (r : list Card)
    (found : list PokerHand) :
  cards = c0 :: r ->
  Forall2 (rank_hand cards) (first_of_rank [] cards) found ->
  exists h0, In h0 found /\ rank_hand cards c0 h0.
Proof.
  intros -> Hf. cbn [first_of_rank seen existsb] in Hf.
  inversion Hf as [| ? h0 ? found0 R0 _]; subst.
  exists h0. split; [now left | exact R0].
Qed.

Lemma analyse_poker_hand_score (cards : list Card) (w : PokerHand) :
  length cards = 5%nat -> NoDup cards ->
  Forall (fun c => In c new_deck_cards) cards ->
  StronglySorted (desc points Z.leb) cards ->
  analyse_poker_hand cards = OK w ->
  score_of cards (primary w) (snd (score w)).
Proof.
  intros L N D S H.
  destruct cards as [| c0 r] eqn:Ecards; [discriminate |].
  rewrite <- Ecards in *.
  destruct (score_of_sorted cards c0 r Ecards S) as [Etop Estr].
  destruct (analyse_poker_hand_inv cards w H) as (l & k & El & Eo).
  destruct (hand_candidates_valid cards L N D)
    as (found & others & Ef & Hf & Ec & Hne & Hk & Nd & _).
  assert (l = found ++ others) by congruence. subst l.
  destruct (order_hands_distinct_scores (found ++ others))
    as (w' & Ew' & _); auto.
  { destruct found; [congruence | discriminate]. }
  assert (w' = w /\ k = -2) by (split; congruence).
  destruct H0 as [-> ->]. clear Ew'.
  destruct (hand_candidates_inv cards _ El)
    as (found' & fl & st & cb & Ef' & Efl & Est & Ecb & El').
  assert (found' = found) by congruence. subst found'.
  destruct (analyse_flush_exact _ _ Efl) as [_ Pfl].
  destruct (analyse_straight_exact _ _ S D Est) as [_ Pst].
  assert (Pf : primaries_in [8; 4; 2; 1] found)
    by (eapply found_primaries; eauto).
  destruct (count_candidates found fl st Pf Pfl Pst)
    as (K2 & K4 & K5 & _).
  assert (Hwin := order_hands_winner_highest _ _ _ Eo).
  apply highest_hands_in in Hwin. destruct Hwin as [Hw Hmax].
  assert (Rank : forall h, In h found ->
                           exists c, In c cards /\ rank_hand cards c h).
  { intros h Hh. eapply rank_found_in; eauto. }
  rewrite El' in Hw. apply in_app_or in Hw. destruct Hw as [Hw | Hw].
  apply in_app_or in Hw. destruct Hw as [Hw | Hw].
  - (* a group of the rank pass *)
    destruct (Rank w Hw) as (c & Hc & R).
    destruct (rank_hand_count cards c w R) as [Es T].
    destruct (rank_table _ _ T)
      as [[T1 T2] | [[T1 T2] | [[T1 T2] | [T1 T2]]]];
      try (right; right; left; exists c; rewrite Es, T1, T2; simpl;
           intuition; fail).
    left. split; [now left |].
    rewrite Es, Etop. f_equal. apply Z.le_antisymm.
    + assert (Hin : In c (c0 :: r)) by (rewrite <- Ecards; exact Hc).
      destruct Hin as [<- | Hin]; [lia |].
      rewrite Ecards in S. inversion S as [| ? ? _ Hall]; subst.
      rewrite Forall_forall in Hall. apply Z.leb_le. exact (Hall c Hin).
    + destruct (head_candidate cards c0 r found Ecards Hf)
        as (h0 & Hh0 & R0).
      destruct (rank_hand_count cards c0 h0 R0) as [Es0 T0].
      assert (Hin0 : In h0 (found ++ others))
        by (apply in_or_app; now left).
      assert (Hle := Hmax h0 Hin0). rewrite T1 in Hle.
      assert (P0 : primary h0 = 1).
      { destruct (rank_table _ _ T0)
          as [[? ?] | [[? ?] | [[? ?] | [? ?]]]]; lia. }
      apply (order_hands_plain_max _ _ _ Eo Es h0 (points c0) Hin0);
        [congruence | exact Es0].
  - apply in_app_or in Hw. destruct Hw as [Hw | Hw].
    + (* the flush *)
      rewrite Ecards in Efl. unfold primary.
      rewrite (analyse_flush_score c0 r fl w Efl Hw). cbn [fst snd].
      left. split; [now right |]. now rewrite Etop.
    + (* the straight *)
      rewrite Ecards in Est. unfold primary.
      rewrite (analyse_straight_score c0 r st w Est Hw). cbn [fst snd].
      right. left. split; [now left |]. rewrite Estr, Ecards. reflexivity.
  - (* a combination *)
    destruct (analyse_combination_score _ _ _ w Ecb Hw)
      as [(p0 & p1 & rest & high & low & Es & E0 & E1 & Ew)
         | [(t & p & ts & ps & Ht & Hp & E0 & E1 & Ew)
           | (s & Hs & Ew)]]; unfold primary; rewrite Ew; cbn [fst snd].
    + rewrite K2 in Es. right. right. right. right.
      split; [reflexivity |].
      assert (P := sorted_by_perm _ _ _ _ Es).
      assert (Hp0 : In p0 (filter (fun x => primary x =? 2) found))
        by (apply (Permutation_in _ P); now left).
      assert (Hp1 : In p1 (filter (fun x => primary x =? 2) found))
        by (apply (Permutation_in _ P); right; now left).
      apply filter_In in Hp0, Hp1.
      destruct Hp0 as [Hp0 Q0], Hp1 as [Hp1 Q1].
      apply Z.eqb_eq in Q0, Q1.
      destruct (Rank p0 Hp0) as (c & Hc & R).
      destruct (Rank p1 Hp1) as (c' & Hc' & R').
      destruct (rank_hand_count cards c p0 R) as [Sc T].
      destruct (rank_hand_count cards c' p1 R') as [Sc' T'].
      rewrite Q0 in T. rewrite Q1 in T'.
      assert (C2 : rank_count cards c = 2%nat).
      { destruct (rank_table _ _ T)
          as [[? ?] | [[? ?] | [[? ?] | [? ?]]]]; lia. }
      assert (C2' : rank_count cards c' = 2%nat).
      { destruct (rank_table _ _ T')
          as [[? ?] | [[? ?] | [[? ?] | [? ?]]]]; lia. }
      apply score1_int_inv in E0, E1.
      assert (high = points c) by congruence.
      assert (low = points c') by congruence. subst high low.
      exists c, c'. repeat split; auto.
      destruct (sorted_by_top_two score1_int Z.leb Zleb_total Zleb_trans
                  _ _ _ _ Es) as (k0 & k1 & F0 & F1 & Lk).
      apply score1_int_inv in F0, F1. apply Z.leb_le in Lk.
      assert (k0 = points c) by congruence.
      assert (k1 = points c') by congruence. subst k0 k1.
      assert (Nf : NoDup (map (fun ph => snd (score ph))
                              (p0 :: p1 :: rest))).
      { eapply Permutation_NoDup;
          [apply Permutation_map, Permutation_sym, P |].
        apply NoDup_map_filter. eapply rank_found_scores; eauto. }
      cbn [map] in Nf. inversion Nf as [| ? ? Hnot _]; subst.
      assert (points c <> points c').
      { intros E. apply Hnot. left. congruence. }
      lia.
    + rewrite K4 in Ht. rewrite K2 in Hp. right. right. right. left.
      split; [reflexivity |].
      apply filter_In in Ht, Hp.
      destruct Ht as [Ht Q0], Hp as [Hp Q1].
      apply Z.eqb_eq in Q0, Q1.
      destruct (Rank t Ht) as (c & Hc & R).
      destruct (Rank p Hp) as (c' & Hc' & R').
      destruct (rank_hand_count cards c t R) as [Sc T].
      destruct (rank_hand_count cards c' p R') as [Sc' T'].
      rewrite Q0 in T. rewrite Q1 in T'.
      assert (C3 : rank_count cards c = 3%nat).
      { destruct (rank_table _ _ T)
          as [[? ?] | [[? ?] | [[? ?] | [? ?]]]]; lia. }
      assert (C2' : rank_count cards c' = 2%nat).
      { destruct (rank_table _ _ T')
          as [[? ?] | [[? ?] | [[? ?] | [? ?]]]]; lia. }
      apply score1_int_inv in E0, E1.
      exists c, c'. repeat split; auto. congruence.
    + rewrite K5 in Hs. right. left. split; [now right |].
      rewrite Ecards in Est.
      rewrite (analyse_straight_score c0 r st s Est Hs). cbn [snd].
      rewrite Estr, Ecards. reflexivity.
Qed.

Lemma score_of_perm (cs cs' : list Card) (p : Z) (s : secondary) :
  Permutation cs cs' -> score_of cs p s -> score_of cs' p s.
Proof.
  intros P. unfold score_of, straight_points, top_points.
  rewrite (sorted_desc_Z_perm (map points cs) (map points cs'))
    by now apply Permutation_map.
  intros [H | [H | [(c & Hc & T & E) | [(Hp & c & c' & Hc & Hc' & R & R' & E)
    | (Hp & c & c' & Hc & Hc' & R & R' & Hlt & E)]]]].
  - now left.
  - right. now left.
  - right. right. left. exists c.
    rewrite <- (rank_count_perm cs cs' c P).
    split; [now apply (Permutation_in _ P) | auto].
  - right. right. right. left. split; [exact Hp |]. exists c, c'.
    rewrite <- !(rank_count_perm cs cs' _ P).
    repeat split; auto; now apply (Permutation_in _ P).
  - right. right. right. right. split; [exact Hp |]. exists c, c'.
    rewrite <- !(rank_count_perm cs cs' _ P).
    repeat split; auto; now apply (Permutation_in _ P).
Qed.

(** The score of the hand found for five different cards of the deck: its
    category, and the secondary score that goes with it.  For a high card
    and for a flush this is the points of the highest card, the ace
    counting 14; for a straight and a straight flush the points of the
    highest card, or 5 when the ace opens the straight; for a pair, three
    or four of a kind the points of the cards of that group; for a full
    house the points of the three, then of the pair; for two pairs the
    points of the higher pair, then of the lower. *)
Theorem hand_score (cs : list Card) :
  valid_hand cs ->
  exists hand,
    HandOfCards_test cs = OK hand /\
    primary (poker_hand hand) = category cs /\
    score_of cs (category cs) (snd (score (poker_hand hand))).
Proof.
  intros V. destruct (valid_hand_sorted cs V) as (L & N & D).
  destruct (HandOfCards_test_valid cs V) as (hand & E & _ & _).
  exists hand. split; [exact E |].
  unfold HandOfCards_test in E.
  destruct (analyse_poker_hand (sorted_desc points Z.leb cs))
    as [ph |] eqn:Eph; [| discriminate].
  cbn [bind] in E. injection E as <-. cbn [poker_hand].
  assert (S : StronglySorted (desc points Z.leb)
                             (sorted_desc points Z.leb cs))
    by (apply sorted_desc_sorted; [apply Zleb_total | apply Zleb_trans]).
  assert (C : primary ph = category cs).
  { rewrite (analyse_poker_hand_category _ ph L N D S Eph).
    apply category_perm, sorted_desc_perm. }
  split; [exact C |]. rewrite <- C.
  apply (score_of_perm (sorted_desc points Z.leb cs));
    [apply sorted_desc_perm |].
  now apply analyse_poker_hand_score.
Qed.

Lemma hand_score_witness :
  exists hand,
    HandOfCards_test pair_of_threes_cards = OK hand /\
    primary (poker_hand hand) = category pair_of_threes_cards /\
    score_of pair_of_threes_cards (category pair_of_threes_cards)
             (snd (score (poker_hand hand))).
Proof.
  exact (hand_score pair_of_threes_cards pair_of_threes_cards_valid).
Defined.

(** ** The description of a hand *)

Lemma num_conv_points (c : Card) (plural : bool) :
  num_conv (number c) plural = num_conv (points c) plural.
Proof.
  unfold points. destruct (Z.eqb_spec (number c) 1) as [E | E];
    cbn [negb]; [now rewrite E | reflexivity].
Qed.

Lemma group_hand_description (cards : list Card) (c : Card)
    (h : PokerHand) (suit0 : string) :
  group_hand cards c = OK (Some h) ->
  description h = describe suit0 (score h).
Proof.
  unfold group_hand, same_number_hand.
  destruct (length (group_cards cards c)) as [| [| [| [| [| [| n]]]]]];
    intros H; try discriminate; injection H as <-;
    cbn [description score describe Z.eqb Pos.eqb];
    now rewrite num_conv_points.
Qed.

Lemma mapM_in {A B : Type} (f : A -> result B) (l : list A) :
  forall ys,
    mapM f l = OK ys ->
    forall y, In y ys -> exists x, In x l /\ f x = OK y.
Proof.
  induction l as [| x l IH]; intros ys H y Hy; cbn [mapM] in H.
  - injection H as <-. destruct Hy.
  - destruct (f x) as [b |] eqn:Ex; [| discriminate]. cbn [bind] in H.
    destruct (mapM f l) as [bs |]; [| discriminate]. cbn [bind] in H.
    injection H as <-. destruct Hy as [<- | Hy].
    + exists x. split; [now left | exact Ex].
    + destruct (IH bs eq_refl y Hy) as (x' & Hx' & E).
      exists x'. split; [now right | exact E].
Qed.

Lemma rank_pass_in (cards : list Card) (found : list PokerHand)
    (h : PokerHand) :
  rank_pass cards = OK found -> In h found ->
  exists c, group_hand cards c = OK (Some h).
Proof.
  unfold rank_pass. intros H Hh.
  destruct (mapM (group_hand cards) (first_of_rank [] cards))
    as [opts |] eqn:E; [| discriminate].
  cbn [bind] in H. injection H as <-.
  apply in_flat_map in Hh. destruct Hh as (o & Ho & Hh).
  destruct o as [ph |]; [| destruct Hh]. destruct Hh as [<- | []].
  destruct (mapM_in _ _ _ E _ Ho) as (c & _ & Ec). now exists c.
Qed.

Lemma analyse_flush_description (c0 : Card) (r : list Card)
    (fl : list PokerHand) (h : PokerHand) :
  analyse_flush (c0 :: r) = OK fl -> In h fl ->
  description h = describe (suit c0) (score h).
Proof.
  unfold analyse_flush. destruct (forallb _ (c0 :: r)); intros H Hh;
    injection H as <-; [| destruct Hh].
  destruct Hh as [<- | []]. reflexivity.
Qed.

(** What the straight pass appends, if anything: named after its lowest
    and its highest card, or "1 to 5". *)
Lemma analyse_straight_description (cards : list Card)
    (st : list PokerHand) (h : PokerHand) (suit0 : string) :
  length cards = 5%nat ->
  Forall (fun c => In c new_deck_cards) cards ->
  analyse_straight cards = OK st -> In h st ->
  exists n,
    score h = (5, SInt n) /\ 5 <= n <= 14 /\
    description h = describe suit0 (score h).
Proof.
  intros L D H Hh.
  destruct cards as [| c0 [| c1 [| c2 [| c3 [| c4 [| c5 r]]]]]];
    try discriminate.
  unfold analyse_straight in H.
  rewrite check_straight_counts_down in H by discriminate.
  cbn [bind] in H.
  destruct (counts_down (map points [c0; c1; c2; c3; c4])) eqn:B1;
    cbn [negb andb bind] in H.
  - injection H as <-. destruct Hh as [<- | []].
    cbn [counts_down map] in B1.
    repeat (apply andb_prop in B1; destruct B1 as [?E B1]).
    apply Z.eqb_eq in E, E0, E1, E2.
    assert (B4 : 2 <= points c4 <= 14 /\ 2 <= points c0 <= 14).
    { rewrite Forall_forall in D. split.
      - assert (Hd : In c4 new_deck_cards) by (apply D; simpl; auto 6).
        apply in_new_deck_cards in Hd. unfold points.
        destruct (number c4 =? 1) eqn:X; cbn [negb];
          [lia | apply Z.eqb_neq in X; lia].
      - assert (Hd : In c0 new_deck_cards) by (apply D; simpl; auto 6).
        apply in_new_deck_cards in Hd. unfold points.
        destruct (number c0 =? 1) eqn:X; cbn [negb];
          [lia | apply Z.eqb_neq in X; lia]. }
    exists (points c0). split; [reflexivity |]. split; [lia |].
    cbn [description score describe last Z.eqb Pos.eqb].
    replace (points c0 =? 5) with false
      by (symmetry; apply Z.eqb_neq; lia).
    replace (points c0 - 4) with (points c4) by lia. reflexivity.
  - destruct (points c0 =? 14).
    + destruct (check_straight _) as [b |]; [| discriminate].
      cbn [bind] in H. destruct b; injection H as <-; [| destruct Hh].
      destruct Hh as [<- | []]. exists 5.
      split; [reflexivity |]. split; [lia | reflexivity].
    + cbn [bind] in H. injection H as <-. destruct Hh.
Qed.

Lemma two_pairs_hand_description (cards : list Card)
    (pairs cb : list PokerHand) (h : PokerHand) (suit0 : string) :
  two_pairs_hand cards pairs = OK cb -> In h cb ->
  description h = describe suit0 (score h).
Proof.
  unfold two_pairs_hand. intros H Hh.
  destruct (sorted_by score1_int Z.leb pairs) as [l |]; [| discriminate].
  cbn [bind] in H. destruct (index l 0) as [p0 |]; [| discriminate].
  cbn [bind] in H. destruct (index l 1) as [p1 |]; [| discriminate].
  cbn [bind] in H. destruct (score1_int p0); [| discriminate].
  cbn [bind] in H. destruct (score1_int p1); [| discriminate].
  cbn [bind] in H. injection H as <-. destruct Hh as [<- | []].
  reflexivity.
Qed.

Lemma full_house_hand_description (threes pairs cb : list PokerHand)
    (h : PokerHand) (suit0 : string) :
  full_house_hand threes pairs = OK cb -> In h cb ->
  description h = describe suit0 (score h).
Proof.
  unfold full_house_hand. intros H Hh.
  destruct (index threes 0) as [t |]; [| discriminate].
  cbn [bind] in H. destruct (index pairs 0) as [p |]; [| discriminate].
  cbn [bind] in H. destruct (score1_int t); [| discriminate].
  cbn [bind] in H. destruct (score1_int p); [| discriminate].
  cbn [bind] in H. injection H as <-. destruct Hh as [<- | []].
  reflexivity.
Qed.

(** The name of a straight flush is made from the name of the straight, cut
    at its comma. *)
Lemma straight_flush_name (n : Z) :
  5 <= n <= 14 -> n <> 14 ->
  (part0 <- index (split_on "," (describe "" (5, SInt n))) 0 ;;
   part1 <- index (split_on "," (describe "" (5, SInt n))) 1 ;;
   OK (part0 +++ " Flush," +++ part1))
  = OK (describe "" (9, SInt n)).
Proof.
  intros B N.
  assert (C : In n [5; 6; 7; 8; 9; 10; 11; 12; 13]) by (simpl; lia).
  cbn [In] in C.
  repeat (destruct C as [<- | C]; [vm_compute; reflexivity |]).
  destruct C.
Qed.

Lemma straight_flush_hand_description (cards : list Card)
    (straights flushes cb : list PokerHand) (h : PokerHand)
    (suit0 : string) :
  (forall s, In s straights ->
             exists n, score s = (5, SInt n) /\ 5 <= n <= 14 /\
                       description s = describe "" (score s)) ->
  straight_flush_hand cards straights flushes = OK cb -> In h cb ->
  description h = describe suit0 (score h).
Proof.
  unfold straight_flush_hand. intros Hs H Hh.
  destruct (index straights 0) as [s |] eqn:Es; [| discriminate].
  cbn [bind] in H. destruct (index flushes 0); [| discriminate].
  cbn [bind] in H. apply index_in in Es.
  destruct (Hs s Es) as (n & Sc & B & Ds).
  unfold score1_is in H. rewrite Sc in H. cbn [snd] in H.
  rewrite Ds, Sc in H.
  destruct (Z.eqb_spec n 14) as [E14 | N].
  - cbn [bind] in H. injection H as <-. destruct Hh as [<- | []].
    rewrite E14. reflexivity.
  - rewrite (straight_flush_name n B N) in H. cbn [bind] in H.
    injection H as <-. destruct Hh as [<- | []].
    cbn [description score describe Z.eqb Pos.eqb].
    reflexivity.
Qed.

Lemma analyse_combination_description (cards : list Card)
    (candidates cb : list PokerHand) (h : PokerHand) (suit0 : string) :
  (forall s, In s (filter (fun x => primary x =? 5) candidates) ->
             exists n, score s = (5, SInt n) /\ 5 <= n <= 14 /\
                       description s = describe "" (score s)) ->
  analyse_combination_hands cards candidates = OK cb -> In h cb ->
  description h = describe suit0 (score h).
Proof.
  unfold analyse_combination_hands. cbv zeta. intros Hs H Hh.
  destruct (Nat.eqb (length (filter (fun x => primary x =? 2) candidates))
                    2).
  { eapply two_pairs_hand_description; eauto. }
  destruct (Nat.eqb (length (filter (fun x => primary x =? 4) candidates))
                    1
            && Nat.eqb (length (filter (fun x => primary x =? 2)
                                       candidates)) 1).
  { eapply full_house_hand_description; eauto. }
  destruct (Nat.eqb (length (filter (fun x => primary x =? 5) candidates))
                    1
            && Nat.eqb (length (filter (fun x => primary x =? 6)
                                       candidates)) 1).
  { eapply straight_flush_hand_description; eauto. }
  injection H as <-. destruct Hh.
Qed.

Lemma analyse_poker_hand_description (cards : list Card) (w : PokerHand) :
  length cards = 5%nat -> NoDup cards ->
  Forall (fun c => In c new_deck_cards) cards ->
  StronglySorted (desc points Z.leb) cards ->
  analyse_poker_hand cards = OK w ->
  description w = describe (first_suit cards) (score w).
Proof.
  intros L N D S H.
  destruct (analyse_poker_hand_inv cards w H) as (l & k & El & Eo).
  destruct (hand_candidates_inv cards l El)
    as (found & fl & st & cb & Ef & Efl & Est & Ecb & ->).
  destruct (rank_pass_deck cards N D) as (found' & Ef' & Hf).
  rewrite (analyse_same_number_hands_rank_pass cards
             (valid_hand_str_nodup cards N D)) in Ef.
  assert (found' = found) by congruence. subst found'.
  destruct (analyse_flush_exact _ _ Efl) as [_ Pfl].
  destruct (analyse_straight_exact _ _ S D Est) as [_ Pst].
  assert (Pf : primaries_in [8; 4; 2; 1] found)
    by (eapply found_primaries; eauto).
  destruct (count_candidates found fl st Pf Pfl Pst) as (_ & _ & K5 & _).
  destruct (order_hands_kicker_cases _ _ _ Eo) as [Hw _].
  apply in_app_or in Hw. destruct Hw as [Hw | Hw].
  apply in_app_or in Hw. destruct Hw as [Hw | Hw].
  - destruct (rank_pass_in cards found w Ef Hw) as (c & Ec).
    eapply group_hand_description; eauto.
  - apply in_app_or in Hw. destruct Hw as [Hw | Hw].
    + destruct cards as [| c0 r]; [discriminate |].
      exact (analyse_flush_description c0 r fl w Efl Hw).
    + destruct (analyse_straight_description cards st w (first_suit cards)
                  L D Est Hw) as (n & _ & _ & E).
      exact E.
  - apply (analyse_combination_description cards (found ++ fl ++ st) cb);
      auto.
    rewrite K5. intros s Hs.
    exact (analyse_straight_description cards st s "" L D Est Hs).
Qed.

(** The description of the hand found for five different cards of the deck
    is the one that goes with its score: the score alone fixes the
    description, except for a flush, whose description names the suit and
    not the highest card.  So two flushes of one suit are described alike
    whatever their cards, and two flushes of different suits never are. *)
Theorem hand_description (cs : list Card) :
  valid_hand cs ->
  exists hand,
    HandOfCards_test cs = OK hand /\
    description (poker_hand hand)
    = describe (first_suit (cards hand)) (score (poker_hand hand)).
Proof.
  intros V. destruct (valid_hand_sorted cs V) as (L & N & D).
  destruct (HandOfCards_test_valid cs V) as (hand & E & _ & _).
  exists hand. split; [exact E |].
  unfold HandOfCards_test in E.
  destruct (analyse_poker_hand (sorted_desc points Z.leb cs))
    as [ph |] eqn:Eph; [| discriminate].
  cbn [bind] in E. injection E as <-. cbn [poker_hand cards].
  apply analyse_poker_hand_description; auto.
  apply sorted_desc_sorted; [apply Zleb_total | apply Zleb_trans].
Qed.

Lemma hand_description_witness :
  exists hand,
    HandOfCards_test flush_cards = OK hand /\
    description (poker_hand hand)
    = describe (first_suit (cards hand)) (score (poker_hand hand)).
Proof. exact (hand_description flush_cards flush_cards_valid). Defined.

(** ** Dealing and evaluating *)

Lemma deck_in_use_front (deck gone : list Card) :
  deck_in_use (deck ++ gone) -> deck_in_use deck.
Proof.
  intros (shuffled & picked & P & E). exists shuffled, (gone ++ picked).
  split; [exact P |]. now rewrite E, app_assoc.
Qed.

(** The hands dealt from a deck in use are the hands the evaluator finds
    for sets of five different cards; these sets and the deck that is left
    share no card, and together they are the deck before. *)
Theorem dealt_hands_evaluated (hand_amount : nat) :
  forall deck hands deck',
    deck_in_use deck ->
    get_list_of_poker_hands deck hand_amount 5 = OK (hands, deck') ->
    exists dealt,
      Forall2 (fun cs h =>
                 valid_hand cs /\
                 exists hand,
                   HandOfCards_test cs = OK hand /\ poker_hand hand = h)
              dealt hands /\
      Permutation (deck' ++ concat dealt) deck /\
      NoDup (deck' ++ concat dealt).
Proof.
  induction hand_amount as [| n IH]; intros deck hands deck' U H;
    cbn [get_list_of_poker_hands] in H.
  - injection H as <- <-. exists []. split; [constructor |].
    cbn [concat]. rewrite app_nil_r. split; [reflexivity |].
    apply (deck_in_use_nodup deck U).
  - destruct (HandOfCards_deck deck 5) as [[hand d1] |] eqn:E1;
      [| discriminate].
    cbn [bind] in H.
    destruct (get_list_of_poker_hands d1 n 5) as [[hs d2] |] eqn:E2;
      [| discriminate].
    cbn [bind] in H. injection H as <- <-.
    unfold HandOfCards_deck in E1.
    destruct (pick_cards 5 deck) as [[picked d] |] eqn:Ep; [| discriminate].
    cbn [bind] in E1.
    destruct (analyse_poker_hand (sorted_desc points Z.leb picked))
      as [ph |] eqn:Eph; [| discriminate].
    cbn [bind] in E1. injection E1 as <- <-.
    assert (V := picked_valid _ _ _ U Ep).
    destruct (pick_cards_spec _ _ _ _ Ep) as [Hd _].
    assert (U1 : deck_in_use d)
      by (apply (deck_in_use_front d (rev picked)); now rewrite <- Hd).
    destruct (IH d hs d2 U1 E2) as (dealt & F & P & _).
    exists (picked :: dealt). split.
    + constructor; [| exact F]. split; [exact V |].
      eexists. split; [| reflexivity].
      unfold HandOfCards_test. rewrite Eph. reflexivity.
    + assert (P' : Permutation (d2 ++ concat (picked :: dealt)) deck).
      { cbn [concat]. rewrite Hd.
        eapply perm_trans;
          [| apply Permutation_app;
             [exact P | apply Permutation_rev]].
        rewrite <- app_assoc. apply Permutation_app_head.
        apply Permutation_app_comm. }
      split; [exact P' |].
      apply (Permutation_NoDup (Permutation_sym P')).
      apply (deck_in_use_nodup deck U).
Qed.

Lemma dealt_hands_evaluated_witness :
  exists hands deck' dealt,
    get_list_of_poker_hands stacked_deck 3 5 = OK (hands, deck') /\
    Forall2 (fun cs h =>
               valid_hand cs /\
               exists hand,
                 HandOfCards_test cs = OK hand /\ poker_hand hand = h)
            dealt hands /\
    Permutation (deck' ++ concat dealt) stacked_deck /\
    NoDup (deck' ++ concat dealt).
Proof.
  assert (E : exists hands deck',
             get_list_of_poker_hands stacked_deck 3 5 = OK (hands, deck'))
    by (vm_compute; eauto).
  destruct E as (hands & deck' & E). exists hands, deck'.
  destruct (dealt_hands_evaluated 3 stacked_deck hands deck'
              stacked_deck_in_use E) as (dealt & H).
  exists dealt. split; [exact E | exact H].
Defined.

(** ** The kickers of a hand *)

Lemma rank_hand_kickers (cards : list Card) (c : Card) (h : PokerHand) :
  length cards = 5%nat -> rank_hand cards c h -> kickers_by_category h.
Proof.
  intros L R. destruct (rank_hand_count cards c h R) as [_ T].
  destruct R as (_ & Hk & _). unfold kickers_by_category. rewrite Hk.
  assert (Hl : (rank_count cards c + length (group_kickers cards c))%nat
               = 5%nat).
  { rewrite (Permutation_length (group_kickers_perm cards c)).
    unfold rank_count. rewrite filter_split_length. exact L. }
  destruct (rank_table _ _ T) as [[E1 E2] | [[E1 E2] | [[E1 E2] | [E1 E2]]]];
    rewrite E1;
    replace (length (group_kickers cards c))
      with (5 - rank_count cards c)%nat by lia;
    rewrite E2; simpl; auto 8.
Qed.

Lemma two_pairs_hand_shape (cards : list Card) (pairs cb : list PokerHand)
    (h : PokerHand) :
  two_pairs_hand cards pairs = OK cb -> In h cb ->
  exists p0 p1 rest ks,
    sorted_by score1_int Z.leb pairs = OK (p0 :: p1 :: rest) /\
    primary h = 3 /\ hand_cards h = hand_cards p0 ++ hand_cards p1 /\
    kickers h = Some ks.
Proof.
  unfold two_pairs_hand. intros H Hh.
  destruct (sorted_by score1_int Z.leb pairs) as [l |]; [| discriminate].
  cbn [bind] in H. destruct l as [| p0 [| p1 rest]]; try discriminate.
  unfold index in H. cbn [nth_error bind] in H.
  destruct (score1_int p0); [| discriminate]. cbn [bind] in H.
  destruct (score1_int p1); [| discriminate]. cbn [bind] in H.
  injection H as <-. destruct Hh as [<- | []].
  exists p0, p1, rest. eexists. repeat split.
Qed.

Lemma full_house_hand_shape (threes pairs cb : list PokerHand)
    (h : PokerHand) :
  full_house_hand threes pairs = OK cb -> In h cb ->
  primary h = 7 /\ kickers h = None.
Proof.
  unfold full_house_hand. intros H Hh.
  destruct (index threes 0) as [t |]; [| discriminate].
  cbn [bind] in H. destruct (index pairs 0) as [p |]; [| discriminate].
  cbn [bind] in H. destruct (score1_int t); [| discriminate].
  cbn [bind] in H. destruct (score1_int p); [| discriminate].
  cbn [bind] in H. injection H as <-. destruct Hh as [<- | []].
  split; reflexivity.
Qed.

Lemma straight_flush_hand_shape (cards : list Card)
    (straights flushes cb : list PokerHand) (h : PokerHand) :
  straight_flush_hand cards straights flushes = OK cb -> In h cb ->
  primary h = 9 /\ kickers h = None.
Proof.
  unfold straight_flush_hand. intros H Hh.
  destruct (index straights 0) as [s |]; [| discriminate].
  cbn [bind] in H. destruct (index flushes 0); [| discriminate].
  cbn [bind] in H.
  destruct (if score1_is s 14 then _ else _); [| discriminate].
  cbn [bind] in H. injection H as <-. destruct Hh as [<- | []].
  split; reflexivity.
Qed.

Lemma analyse_poker_hand_kickers (cards : list Card) (w : PokerHand) :
  length cards = 5%nat -> NoDup cards ->
  Forall (fun c => In c new_deck_cards) cards ->
  analyse_poker_hand cards = OK w -> kickers_by_category w.
Proof.
  intros L N D H.
  destruct (analyse_poker_hand_inv cards w H) as (l & k & El & Eo).
  destruct (hand_candidates_inv cards l El)
    as (found & fl & st & cb & Ef & Efl & Est & Ecb & ->).
  destruct (rank_pass_deck cards N D) as (found' & Ef' & Hf).
  rewrite <- (analyse_same_number_hands_rank_pass cards
                (valid_hand_str_nodup cards N D)) in Ef'.
  assert (found' = found) by congruence. subst found'.
  assert (Hne : cards <> []) by (destruct cards; discriminate).
  destruct (analyse_flush_cases cards Hne) as (fl' & Efl' & Hfl).
  assert (fl' = fl) by congruence. subst fl'.
  destruct (analyse_straight_cases cards Hne) as (st' & Est' & Hst & Hd).
  assert (st' = st) by congruence. subst st'.
  destruct (analyse_combination_cases cards L N D found fl st Hf Hfl Hst Hd)
    as (cb' & Ecb' & Hcb).
  assert (cb' = cb) by congruence. subst cb'.
  assert (Pf : primaries_in [8; 4; 2; 1] found)
    by (eapply found_primaries; eauto).
  destruct (count_candidates found fl st Pf
              (whole_hand_pass_primaries _ _ _ Hfl)
              (whole_hand_pass_primaries _ _ _ Hst)) as (K2 & _).
  destruct (order_hands_kicker_cases _ _ _ Eo) as [Hw _].
  apply in_app_or in Hw. destruct Hw as [Hw | Hw].
  apply in_app_or in Hw. destruct Hw as [Hw | Hw].
  - destruct (rank_found_in cards found Hf w Hw) as (c & _ & R).
    now apply (rank_hand_kickers cards c).
  - apply in_app_or in Hw. destruct Hw as [Hw | Hw].
    + destruct cards as [| c0 r]; [discriminate |].
      unfold analyse_flush in Efl.
      destruct (forallb _ (c0 :: r)); injection Efl as <-;
        [| destruct Hw].
      destruct Hw as [<- | []]. unfold kickers_by_category.
      cbn [kickers primary score fst]. rewrite L. simpl. auto 8.
    + destruct Hst as [-> | (ph & n & -> & Sc & _ & [Hk | [Hk _]])];
        [destruct Hw | | discriminate].
      destruct Hw as [<- | []]. unfold kickers_by_category, primary.
      rewrite Hk, Sc. simpl. auto.
  - destruct Hcb as [-> | (ph & -> & _ & _ & Hc)]; [destruct Hw |].
    assert (w = ph) by (destruct Hw as [<- | []]; reflexivity). subst ph.
    unfold analyse_combination_hands in Ecb. cbv zeta in Ecb.
    rewrite K2 in Ecb.
    destruct (Nat.eqb (length (filter (fun x => primary x =? 2) found)) 2).
    { destruct (two_pairs_hand_shape _ _ _ w Ecb Hw)
        as (p0 & p1 & rest & ks & Es & Hp & Hhc & Hks).
      assert (P := sorted_by_perm _ _ _ _ Es).
      assert (L0 : length (hand_cards p0) = 2%nat).
      { assert (Hin : In p0 (filter (fun x => primary x =? 2) found))
          by (apply (Permutation_in _ P); now left).
        apply filter_In in Hin. destruct Hin as [Hin Q].
        apply Z.eqb_eq in Q.
        destruct (rank_found_in cards found Hf p0 Hin) as (c & _ & R).
        destruct (rank_hand_primary cards c p0 R)
          as [[E ?] | [[E ?] | [[E ?] | [E ?]]]]; congruence. }
      assert (L1 : length (hand_cards p1) = 2%nat).
      { assert (Hin : In p1 (filter (fun x => primary x =? 2) found))
          by (apply (Permutation_in _ P); right; now left).
        apply filter_In in Hin. destruct Hin as [Hin Q].
        apply Z.eqb_eq in Q.
        destruct (rank_found_in cards found Hf p1 Hin) as (c & _ & R).
        destruct (rank_hand_primary cards c p1 R)
          as [[E ?] | [[E ?] | [[E ?] | [E ?]]]]; congruence. }
      destruct Hc as [Hc | (Hc & _)]; [| lia].
      unfold partition_invariant, kicker_list in Hc. rewrite Hks in Hc.
      apply Permutation_length in Hc.
      rewrite length_app, Hhc, length_app, L0, L1, L in Hc.
      unfold kickers_by_category. rewrite Hks, Hp.
      replace (length ks) with 1%nat by lia. simpl. auto 8. }
    destruct (Nat.eqb (length (filter (fun x => primary x =? 4)
                                      (found ++ fl ++ st))) 1
              && Nat.eqb (length (filter (fun x => primary x =? 2) found))
                         1).
    { destruct (full_house_hand_shape _ _ _ w Ecb Hw) as [Hp Hks].
      unfold kickers_by_category. rewrite Hks, Hp. simpl. auto. }
    destruct (Nat.eqb (length (filter (fun x => primary x =? 5)
                                      (found ++ fl ++ st))) 1
              && Nat.eqb (length (filter (fun x => primary x =? 6)
                                         (found ++ fl ++ st))) 1).
    { destruct (straight_flush_hand_shape _ _ _ _ w Ecb Hw) as [Hp Hks].
      unfold kickers_by_category. rewrite Hks, Hp. simpl. auto. }
    discriminate Ecb.
Qed.

(** The hand found for five different cards of the deck has the kickers
    that go with its category: four for a high card, three for a pair, one
    for two pairs, two for three of a kind, five (its own cards) for a
    flush, one for four of a kind, and [None] for a straight, a full house
    and a straight flush. *)
Theorem hand_kickers (cs : list Card) :
  valid_hand cs ->
  exists hand,
    HandOfCards_test cs = OK hand /\ kickers_by_category (poker_hand hand).
Proof.
  intros V. destruct (valid_hand_sorted cs V) as (L & N & D).
  destruct (HandOfCards_test_valid cs V) as (hand & E & _ & _).
  exists hand. split; [exact E |].
  unfold HandOfCards_test in E.
  destruct (analyse_poker_hand (sorted_desc points Z.leb cs))
    as [ph |] eqn:Eph; [| discriminate].
  cbn [bind] in E. injection E as <-. cbn [poker_hand].
  now apply (analyse_poker_hand_kickers (sorted_desc points Z.leb cs)).
Qed.

Lemma hand_kickers_witness :
  exists hand,
    HandOfCards_test pair_of_threes_cards = OK hand /\
    kickers_by_category (poker_hand hand).
Proof.
  exact (hand_kickers pair_of_threes_cards pair_of_threes_cards_valid).
Defined.

(** ** Ranking the hands that were dealt *)

Lemma evaluated_facts (h : PokerHand) :
  evaluated h -> kind_ok h /\ kickers_by_category h.
Proof.
  intros (cs & hand & V & E & <-).
  destruct (valid_hand_sorted cs V) as (L & N & D).
  unfold HandOfCards_test in E.
  destruct (analyse_poker_hand (sorted_desc points Z.leb cs))
    as [ph |] eqn:Eph; [| discriminate].
  cbn [bind] in E. injection E as <-. cbn [poker_hand]. split.
  - destruct (hand_candidates_valid _ L N D)
      as (found & others & _ & _ & Ec & _ & Hk & _).
    destruct (analyse_poker_hand_inv _ ph Eph) as (l & k & El & Eo).
    assert (l = found ++ others) by congruence. subst l.
    destruct (order_hands_kicker_cases _ _ _ Eo) as [Hw _].
    rewrite Forall_forall in Hk. now apply Hk.
  - now apply (analyse_poker_hand_kickers (sorted_desc points Z.leb cs)).
Qed.

Lemma kickers_table (p : Z) (n m : nat) :
  In (p, n) [(1, 4%nat); (2, 3%nat); (3, 1%nat); (4, 2%nat); (6, 5%nat);
             (8, 1%nat)] ->
  In (p, m) [(1, 4%nat); (2, 3%nat); (3, 1%nat); (4, 2%nat); (6, 5%nat);
             (8, 1%nat)] ->
  n = m /\ ~ In p [5; 7; 9].
Proof.
  intros Hn Hm. cbn [In] in Hn, Hm.
  repeat (destruct Hn as [Hn | Hn]; [inversion Hn; subst |]);
    try contradiction;
    (repeat (destruct Hm as [Hm | Hm]; [inversion Hm; subst |]);
     try contradiction; try lia;
     (split; [reflexivity | simpl; lia])).
Qed.

Lemma order_hands_total (hand_list : list PokerHand) :
  hand_list <> [] -> comparable hand_list ->
  exists w k, order_hands hand_list = OK (w, k).
Proof.
  intros Hne [Hkind Hkick].
  destruct (sorted_high_hands_total hand_list Hne Hkind) as (s0 & r & Es).
  unfold order_hands. rewrite Es. cbn [bind].
  destruct (filtered_hands (s0 :: r)) as [fh |] eqn:Ef; [| cbn; eauto].
  destruct (Hkick _ _ Es Ef) as [n Hn].
  destruct (filtered_hands_some _ _ Ef) as (x0 & x1 & t & t' & _ & _ & ->).
  destruct (sorted_by_total sort_term tuple_leb (x0 :: x1 :: t'))
    as [ks Eks].
  { eapply Forall_impl; [| exact Hn].
    intros h (c & Hc & _). unfold sort_term. rewrite Hc. eauto. }
  unfold sort_by_high_cards. rewrite Eks. cbn [bind].
  assert (P := sorted_by_perm _ _ _ _ Eks).
  assert (Hn' : Forall (fun h => exists c, kickers h = Some c /\
                                           length c = n) ks).
  { apply Forall_forall. intros h Hh.
    apply (proj1 (Forall_forall _ _) Hn).
    eapply Permutation_in; [exact P | exact Hh]. }
  assert (Hl := Permutation_length P). simpl in Hl.
  destruct ks as [| h0 [| h1 ks]]; try discriminate.
  inversion Hn' as [| ? ? (c0 & Hc0 & L0) Hn'']; subst.
  inversion Hn'' as [| ? ? (c1 & Hc1 & L1) _]; subst.
  rewrite Hc0.
  destruct (kicker_scan_total h1 c1 Hc1 c0 0) as [k Hscan]; [lia |].
  cbn [nth_error]. rewrite Hscan. cbn. eauto.
Qed.

(** The ranker returns for every list of hands found by the evaluator,
    whatever deck they come from, unless the best hands are straights, full
    houses or straight flushes: these have no kickers to compare, and two
    of them with the same score make the ranker raise. *)
Theorem order_hands_evaluated (hands : list PokerHand) :
  hands <> [] -> Forall evaluated hands ->
  (forall h, In h (highest_hands hands) -> ~ In (primary h) [5; 7; 9]) ->
  comparable hands /\ exists w k, order_hands hands = OK (w, k).
Proof.
  intros Hne He Htop.
  assert (Hf := proj1 (Forall_forall _ _) He).
  assert (C : comparable hands).
  { split.
    - intros h h' Hh Hh' E.
      apply kind_ok_same_kind; auto; now apply evaluated_facts, Hf.
    - intros shh fh Es Ef.
      assert (P := sorted_high_hands_perm _ _ Es).
      destruct (filtered_hands_filter _ _ Ef) as [p ->].
      destruct (highest_hands_spec hands Hne)
        as (top & rest & _ & Hincl & Hall).
      rewrite Forall_forall in Hall.
      assert (Hk : forall h, In h (filter p shh) ->
                             exists ks, kickers h = Some ks /\
                                        In (primary top, length ks)
                                           [(1, 4%nat); (2, 3%nat);
                                            (3, 1%nat); (4, 2%nat);
                                            (6, 5%nat); (8, 1%nat)]).
      { intros h Hh. apply filter_In in Hh. destruct Hh as [Hh _].
        apply (Permutation_in _ P) in Hh.
        destruct (evaluated_facts h (Hf h (Hincl h Hh))) as [_ K].
        unfold kickers_by_category in K.
        destruct (kickers h) as [ks |].
        - exists ks. split; [reflexivity |]. now rewrite <- (Hall h Hh).
        - exfalso. now apply (Htop h Hh). }
      destruct (filter p shh) as [| h0 fr] eqn:Efh.
      + exists 0%nat. constructor.
      + destruct (Hk h0 (or_introl eq_refl)) as (ks0 & _ & T0).
        exists (length ks0). apply Forall_forall. intros h Hh.
        destruct (Hk h Hh) as (ks & Hks & T).
        exists ks. split; [exact Hks |].
        now destruct (kickers_table _ _ _ T T0). }
  split; [exact C |]. now apply order_hands_total.
Qed.

Lemma order_hands_evaluated_witness :
  comparable ace_high_hands /\
  exists w k, order_hands ace_high_hands = OK (w, k).
Proof.
  assert (V1 : valid_hand [mkCard 1 "club"; mkCard 13 "heart";
                           mkCard 5 "diamond"; mkCard 11 "spade";
                           mkCard 7 "heart"]).
  { split; [reflexivity |]. split.
    - apply distinct_cards_nodup. reflexivity.
    - repeat (apply Forall_cons;
              [apply in_new_deck_cards; simpl; split; [lia | auto 6] |]).
      constructor. }
  assert (V2 : valid_hand [mkCard 1 "club"; mkCard 3 "heart";
                           mkCard 5 "diamond"; mkCard 11 "spade";
                           mkCard 7 "heart"]).
  { split; [reflexivity |]. split.
    - apply distinct_cards_nodup. reflexivity.
    - repeat (apply Forall_cons;
              [apply in_new_deck_cards; simpl; split; [lia | auto 6] |]).
      constructor. }
  apply order_hands_evaluated.
  - vm_compute. discriminate.
  - constructor; [| constructor; [| constructor]].
    + eexists. eexists. split; [exact V1 |].
      split; [vm_compute; reflexivity | reflexivity].
    + eexists. eexists. split; [exact V2 |].
      split; [vm_compute; reflexivity | reflexivity].
  - intros h Hh. vm_compute in Hh.
    destruct Hh as [<- | [<- | []]]; vm_compute; intuition discriminate.
Defined.

(** ** A tie between hands without kickers *)

Lemma mapM_error {A B : Type} (f : A -> result B) (e : error)
    (l : list A) :
  (exists x, In x l /\ f x = Err e) ->
  (forall x e', In x l -> f x = Err e' -> e' = e) ->
  mapM f l = Err e.
Proof.
  induction l as [| a l IH]; intros (x & Hx & Ex) Hall; [destruct Hx |].
  cbn [mapM]. destruct (f a) as [b |] eqn:Ea.
  - cbn [bind]. rewrite IH; [reflexivity | |].
    + destruct Hx as [-> | Hx]; [congruence | now exists x].
    + intros y e' Hy. apply Hall. now right.
  - cbn [bind]. f_equal. apply (Hall a); [now left | exact Ea].
Qed.

(** The ranker raises TypeError whenever the two best hands have the same
    secondary score and one of the hands that tie with them has no
    kickers: two straights with the same highest card are enough.  The
    formatter, which ranks first, raises with it. *)
Theorem order_hands_tie_without_kickers (p : inflect_engine)
    (hand_list shh fh : list PokerHand) :
  sorted_high_hands hand_list = OK shh ->
  filtered_hands shh = Some fh ->
  (exists h, In h fh /\ kickers h = None) ->
  order_hands hand_list = Err TypeError /\
  str_hand_comparison p hand_list = Err TypeError.
Proof.
  intros Es Ef (h & Hh & Hk).
  assert (E : order_hands hand_list = Err TypeError).
  { unfold order_hands. rewrite Es. cbn [bind]. rewrite Ef.
    unfold sort_by_high_cards, sorted_by.
    rewrite (mapM_error _ TypeError); [reflexivity | |].
    - exists h. split; [exact Hh |]. unfold sort_term. now rewrite Hk.
    - intros x e' _. unfold sort_term.
      destruct (kickers x); cbn [bind]; congruence. }
  split; [exact E |]. unfold str_hand_comparison. now rewrite E.
Qed.

Lemma order_hands_tie_without_kickers_witness :
  order_hands tied_straights = Err TypeError /\
  str_hand_comparison plain_engine tied_straights = Err TypeError.
Proof.
  assert (E : exists shh, sorted_high_hands tied_straights = OK shh /\
                          filtered_hands shh = Some shh /\
                          exists h, In h shh /\ kickers h = None).
  { vm_compute. eexists. split; [reflexivity |].
    split; [reflexivity |]. eexists. split; [left; reflexivity |].
    reflexivity. }
  destruct E as (shh & Es & Ef & Hh).
  exact (order_hands_tie_without_kickers plain_engine tied_straights shh
           shh Es Ef Hh).
Defined.
